(** * BytePS control plane: enqueue / init glue of [byteps/common/operations.cc]

    A shallow embedding of the functions of [operations.cc] that partition a
    tensor, enqueue its partitions, run the init protocol and build the
    push / pull itineraries, followed by the properties of the design
    document that concern them.

    Conventions.
    - C++ integers are values in [Z]; a variable whose type the source fixes
      ([auto accumulated = 0] is an [int], [unsigned int accumulated],
      [size_t accumulated], [int len]) is wrapped to its width after every
      assignment.  Values whose declaration lives in a header that is not
      part of [operations.cc] ([Tensor::size()], [GetPartitionBound()], the
      fields [offset] and [len]) are kept as they are computed.
    - Calls into other components (the stage queues, the parameter-server
      client, the shared-memory allocator, the user callback) and the
      [BPS_CHECK] assertions that are evaluated are recorded, in order, in a
      trace of events; a failed assertion ends the run.
    - The two [while] loops take a fuel argument: they need not terminate
      (a partition bound of 0 never advances, and the [int] accumulator of
      [PartitionTensor] never reaches a size above [INT_MAX]). *)

From Stdlib Require Import ZArith List String Bool Lia DecimalString.
From Stdlib Require DecimalZ.
Import ListNotations.
Local Open Scope Z_scope.

(** ** Machine integers *)

Definition INT_MAX : Z := 2147483647.
Definition UINT_MAX : Z := 4294967295.

(** Conversion to [int] (32-bit two's complement). *)
Definition to_int (z : Z) : Z := (z + 2147483648) mod 4294967296 - 2147483648.

(** Conversion to [unsigned int]. *)
Definition to_uint (z : Z) : Z := z mod 4294967296.

(** Conversion to [size_t] (64 bits). *)
Definition to_size_t (z : Z) : Z := z mod 18446744073709551616.

(** [std::to_string] on an integer. *)
Definition to_string (z : Z) : string := NilZero.string_of_int (Z.to_int z).

(** Rounded-up quotient, the [⌈S/B⌉] of the design document. *)
Definition ceil_div (s b : Z) : Z := (s + b - 1) / b.

(** ** Stages, role flags *)

(** Modelled from the spec: the enumeration [QueueType] is declared in a
    header that is not part of the source.  Its members are the stage
    identifiers of section 4.4, under the names [operations.cc] uses. *)
Inductive QueueType : Type :=
| COORDINATE_REDUCE
| REDUCE
| COPYD2H
| PCIE_REDUCE
| COORDINATE_PUSH
| PUSH
| PULL
| COPYH2D
| COORDINATE_BROADCAST
| BROADCAST.

(** Modelled from the spec: the class [BytePSGlobal] is declared outside
    the source.  The record holds what [operations.cc] reads through
    [BytePSGlobal::...], the role flags and topology inputs of section 6,
    snapshotted at init; [IsSignalRoot] is
    [BytePSGlobal::GetNccl()->IsSignalRoot()]. *)
Record BytePSGlobal : Type := mkGlobal {
  IsDistributed : bool;
  IsRootDevice : bool;
  IsCrossPcieSwitch : bool;
  IsSignalRoot : bool;
  GetPartitionBound : Z;
  GetWorkerID : Z
}.

(** [std::vector::push_back]. *)
Definition push_back {A : Type} (v : list A) (x : A) : list A := v ++ [x].

(** ** Itineraries as the design document words them (section 4.2)

    The stages the document calls [COPY_D2H] and [COPY_H2D] are [COPYD2H]
    and [COPYH2D] in the code. *)

Module Table.

Definition push_itinerary
    (is_distributed is_root_device is_cross_pcie_switch nccl_is_signal_root : bool)
    : list QueueType :=
  (if nccl_is_signal_root then [REDUCE] else [COORDINATE_REDUCE; REDUCE])
  ++ (if is_distributed || is_cross_pcie_switch then [COPYD2H] else [])
  ++ (if is_cross_pcie_switch then [PCIE_REDUCE] else [])
  ++ (if is_distributed
      then (if is_root_device then [PUSH] else [COORDINATE_PUSH])
      else []).

Definition pull_itinerary
    (is_distributed is_root_device is_cross_pcie_switch nccl_is_signal_root : bool)
    : list QueueType :=
  (if is_distributed && is_root_device then [PULL] else [])
  ++ (if is_distributed || is_cross_pcie_switch then [COPYH2D] else [])
  ++ (if nccl_is_signal_root then [BROADCAST]
      else [COORDINATE_BROADCAST; BROADCAST]).

End Table.

(** ** Tensors, registration records, tasks *)

(** Modelled from the spec: the class [Tensor] is declared outside the
    source.  An opaque device buffer (section 3), of which the code reads
    the byte size only. *)
Record Tensor : Type := mkTensor {
  Tensor_data : Z;
  Tensor_size : Z
}.

(** Modelled from the spec: the class [Status] is declared outside the
    source; the code builds [Status::OK()] only. *)
Inductive Status : Type :=
| OK
| Error.

(** Modelled from the spec: the struct [BPSContext] is declared outside the
    source.  The fields are those of the registration record of section 3
    that [operations.cc] reads or writes. *)
Module BPSContext.
Record t : Type := mk {
  initialized : bool;
  key_list : list Z;
  cpubuff : Z;
  pcie_cpubuff : list Z;
  buff_len : Z;
  reuse_buff : bool
}.
End BPSContext.

(** Modelled from the spec: the struct [TensorTableEntry] is declared
    outside the source.  The fields are those of the task of section 3 that
    [operations.cc] assigns.  Pointers are addresses in [Z] with 0 for [nullptr]; a
    [shared_ptr] that may be empty is an [option]; [key] is [None] until it
    is assigned; [context] holds the record the C++ pointer refers to. *)
Module TensorTableEntry.
Record t : Type := mk {
  tensor_name : string;
  key : option Z;
  context : BPSContext.t;
  tensor : option Tensor;
  output : option Tensor;
  ready_event : option Z;
  device : Z;
  priority : Z;
  version : Z;
  callback : Z;
  cpubuff : Z;
  pcie_cpubuff : list Z;
  queue_list : list QueueType;
  offset : Z;
  len : Z;
  counter_ptr : option Z;
  total_partnum : Z
}.

(** [task->key = k]. *)
Definition set_key (task : t) (k : Z) : t :=
  mk (tensor_name task) (Some k) (context task) (tensor task) (output task)
     (ready_event task) (device task) (priority task) (version task)
     (callback task) (cpubuff task) (pcie_cpubuff task) (queue_list task)
     (offset task) (len task) (counter_ptr task) (total_partnum task).
End TensorTableEntry.

(** ** Effects *)

(** The assertions of [operations.cc], by place. *)
Inductive CheckSite : Type :=
| counter_ptr_not_null      (* PartitionTensor: BPS_CHECK(entry->counter_ptr) *)
| input_output_size         (* EnqueueTensor: input->size() == output->size() *)
| partition_count           (* EnqueueTensor: key_list.size() == partitions.size() *)
| accumulated_size          (* EnqueueTensor: accumulated == tensor size *)
| key_list_not_empty        (* InitTensor: key_list.size() > 0 *)
| key_list_size             (* InitTensor: key_list.size() == rounded-up quotient *)
| init_accumulated          (* InitTensor: accumulated == size *)
| init_count.               (* InitTensor: i == key_list.size() *)

(** Modelled from the spec: the request kinds are declared outside the
    source; the code names [RequestType::kDefaultPushPull] only. *)
Inductive RequestType : Type :=
| kDefaultPushPull.

(** Modelled from the spec: the node groups of the parameter-server
    library; the code names [ps::kWorkerGroup] only. *)
Inductive NodeGroup : Type :=
| kScheduler
| kServerGroup
| kWorkerGroup.

Inductive Event : Type :=
| EvCheck (site : CheckSite) (holds : bool)
| EvCheckEq (site : CheckSite) (lhs rhs : Z)
| EvCheckGt (site : CheckSite) (lhs rhs : Z)
| EvCallback (callback : Z) (s : Status)
| EvAddTask (q : QueueType) (task : TensorTableEntry.t)
| EvOpenSharedMemory (key size : Z)
| EvOpenPcieSharedMemory (key size : Z)
| EvZPushWait (key vals len cmd : Z)
| EvBarrier (customer_id : Z) (group : NodeGroup).

(** How a run ends: it returns, a [BPS_CHECK] fails (the design document's
    [InvariantViolation]), it steps outside defined C++ (null dereference,
    index out of range, division by zero), or the fuel is spent. *)
Inductive Outcome (A : Type) : Type :=
| Returned (a : A)
| InvariantViolation (site : CheckSite)
| UndefinedBehavior
| OutOfFuel.
Arguments Returned {A} a.
Arguments InvariantViolation {A} site.
Arguments UndefinedBehavior {A}.
Arguments OutOfFuel {A}.

(** A run: the events it emitted, in order, and how it ended. *)
Definition M (A : Type) : Type := (list Event * Outcome A)%type.

Definition ret {A : Type} (a : A) : M A := ([], Returned a).

Definition bind {A B : Type} (m : M A) (k : A -> M B) : M B :=
  match m with
  | (tr, Returned a) => let (tr', r) := k a in (tr ++ tr', r)
  | (tr, InvariantViolation site) => (tr, InvariantViolation site)
  | (tr, UndefinedBehavior) => (tr, UndefinedBehavior)
  | (tr, OutOfFuel) => (tr, OutOfFuel)
  end.

Notation "x <- m ;; k" := (bind m (fun x => k))
  (at level 61, m at next level, right associativity).
Notation "m ;; k" := (bind m (fun _ => k))
  (at level 61, right associativity).

Definition emit (e : Event) : M unit := ([e], Returned tt).

Definition undefined {A : Type} : M A := ([], UndefinedBehavior).

Definition out_of_fuel {A : Type} : M A := ([], OutOfFuel).

(** Modelled from the spec: the macros [BPS_CHECK], [BPS_CHECK_EQ] and
    [BPS_CHECK_GT] are defined outside the source.  By section 7 a failed
    check is an assertion-style termination, the [InvariantViolation]. *)
Definition BPS_CHECK (site : CheckSite) (holds : bool) : M unit :=
  ([EvCheck site holds],
   if holds then Returned tt else InvariantViolation site).

Definition BPS_CHECK_EQ (site : CheckSite) (lhs rhs : Z) : M unit :=
  ([EvCheckEq site lhs rhs],
   if lhs =? rhs then Returned tt else InvariantViolation site).

Definition BPS_CHECK_GT (site : CheckSite) (lhs rhs : Z) : M unit :=
  ([EvCheckGt site lhs rhs],
   if lhs >? rhs then Returned tt else InvariantViolation site).

(** [v[i]] on a [std::vector]: undefined outside the vector. *)
Definition vector_at {A : Type} (v : list A) (i : Z) : M A :=
  if i <? 0 then undefined
  else match nth_error v (Z.to_nat i) with
       | Some x => ret x
       | None => undefined
       end.

(** [v.back()]: undefined on an empty vector. *)
Definition vector_back {A : Type} (v : list A) : M A :=
  match rev v with
  | x :: _ => ret x
  | [] => undefined
  end.

Definition size_of {A : Type} (v : list A) : Z := Z.of_nat (List.length v).

Definition events {A : Type} (m : M A) : list Event := fst m.

Definition outcome {A : Type} (m : M A) : Outcome A := snd m.

(** The tasks handed to [addTask], with their stage, in call order. *)
Fixpoint added_tasks (tr : list Event) : list (QueueType * TensorTableEntry.t) :=
  match tr with
  | [] => []
  | EvAddTask q task :: tr' => (q, task) :: added_tasks tr'
  | _ :: tr' => added_tasks tr'
  end.

(** The statuses passed to the user callback, in call order. *)
Fixpoint callbacks (tr : list Event) : list (Z * Status) :=
  match tr with
  | [] => []
  | EvCallback cb s :: tr' => (cb, s) :: callbacks tr'
  | _ :: tr' => callbacks tr'
  end.

(** The blocking pushes to the parameter server, in call order. *)
Fixpoint pushes (tr : list Event) : list (Z * Z * Z * Z) :=
  match tr with
  | [] => []
  | EvZPushWait k vals l cmd :: tr' => (k, vals, l, cmd) :: pushes tr'
  | _ :: tr' => pushes tr'
  end.

(** The number of barriers entered. *)
Fixpoint barriers (tr : list Event) : nat :=
  match tr with
  | [] => O
  | EvBarrier _ _ :: tr' => S (barriers tr')
  | _ :: tr' => barriers tr'
  end.

(** The assertions evaluated at [site]. *)
Definition is_check_at (site : CheckSite) (e : Event) : bool :=
  match e with
  | EvCheck s _ | EvCheckEq s _ _ | EvCheckGt s _ _ =>
      match site, s with
      | counter_ptr_not_null, counter_ptr_not_null
      | input_output_size, input_output_size
      | partition_count, partition_count
      | accumulated_size, accumulated_size
      | key_list_not_empty, key_list_not_empty
      | key_list_size, key_list_size
      | init_accumulated, init_accumulated
      | init_count, init_count => true
      | _, _ => false
      end
  | _ => false
  end.

Definition checks_at (site : CheckSite) (tr : list Event) : list Event :=
  filter (is_check_at site) tr.

(** ** Concrete inputs on which the statements are exercised *)

(** The device number of the CPU, a command encoder and an allocator. *)
Definition example_cpu : Z := -1.

Definition example_cmd (r : RequestType) (dtype : Z) : Z := dtype.

Definition example_shm (key size : Z) : Z := 4096 + key.

Definition example_pcie_shm (key size : Z) : list Z :=
  [4096 + key; 8192 + key].

(** Distributed, root device, one PCIe switch, signal root, a bound of 4
    bytes, worker 0. *)
Definition example_global : BytePSGlobal := mkGlobal true true false true 4 0.

(** A registration of 9 bytes under three keys, before and after init. *)
Definition example_context : BPSContext.t :=
  BPSContext.mk false [10; 11; 12] 0 [] 9 false.

Definition example_initialized : BPSContext.t :=
  BPSContext.mk true [10; 11; 12] 4106 [] 9 false.

Definition example_tensor : Tensor := mkTensor 65536 9.

Definition example_other_tensor : Tensor := mkTensor 131072 8.

Section Operations.

(** Declared outside [operations.cc]: the device number of the CPU, the
    command encoder, and the shared-memory allocator (which returns the
    address of the region, or one address per PCIe switch). *)
Variable CPU_DEVICE_ID : Z.
Variable GetCommandType : RequestType -> Z -> Z.
Variable openSharedMemory : Z -> Z -> Z.
Variable openPcieSharedMemory : Z -> Z -> list Z.

(** ** Itinerary builders *)

Definition GetPushQueueList (g : BytePSGlobal) (device : Z) : list QueueType :=
  let queue_list := [] in
  if negb (device =? CPU_DEVICE_ID) then
    (* Per-PCIe-switch NCCL reduce *)
    let queue_list :=
      if IsSignalRoot g then push_back queue_list REDUCE
      else push_back (push_back queue_list COORDINATE_REDUCE) REDUCE in
    (* Copy from GPU to CPU *)
    let queue_list :=
      if IsDistributed g || IsCrossPcieSwitch g
      then push_back queue_list COPYD2H else queue_list in
    (* Cross-PCIe-switch reduce *)
    let queue_list :=
      if IsCrossPcieSwitch g then push_back queue_list PCIE_REDUCE
      else queue_list in
    (* Push in distributed mode *)
    let queue_list :=
      if IsDistributed g then
        if IsRootDevice g then push_back queue_list PUSH
        else push_back queue_list COORDINATE_PUSH
      else queue_list in
    queue_list
  else queue_list.

Definition GetPullQueueList (g : BytePSGlobal) (device : Z) : list QueueType :=
  let queue_list := [] in
  if negb (device =? CPU_DEVICE_ID) then
    (* Pull in distributed mode *)
    let queue_list :=
      if IsDistributed g then
        if IsRootDevice g then push_back queue_list PULL else queue_list
      else queue_list in
    (* Copy from CPU to GPU *)
    let queue_list :=
      if IsDistributed g || IsCrossPcieSwitch g
      then push_back queue_list COPYH2D else queue_list in
    (* Per-PCIe-switch NCCL broadcast *)
    let queue_list :=
      if IsSignalRoot g then push_back queue_list BROADCAST
      else push_back (push_back queue_list COORDINATE_BROADCAST) BROADCAST in
    queue_list
  else queue_list.

(** ** Partitioner *)

(** The byte size [PartitionTensor] and [EnqueueTensor] read:
    [entry->tensor ? entry->tensor->size() : entry->output->size()];
    with neither tensor the second branch dereferences a null pointer. *)
Definition entry_size (entry : TensorTableEntry.t) : M Z :=
  match TensorTableEntry.tensor entry with
  | Some t => ret (Tensor_size t)
  | None =>
      match TensorTableEntry.output entry with
      | Some o => ret (Tensor_size o)
      | None => undefined
      end
  end.

(** The child built in one turn of the loop of [PartitionTensor]. *)
Definition new_partition (entry : TensorTableEntry.t) (size bound : Z)
    (accumulated i : Z) : TensorTableEntry.t :=
  TensorTableEntry.mk
    (TensorTableEntry.tensor_name entry ++ "_" ++ to_string i)
    None          (* will assign the key later, so don't do it now *)
    (TensorTableEntry.context entry)
    (TensorTableEntry.tensor entry)
    (TensorTableEntry.output entry)
    (TensorTableEntry.ready_event entry)
    (TensorTableEntry.device entry)
    (TensorTableEntry.priority entry)
    (TensorTableEntry.version entry)
    (TensorTableEntry.callback entry)
    (TensorTableEntry.cpubuff entry)
    (TensorTableEntry.pcie_cpubuff entry)
    (TensorTableEntry.queue_list entry)
    accumulated
    (if size - accumulated >? bound then bound else size - accumulated)
    (TensorTableEntry.counter_ptr entry)
    (TensorTableEntry.total_partnum entry).

(** [while (accumulated < size) { ... }], with [accumulated] and [i] of
    type [int]. *)
Fixpoint PartitionTensor_loop (fuel : nat) (entry : TensorTableEntry.t)
    (size bound : Z) (accumulated i : Z)
    (partitions : list TensorTableEntry.t) : M (list TensorTableEntry.t) :=
  match fuel with
  | O => out_of_fuel
  | S fuel' =>
      if accumulated <? size then
        let e := new_partition entry size bound accumulated i in
        let accumulated := to_int (accumulated + TensorTableEntry.len e) in
        let i := to_int (i + 1) in
        PartitionTensor_loop fuel' entry size bound accumulated i
                             (push_back partitions e)
      else ret partitions
  end.

Definition PartitionTensor (g : BytePSGlobal) (fuel : nat)
    (entry : TensorTableEntry.t) (partitions : list TensorTableEntry.t)
    : M (list TensorTableEntry.t) :=
  BPS_CHECK counter_ptr_not_null
    (match TensorTableEntry.counter_ptr entry with
     | Some _ => true | None => false end) ;;
  size <- entry_size entry ;;
  let bound := GetPartitionBound g in
  PartitionTensor_loop fuel entry size bound 0 0 partitions.

(** ** Enqueue protocol *)

(** [for (size_t i = 0; i < partitions.size(); ++i) { ... }], entered at
    index [i] with [tasks] the partitions from [i] on; [accumulated] is an
    [unsigned int].  Returns the final [accumulated]. *)
Fixpoint EnqueueTensor_loop (context : BPSContext.t) (e : TensorTableEntry.t)
    (tasks : list TensorTableEntry.t) (i : Z) (accumulated : Z) : M Z :=
  match tasks with
  | [] => ret accumulated
  | task :: tasks' =>
      k <- vector_at (BPSContext.key_list context) i ;;
      let task := TensorTableEntry.set_key task k in   (* assign the key now *)
      q <- vector_at (TensorTableEntry.queue_list e) 0 ;;
      emit (EvAddTask q task) ;;
      let accumulated := to_uint (accumulated + TensorTableEntry.len task) in
      EnqueueTensor_loop context e tasks' (i + 1) accumulated
  end.

(** [if (input && output) BPS_CHECK_EQ(input->size(), output->size())]. *)
Definition check_sizes (input output : option Tensor) : M unit :=
  match input, output with
  | Some i, Some o =>
      BPS_CHECK_EQ input_output_size (Tensor_size i) (Tensor_size o)
  | _, _ => ret tt
  end.

(** The parent task [e] that [EnqueueTensor] fills in from its arguments;
    [counter_ptr] is a fresh atomic zero. *)
Definition parent_entry (context : BPSContext.t)
    (input output : option Tensor) (ready_event : option Z) (name : string)
    (device priority version : Z) (callback : Z)
    (queue_list : list QueueType) : TensorTableEntry.t :=
  TensorTableEntry.mk name None context input output ready_event
    device priority version callback
    (BPSContext.cpubuff context) (BPSContext.pcie_cpubuff context)
    queue_list 0 0 (Some 0) (size_of (BPSContext.key_list context)).

(** [EnqueueTensor] on a non-null [queue_list] pointer; the argument
    [queue_list] is the vector [*queue_list].  The pointer itself is the
    argument of [EnqueueTensor_ptr] below. *)
Definition EnqueueTensor (g : BytePSGlobal) (fuel : nat)
    (context : BPSContext.t) (input output : option Tensor)
    (ready_event : option Z) (name : string)
    (device priority version : Z) (callback : Z)
    (queue_list : list QueueType) : M Status :=
  check_sizes input output ;;
  let e := parent_entry context input output ready_event name
             device priority version callback queue_list in
  partitions <- PartitionTensor g fuel e [] ;;
  BPS_CHECK_EQ partition_count
    (size_of (BPSContext.key_list context)) (size_of partitions) ;;
  if size_of (TensorTableEntry.queue_list e) =? 0 then
    emit (EvCallback (TensorTableEntry.callback e) OK) ;;
    ret OK
  else
    accumulated <- EnqueueTensor_loop context e partitions 0 0 ;;
    size <- entry_size e ;;
    BPS_CHECK_EQ accumulated_size accumulated size ;;
    ret OK.


(** ** Init protocol *)

(** [while (accumulated < size) { ... }] of [InitTensor]; [accumulated] and
    [i] are [size_t], [len] is an [int], [data] is [context.cpubuff].
    Returns the final [(accumulated, i)]. *)
Fixpoint InitTensor_loop (g : BytePSGlobal) (fuel : nat) (key_list : list Z)
    (size bound : Z) (dtype : Z) (data : Z) (accumulated i : Z) : M (Z * Z) :=
  match fuel with
  | O => out_of_fuel
  | S fuel' =>
      if accumulated <? size then
        k <- vector_at key_list i ;;
        let len :=
          to_int (if size - accumulated >? bound then bound
                  else size - accumulated) in
        (if IsDistributed g && IsRootDevice g then
           (if GetWorkerID g =? 0 then       (* only worker0 pushes init data *)
              let cmd := GetCommandType kDefaultPushPull dtype in
              emit (EvZPushWait k (data + accumulated) len cmd)  (* blocking push *)
            else ret tt) ;;
           emit (EvBarrier 0 kWorkerGroup)   (* sync all workers *)
         else ret tt) ;;
        let accumulated := to_size_t (accumulated + len) in
        let i := to_size_t (i + 1) in
        InitTensor_loop g fuel' key_list size bound dtype data accumulated i
      else ret (accumulated, i)
  end.

(** [(unsigned int) (size+bound-1)/bound]: the cast applies to the sum, the
    sum is computed in [size_t]; dividing by 0 is undefined. *)
Definition round_up (size bound : Z) : M Z :=
  if bound =? 0 then undefined
  else ret (to_uint (to_size_t (size + bound - 1)) / bound).

(** The host buffer of [InitTensor]: the caller's if there is one, else a
    shared-memory region indexed by the first key. *)
Definition InitTensor_cpubuff (g : BytePSGlobal) (context : BPSContext.t)
    (cpubuff : Z) : M BPSContext.t :=
  let key_list := BPSContext.key_list context in
  let size := BPSContext.buff_len context in
  if negb (cpubuff =? 0) then
    ret (BPSContext.mk (BPSContext.initialized context) key_list cpubuff
           (BPSContext.pcie_cpubuff context) size true)
  else
    (* use the first key in key_list as the index *)
    k0 <- vector_at key_list 0 ;;
    if IsCrossPcieSwitch g then
      emit (EvOpenPcieSharedMemory k0 size) ;;
      let pcie := openPcieSharedMemory k0 size in
      last <- vector_back pcie ;;
      ret (BPSContext.mk (BPSContext.initialized context) key_list last
             pcie size false)
    else
      emit (EvOpenSharedMemory k0 size) ;;
      ret (BPSContext.mk (BPSContext.initialized context) key_list
             (openSharedMemory k0 size)
             (BPSContext.pcie_cpubuff context) size false).

(** [context.initialized = b]. *)
Definition set_initialized (context : BPSContext.t) (b : bool) : BPSContext.t :=
  BPSContext.mk b (BPSContext.key_list context) (BPSContext.cpubuff context)
    (BPSContext.pcie_cpubuff context) (BPSContext.buff_len context)
    (BPSContext.reuse_buff context).

Definition InitTensor (g : BytePSGlobal) (fuel : nat)
    (context : BPSContext.t) (name : string) (dtype : Z) (cpubuff : Z)
    : M BPSContext.t :=
  (* Get metadata *)
  let key_list := BPSContext.key_list context in
  let size := BPSContext.buff_len context in
  let bound := GetPartitionBound g in
  BPS_CHECK_GT key_list_not_empty (size_of key_list) 0 ;;
  parts <- round_up size bound ;;
  BPS_CHECK_EQ key_list_size (size_of key_list) parts ;;
  context <- InitTensor_cpubuff g context cpubuff ;;
  let data := BPSContext.cpubuff context in
  r <- InitTensor_loop g fuel key_list size bound dtype data 0 0 ;;
  BPS_CHECK_EQ init_accumulated (fst r) size ;;
  BPS_CHECK_EQ init_count (snd r) (size_of key_list) ;;
  ret (set_initialized context true).

Definition EnqueueTensorInit (g : BytePSGlobal) (fuel : nat)
    (context : BPSContext.t) (name : string) (dtype : Z) (cpubuff : Z)
    (callback : Z) : M (BPSContext.t * Status) :=
  context <- InitTensor g fuel context name dtype cpubuff ;;
  emit (EvCallback callback OK) ;;
  ret (context, OK).

(** ** Start-up *)

(** Modelled from the spec: the loop functions are declared in a header
    that is not part of the source; they are the workers of the stages of
    section 4.4, under the names [operations.cc] uses. *)
Inductive LoopFunction : Type :=
| PushLoop
| PullLoop
| CoordinatePushLoop
| PcieReduceLoop
| CopyDevice2HostLoop
| RootCopyHost2DeviceLoop
| NonRootCopyHost2DeviceLoop
| NonRootCopyListenLoop
| SyncNcclLoop
| RootNcclLoop
| CoordinateReduceLoop
| CoordinateBroadcastLoop
| NonRootNcclLoop.

(** [byteps_init]: the vector [func] it hands to [BytePSGlobal::Start],
    after [BytePSGlobal::Init()]. *)
Definition byteps_init (g : BytePSGlobal) : list LoopFunction :=
  let func := [] in
  (* Push & Pull in distributed mode *)
  let func :=
    if IsDistributed g then
      if IsRootDevice g then push_back (push_back func PushLoop) PullLoop
      else push_back func CoordinatePushLoop
    else func in
  (* Cross-PCIe-switch reduce *)
  let func :=
    if IsCrossPcieSwitch g then push_back func PcieReduceLoop else func in
  (* Copy between GPU and CPU *)
  let func :=
    if IsCrossPcieSwitch g || IsDistributed g then
      let func := push_back func CopyDevice2HostLoop in
      if IsRootDevice g then push_back func RootCopyHost2DeviceLoop
      else push_back (push_back func NonRootCopyHost2DeviceLoop)
                     NonRootCopyListenLoop
    else func in
  (* Per-PCIe-switch NCCL calls *)
  let func := push_back func SyncNcclLoop in
  let func :=
    if IsSignalRoot g then push_back func RootNcclLoop
    else push_back (push_back (push_back func CoordinateReduceLoop)
                              CoordinateBroadcastLoop)
                   NonRootNcclLoop in
  func.

(** ** Vocabulary of the statements *)

(** The [i]-th child of a parent of byte size [size] under bound [bound]:
    the child the loop of [PartitionTensor] builds when it is entered with
    [accumulated = i * bound]. *)
Definition nth_partition (entry : TensorTableEntry.t) (size bound : Z)
    (i : nat) : TensorTableEntry.t :=
  new_partition entry size bound (Z.of_nat i * bound) (Z.of_nat i).

(** The number of partitions, [⌈size/bound⌉], as a list length. *)
Definition num_partitions (size bound : Z) : nat :=
  Z.to_nat (ceil_div size bound).

(** The children of a parent of byte size [size], in order. *)
Definition partitions_of (entry : TensorTableEntry.t) (size bound : Z)
    : list TensorTableEntry.t :=
  map (nth_partition entry size bound) (seq 0 (num_partitions size bound)).

Definition sum_len (ps : list TensorTableEntry.t) : Z :=
  fold_right (fun p acc => TensorTableEntry.len p + acc) 0 ps.

(** The tasks [EnqueueTensor] hands to the head stage [q]: partition [i]
    with key [keys[i]]. *)
Definition keyed_tasks (q : QueueType) (ps : list TensorTableEntry.t)
    (keys : list Z) : list (QueueType * TensorTableEntry.t) :=
  map (fun pk => (q, TensorTableEntry.set_key (fst pk) (snd pk)))
      (combine ps keys).

(** The call [GetScheduledQueue(q)->addTask(task)] as an event. *)
Definition add_task_event (qt : QueueType * TensorTableEntry.t) : Event :=
  EvAddTask (fst qt) (snd qt).

(** The pushes and barriers of partition [i] in the loop of [InitTensor]. *)
Definition init_step_events (g : BytePSGlobal) (key_list : list Z)
    (size bound dtype data : Z) (i : nat) : list Event :=
  if IsDistributed g && IsRootDevice g then
    (if GetWorkerID g =? 0 then
       [EvZPushWait (nth i key_list 0) (data + Z.of_nat i * bound)
                    (Z.min bound (size - Z.of_nat i * bound))
                    (GetCommandType kDefaultPushPull dtype)]
     else [])
    ++ [EvBarrier 0 kWorkerGroup]
  else [].

(** The sizes on which the arithmetic of [InitTensor] is exact: the sum
    under the [unsigned int] cast and the [int] length of a partition. *)
Definition init_in_range (size bound : Z) : Prop :=
  0 < bound /\ 0 <= size /\ size + bound - 1 <= UINT_MAX
  /\ Z.min size bound <= INT_MAX.

(** The events of the loop of [InitTensor] over all partitions. *)
Definition init_loop_events (g : BytePSGlobal) (key_list : list Z)
    (size bound dtype data : Z) : list Event :=
  List.concat (map (init_step_events g key_list size bound dtype data)
              (seq 0 (num_partitions size bound))).

(** What a child shares with its parent: every field but the name, the
    key, the offset and the length. *)
Definition inherits (entry p : TensorTableEntry.t) : Prop :=
  TensorTableEntry.context p = TensorTableEntry.context entry
  /\ TensorTableEntry.tensor p = TensorTableEntry.tensor entry
  /\ TensorTableEntry.output p = TensorTableEntry.output entry
  /\ TensorTableEntry.ready_event p = TensorTableEntry.ready_event entry
  /\ TensorTableEntry.device p = TensorTableEntry.device entry
  /\ TensorTableEntry.priority p = TensorTableEntry.priority entry
  /\ TensorTableEntry.version p = TensorTableEntry.version entry
  /\ TensorTableEntry.callback p = TensorTableEntry.callback entry
  /\ TensorTableEntry.cpubuff p = TensorTableEntry.cpubuff entry
  /\ TensorTableEntry.pcie_cpubuff p = TensorTableEntry.pcie_cpubuff entry
  /\ TensorTableEntry.queue_list p = TensorTableEntry.queue_list entry
  /\ TensorTableEntry.counter_ptr p = TensorTableEntry.counter_ptr entry
  /\ TensorTableEntry.total_partnum p = TensorTableEntry.total_partnum entry.

(** Byte windows laid end to end from [from], none of them empty. *)
Fixpoint contiguous (from : Z) (ps : list TensorTableEntry.t) : Prop :=
  match ps with
  | [] => True
  | p :: ps' =>
      TensorTableEntry.offset p = from
      /\ 0 < TensorTableEntry.len p
      /\ contiguous (from + TensorTableEntry.len p) ps'
  end.

(** The shared-memory regions opened, in call order: whether per PCIe
    switch, the key and the size. *)
Fixpoint opens (tr : list Event) : list (bool * Z * Z) :=
  match tr with
  | [] => []
  | EvOpenSharedMemory k s :: tr' => (false, k, s) :: opens tr'
  | EvOpenPcieSharedMemory k s :: tr' => (true, k, s) :: opens tr'
  | _ :: tr' => opens tr'
  end.

(** The key and byte window of a task handed to a queue. *)
Definition task_window (qt : QueueType * TensorTableEntry.t)
    : option Z * Z * Z :=
  (TensorTableEntry.key (snd qt), TensorTableEntry.offset (snd qt),
   TensorTableEntry.len (snd qt)).

(** The key and byte window of a push, relative to the buffer at [base]. *)
Definition push_window (base : Z) (p : Z * Z * Z * Z) : option Z * Z * Z :=
  let '(k, vals, l, _) := p in (Some k, vals - base, l).

(** The byte length of a push. *)
Definition push_len (p : Z * Z * Z * Z) : Z :=
  let '(_, _, l, _) := p in l.

Definition sum_Z (l : list Z) : Z := fold_right Z.add 0 l.

(** The key of a push. *)
Definition push_key (p : Z * Z * Z * Z) : Z :=
  let '(k, _, _, _) := p in k.

(** The bytes of a push lie inside the buffer of [size] bytes at [base]. *)
Definition push_inside (base size : Z) (p : Z * Z * Z * Z) : Prop :=
  let '(_, vals, l, _) := p in
  base <= vals /\ 0 < l /\ vals + l <= base + size.

(** The parent task of the exercised enqueue. *)
Definition example_entry : TensorTableEntry.t :=
  parent_entry example_context (Some example_tensor) None None "w"
    0 0 0 77 [REDUCE].

(** * Properties *)

(** ** Machine arithmetic inside its range *)

Lemma to_int_id (z : Z) : - 2147483648 <= z <= INT_MAX -> to_int z = z.
Proof.
  unfold to_int, INT_MAX. intros H. rewrite Z.mod_small; lia.
Qed.

Lemma to_uint_id (z : Z) : 0 <= z <= UINT_MAX -> to_uint z = z.
Proof.
  unfold to_uint, UINT_MAX. intros H. apply Z.mod_small. lia.
Qed.

Lemma to_size_t_id (z : Z) : 0 <= z <= UINT_MAX -> to_size_t z = z.
Proof.
  unfold to_size_t, UINT_MAX. intros H. apply Z.mod_small. lia.
Qed.

Lemma ceil_div_lt (s b k : Z) : 0 < b -> (k < ceil_div s b <-> k * b < s).
Proof.
  intros Hb. unfold ceil_div. split; intros H.
  - assert (Hm : b * ((s + b - 1) / b) <= s + b - 1)
      by (apply Z.mul_div_le; exact Hb).
    nia.
  - assert (Hq : k + 1 <= (s + b - 1) / b)
      by (apply Z.div_le_lower_bound; [exact Hb | nia]).
    lia.
Qed.

Lemma ceil_div_nonneg (s b : Z) : 0 < b -> 0 <= s -> 0 <= ceil_div s b.
Proof.
  intros Hb Hs. unfold ceil_div. apply Z.div_pos; lia.
Qed.

Lemma ceil_div_le (s b : Z) : 0 < b -> 0 <= s -> ceil_div s b <= s.
Proof.
  intros Hb Hs.
  destruct (Z_lt_le_dec s (ceil_div s b)) as [H | H]; [| exact H].
  apply (ceil_div_lt s b s Hb) in H. nia.
Qed.

(** The index form used by the loops: [k] counts partitions already cut. *)
Lemma ceil_div_nat_lt (s b : Z) (k : nat) :
  0 < b -> 0 <= s ->
  ((k < num_partitions s b)%nat <-> Z.of_nat k * b < s).
Proof.
  intros Hb Hs. unfold num_partitions. rewrite <- (ceil_div_lt s b (Z.of_nat k) Hb).
  pose proof (ceil_div_nonneg s b Hb Hs). lia.
Qed.

(** ** Runs *)

Lemma bind_Returned {A B : Type} (tr : list Event) (a : A) (k : A -> M B) :
  bind (tr, Returned a) k = (tr ++ events (k a), outcome (k a)).
Proof.
  unfold bind, events, outcome. destruct (k a) as [tr' r]. reflexivity.
Qed.

Lemma bind_ext {A B : Type} (m : M A) (k1 k2 : A -> M B) :
  (forall a, k1 a = k2 a) -> bind m k1 = bind m k2.
Proof.
  intros H. destruct m as [tr [a | site | |]]; try reflexivity.
  cbn. rewrite H. reflexivity.
Qed.

Lemma events_bind {A B : Type} (m : M A) (k : A -> M B) :
  events (bind m k)
  = events m ++ match outcome m with
                | Returned a => events (k a)
                | _ => []
                end.
Proof.
  destruct m as [tr [a | site | |]]; cbn [outcome snd events fst].
  - rewrite bind_Returned. reflexivity.
  - cbn. now rewrite app_nil_r.
  - cbn. now rewrite app_nil_r.
  - cbn. now rewrite app_nil_r.
Qed.

Lemma outcome_bind {A B : Type} (m : M A) (k : A -> M B) :
  outcome (bind m k)
  = match outcome m with
    | Returned a => outcome (k a)
    | InvariantViolation site => InvariantViolation site
    | UndefinedBehavior => UndefinedBehavior
    | OutOfFuel => OutOfFuel
    end.
Proof.
  destruct m as [tr [a | site | |]]; cbn [outcome snd events fst].
  - rewrite bind_Returned. reflexivity.
  - reflexivity.
  - reflexivity.
  - reflexivity.
Qed.

Lemma added_tasks_app (tr1 tr2 : list Event) :
  added_tasks (tr1 ++ tr2) = added_tasks tr1 ++ added_tasks tr2.
Proof.
  induction tr1 as [| e tr1 IH]; [reflexivity |].
  destruct e; cbn; rewrite IH; reflexivity.
Qed.

Lemma callbacks_app (tr1 tr2 : list Event) :
  callbacks (tr1 ++ tr2) = callbacks tr1 ++ callbacks tr2.
Proof.
  induction tr1 as [| e tr1 IH]; [reflexivity |].
  destruct e; cbn; rewrite IH; reflexivity.
Qed.

Lemma pushes_app (tr1 tr2 : list Event) :
  pushes (tr1 ++ tr2) = pushes tr1 ++ pushes tr2.
Proof.
  induction tr1 as [| e tr1 IH]; [reflexivity |].
  destruct e; cbn; rewrite IH; reflexivity.
Qed.

Lemma barriers_app (tr1 tr2 : list Event) :
  barriers (tr1 ++ tr2) = (barriers tr1 + barriers tr2)%nat.
Proof.
  induction tr1 as [| e tr1 IH]; [reflexivity |].
  destruct e; cbn; rewrite IH; reflexivity.
Qed.

Lemma vector_at_nat {A : Type} (v : list A) (i : nat) :
  vector_at v (Z.of_nat i)
  = match nth_error v i with Some x => ret x | None => undefined end.
Proof.
  unfold vector_at. destruct (Z.ltb_spec (Z.of_nat i) 0) as [H | H]; [lia |].
  rewrite Nat2Z.id. reflexivity.
Qed.

(** ** The partitioner *)

Section Partitioner.

Variable entry : TensorTableEntry.t.
Variables size bound : Z.
Hypothesis bound_pos : 0 < bound.
Hypothesis size_range : 0 <= size <= INT_MAX.

Lemma nth_partition_offset (i : nat) :
  TensorTableEntry.offset (nth_partition entry size bound i)
  = Z.of_nat i * bound.
Proof. reflexivity. Qed.

Lemma nth_partition_len (i : nat) :
  TensorTableEntry.len (nth_partition entry size bound i)
  = Z.min bound (size - Z.of_nat i * bound).
Proof.
  cbn. destruct (Z.gtb_spec (size - Z.of_nat i * bound) bound); lia.
Qed.

Lemma nth_partition_key (i : nat) :
  TensorTableEntry.key (nth_partition entry size bound i) = None.
Proof. reflexivity. Qed.

(** Entered after [k] partitions, with enough fuel, the loop cuts the
    remaining ones and stops. *)
Lemma PartitionTensor_loop_run (fuel k : nat) (ps : list TensorTableEntry.t) :
  (k <= (num_partitions size bound))%nat -> (num_partitions size bound - k < fuel)%nat ->
  PartitionTensor_loop fuel entry size bound
    (Z.min (Z.of_nat k * bound) size) (Z.of_nat k) ps
  = ret (ps ++ map (nth_partition entry size bound) (seq k ((num_partitions size bound) - k))).
Proof.
  revert k ps. induction fuel as [| fuel IH]; intros k ps Hk Hfuel; [lia |].
  pose proof (ceil_div_nat_lt size bound k bound_pos (proj1 size_range)) as Hlt.
  pose proof (ceil_div_le size bound bound_pos (proj1 size_range)) as Hle.
  pose proof (ceil_div_nonneg size bound bound_pos (proj1 size_range)) as Hnn.
  cbn [PartitionTensor_loop].
  destruct (Z.ltb_spec (Z.min (Z.of_nat k * bound) size) size) as [Hin | Hout].
  - assert (Hk' : (k < (num_partitions size bound))%nat) by (apply Hlt; lia).
    replace (Z.min (Z.of_nat k * bound) size) with (Z.of_nat k * bound) by lia.
    fold (nth_partition entry size bound k).
    rewrite nth_partition_len.
    rewrite (to_int_id (Z.of_nat k + 1)) by (unfold INT_MAX in *; cbv zeta in *; lia).
    rewrite to_int_id by (unfold INT_MAX in *; cbv zeta in *; lia).
    replace (Z.of_nat k * bound + Z.min bound (size - Z.of_nat k * bound))
      with (Z.min (Z.of_nat (S k) * bound) size) by lia.
    replace (Z.of_nat k + 1) with (Z.of_nat (S k)) by lia.
    rewrite IH by lia. unfold push_back. rewrite <- app_assoc.
    replace (num_partitions size bound - k)%nat with (S ((num_partitions size bound) - S k)) by lia.
    reflexivity.
  - assert (Hk' : k = (num_partitions size bound)) by lia.
    subst k. rewrite Nat.sub_diag, app_nil_r. reflexivity.
Qed.

Lemma sum_len_nth_partition (k n : nat) :
  (k + n <= (num_partitions size bound))%nat ->
  sum_len (map (nth_partition entry size bound) (seq k n))
  = Z.min (Z.of_nat (k + n) * bound) size - Z.min (Z.of_nat k * bound) size.
Proof.
  revert k. induction n as [| n IH]; intros k Hk.
  - rewrite Nat.add_0_r. cbn. lia.
  - cbn [seq map sum_len fold_right]. fold (sum_len (map (nth_partition entry size bound) (seq (S k) n))).
    rewrite IH by lia. rewrite nth_partition_len.
    pose proof (ceil_div_nat_lt size bound k bound_pos (proj1 size_range)) as Hlt.
      assert (Z.of_nat k * bound < size) by (apply Hlt; lia).
    replace (S k + n)%nat with (k + S n)%nat by lia. lia.
Qed.

Lemma sum_len_partitions :
  sum_len (partitions_of entry size bound) = size.
Proof.
  unfold partitions_of. rewrite sum_len_nth_partition by lia.
  pose proof (ceil_div_nat_lt size bound (num_partitions size bound) bound_pos (proj1 size_range)) as Hlt.
  cbn [Nat.add].
  assert (~ Z.of_nat (num_partitions size bound) * bound < size) by (intros H; apply Hlt in H; lia).
  lia.
Qed.

Lemma nth_partition_len_pos (i : nat) :
  (i < num_partitions size bound)%nat ->
  0 < TensorTableEntry.len (nth_partition entry size bound i).
Proof.
  intros Hi. rewrite nth_partition_len.
  apply (ceil_div_nat_lt size bound i bound_pos (proj1 size_range)) in Hi. lia.
Qed.

Lemma partitions_len_nonneg (k n : nat) :
  (k + n <= num_partitions size bound)%nat ->
  Forall (fun p => 0 <= TensorTableEntry.len p)
         (map (nth_partition entry size bound) (seq k n)).
Proof.
  intros Hk. apply Forall_forall. intros p Hp.
  apply in_map_iff in Hp. destruct Hp as [i [Hi Hin]]. subst p.
  apply in_seq in Hin. apply Z.lt_le_incl, nth_partition_len_pos. lia.
Qed.

End Partitioner.

Lemma PartitionTensor_run (g : BytePSGlobal) (fuel : nat)
    (entry : TensorTableEntry.t) (size c : Z) :
  TensorTableEntry.counter_ptr entry = Some c ->
  entry_size entry = ret size ->
  0 < GetPartitionBound g ->
  0 <= size <= INT_MAX ->
  (num_partitions size (GetPartitionBound g) < fuel)%nat ->
  PartitionTensor g fuel entry []
  = ([EvCheck counter_ptr_not_null true],
     Returned (partitions_of entry size (GetPartitionBound g))).
Proof.
  intros Hc Hsize Hb Hs Hfuel. unfold PartitionTensor, partitions_of.
  rewrite Hc, Hsize. unfold BPS_CHECK, ret. rewrite !bind_Returned.
  pose proof (PartitionTensor_loop_run entry size (GetPartitionBound g) Hb Hs
                fuel 0 []) as Hrun.
  replace (Z.min (Z.of_nat 0 * GetPartitionBound g) size) with 0 in Hrun by lia.
  rewrite Nat.sub_0_r in Hrun. cbn [Z.of_nat] in Hrun.
  rewrite Hrun by lia. reflexivity.
Qed.

(** ** The enqueue loop *)

Lemma skipn_nth_error {A : Type} (l : list A) (j : nat) (x : A) :
  nth_error l j = Some x -> skipn j l = x :: skipn (S j) l.
Proof.
  revert l. induction j as [| j IH]; intros [| y l] H; try discriminate.
  - injection H as ->. reflexivity.
  - cbn in H. apply IH in H. exact H.
Qed.

Lemma added_tasks_add_task_events (l : list (QueueType * TensorTableEntry.t)) :
  added_tasks (map add_task_event l) = l.
Proof.
  induction l as [| [q t] l IH]; [reflexivity |]. cbn. now rewrite IH.
Qed.

Lemma callbacks_add_task_events (l : list (QueueType * TensorTableEntry.t)) :
  callbacks (map add_task_event l) = [].
Proof.
  induction l as [| [q t] l IH]; [reflexivity |]. exact IH.
Qed.

Lemma checks_at_add_task_events (site : CheckSite)
    (l : list (QueueType * TensorTableEntry.t)) :
  checks_at site (map add_task_event l) = [].
Proof.
  induction l as [| [q t] l IH]; [reflexivity |]. exact IH.
Qed.

Lemma EnqueueTensor_loop_run (context : BPSContext.t) (e : TensorTableEntry.t)
    (q0 : QueueType) (rest : list QueueType) :
  TensorTableEntry.queue_list e = q0 :: rest ->
  forall (tasks : list TensorTableEntry.t) (j : nat) (accumulated : Z),
    (j + List.length tasks <= List.length (BPSContext.key_list context))%nat ->
    Forall (fun p => 0 <= TensorTableEntry.len p) tasks ->
    0 <= accumulated ->
    accumulated + sum_len tasks <= UINT_MAX ->
    EnqueueTensor_loop context e tasks (Z.of_nat j) accumulated
    = (map add_task_event
           (keyed_tasks q0 tasks (skipn j (BPSContext.key_list context))),
       Returned (accumulated + sum_len tasks)).
Proof.
  intros Hq tasks.
  induction tasks as [| task tasks IH]; intros j acc Hj Hlen Hacc Hsum.
  - cbn. unfold ret. now rewrite Z.add_0_r.
  - cbn [EnqueueTensor_loop]. rewrite vector_at_nat.
    destruct (nth_error (BPSContext.key_list context) j) as [k |] eqn:Hk.
    2:{ apply nth_error_None in Hk. cbn [List.length] in Hj. lia. }
    rewrite Hq. unfold emit, vector_at. cbn [Z.ltb Z.compare Z.to_nat nth_error].
    unfold ret. rewrite !bind_Returned. cbn [events outcome fst snd app].
    inversion Hlen as [| p l Hp Hl]; subst.
    cbn [sum_len fold_right] in Hsum.
    fold (sum_len tasks) in Hsum.
    assert (Hs0 : 0 <= sum_len tasks).
    { clear - Hl. induction Hl as [| p l Hp Hl IHl]; cbn; [lia |].
      fold (sum_len l). lia. }
    replace (TensorTableEntry.len (TensorTableEntry.set_key task k))
      with (TensorTableEntry.len task) by reflexivity.
    assert (Hx : 0 <= acc + TensorTableEntry.len task <= UINT_MAX) by lia.
    rewrite (to_uint_id _ Hx).
    replace (Z.of_nat j + 1) with (Z.of_nat (S j)) by lia.
    rewrite IH; [| cbn [List.length] in Hj; lia | exact Hl | lia | lia].
    rewrite (skipn_nth_error _ _ _ Hk).
    cbn [sum_len fold_right]. fold (sum_len tasks).
    unfold keyed_tasks. cbn [combine map fst snd events outcome add_task_event].
    rewrite Z.add_assoc. reflexivity.
Qed.

(** ** What every run does, whatever its arguments *)

Lemma size_of_cons_neqb {A : Type} (x : A) (l : list A) :
  (size_of (x :: l) =? 0) = false.
Proof.
  apply Z.eqb_neq. unfold size_of. cbn [List.length]. lia.
Qed.

Lemma added_tasks_bind {A B : Type} (m : M A) (k : A -> M B) :
  added_tasks (events (bind m k))
  = added_tasks (events m)
    ++ match outcome m with
       | Returned a => added_tasks (events (k a))
       | _ => []
       end.
Proof.
  rewrite events_bind, added_tasks_app. destruct (outcome m); reflexivity.
Qed.

Lemma callbacks_bind {A B : Type} (m : M A) (k : A -> M B) :
  callbacks (events (bind m k))
  = callbacks (events m)
    ++ match outcome m with
       | Returned a => callbacks (events (k a))
       | _ => []
       end.
Proof.
  rewrite events_bind, callbacks_app. destruct (outcome m); reflexivity.
Qed.


Lemma check_sizes_events (input output : option Tensor) :
  added_tasks (events (check_sizes input output)) = []
  /\ callbacks (events (check_sizes input output)) = []
  /\ checks_at partition_count (events (check_sizes input output)) = []
  /\ checks_at accumulated_size (events (check_sizes input output)) = [].
Proof.
  destruct input as [i |], output as [o |]; cbn; auto.
Qed.

Lemma PartitionTensor_loop_events (fuel : nat) (entry : TensorTableEntry.t)
    (size bound accumulated i : Z) (ps : list TensorTableEntry.t) :
  events (PartitionTensor_loop fuel entry size bound accumulated i ps) = [].
Proof.
  revert accumulated i ps.
  induction fuel as [| fuel IH]; intros accumulated i ps; [reflexivity |].
  cbn [PartitionTensor_loop]. destruct (accumulated <? size); [| reflexivity].
  apply IH.
Qed.

Lemma PartitionTensor_events (g : BytePSGlobal) (fuel : nat)
    (entry : TensorTableEntry.t) (ps : list TensorTableEntry.t) :
  exists b, events (PartitionTensor g fuel entry ps)
            = [EvCheck counter_ptr_not_null b].
Proof.
  unfold PartitionTensor. rewrite events_bind.
  destruct (TensorTableEntry.counter_ptr entry) as [c |]; cbn [BPS_CHECK events outcome fst snd].
  - exists true. rewrite events_bind. unfold entry_size.
    destruct (TensorTableEntry.tensor entry) as [t |];
      [| destruct (TensorTableEntry.output entry) as [o |]];
      cbn [ret undefined events outcome fst snd app];
      rewrite ?PartitionTensor_loop_events; reflexivity.
  - exists false. reflexivity.
Qed.

(** The loop only ever appends children without a key. *)
Lemma PartitionTensor_loop_keys (fuel : nat) (entry : TensorTableEntry.t)
    (size bound : Z) :
  forall (accumulated i : Z) (ps ps' : list TensorTableEntry.t),
    Forall (fun p => TensorTableEntry.key p = None) ps ->
    outcome (PartitionTensor_loop fuel entry size bound accumulated i ps)
    = Returned ps' ->
    Forall (fun p => TensorTableEntry.key p = None) ps'.
Proof.
  induction fuel as [| fuel IH]; intros accumulated i ps ps' Hps Hrun.
  - discriminate Hrun.
  - cbn [PartitionTensor_loop] in Hrun.
    destruct (accumulated <? size).
    + apply IH in Hrun; [exact Hrun |].
      unfold push_back. apply Forall_app. split; [exact Hps |].
      constructor; [reflexivity | constructor].
    + cbn in Hrun. injection Hrun as <-. exact Hps.
Qed.

Lemma PartitionTensor_keys (g : BytePSGlobal) (fuel : nat)
    (entry : TensorTableEntry.t) (ps : list TensorTableEntry.t) :
  outcome (PartitionTensor g fuel entry []) = Returned ps ->
  Forall (fun p => TensorTableEntry.key p = None) ps.
Proof.
  unfold PartitionTensor. rewrite outcome_bind.
  destruct (TensorTableEntry.counter_ptr entry) as [c |];
    cbn [BPS_CHECK outcome snd]; [| discriminate].
  rewrite outcome_bind.
  destruct (outcome (entry_size entry)) as [size | | |]; try discriminate.
  apply PartitionTensor_loop_keys. constructor.
Qed.

(** Every task the loop hands to a queue is the partition at its position,
    keyed from the same position of [key_list], and goes to the head stage. *)
Lemma EnqueueTensor_loop_added (context : BPSContext.t)
    (e : TensorTableEntry.t) :
  forall (tasks : list TensorTableEntry.t) (j : nat) (accumulated : Z)
         (i : nat) (q : QueueType) (task : TensorTableEntry.t),
    nth_error
      (added_tasks
         (events (EnqueueTensor_loop context e tasks (Z.of_nat j) accumulated)))
      i = Some (q, task) ->
    exists p k,
      nth_error tasks i = Some p
      /\ nth_error (BPSContext.key_list context) (j + i) = Some k
      /\ task = TensorTableEntry.set_key p k
      /\ hd_error (TensorTableEntry.queue_list e) = Some q.
Proof.
  induction tasks as [| p tasks IH]; intros j acc i q task H.
  - cbn in H. destruct i; discriminate H.
  - cbn [EnqueueTensor_loop] in H. rewrite vector_at_nat in H.
    destruct (nth_error (BPSContext.key_list context) j) as [k |] eqn:Hk.
    2:{ cbn in H. destruct i; discriminate H. }
    unfold ret in H. rewrite bind_Returned in H.
    unfold vector_at in H. cbn [Z.ltb Z.compare Z.to_nat] in H.
    destruct (TensorTableEntry.queue_list e) as [| q0 rest] eqn:Hq.
    { cbn in H. destruct i; discriminate H. }
    cbn [nth_error] in H. unfold ret, emit in H.
    rewrite !bind_Returned in H. cbn [events outcome fst snd app added_tasks] in H.
    destruct i as [| i].
    + cbn in H. injection H as <- <-. exists p, k.
      rewrite Nat.add_0_r. repeat split; assumption || reflexivity.
    + cbn [nth_error] in H.
      replace (Z.of_nat j + 1) with (Z.of_nat (S j)) in H by lia.
      apply IH in H. destruct H as [p' [k' [Hp [Hk' [Ht Hhd]]]]].
      exists p', k'. replace (j + S i)%nat with (S j + i)%nat by lia.
      repeat split; assumption.
Qed.

Lemma EnqueueTensor_loop_callbacks (context : BPSContext.t)
    (e : TensorTableEntry.t) :
  forall (tasks : list TensorTableEntry.t) (i : Z) (accumulated : Z),
    callbacks (events (EnqueueTensor_loop context e tasks i accumulated)) = [].
Proof.
  induction tasks as [| p tasks IH]; intros i acc; [reflexivity |].
  cbn [EnqueueTensor_loop]. rewrite callbacks_bind.
  assert (Hv : forall (A : Type) (v : list A) (n : Z),
             callbacks (events (vector_at v n)) = []).
  { intros A v n. unfold vector_at. destruct (n <? 0); [reflexivity |].
    destruct (nth_error v (Z.to_nat n)); reflexivity. }
  rewrite Hv. destruct (outcome _); [| reflexivity ..].
  rewrite callbacks_bind, Hv. destruct (outcome _); [| reflexivity ..].
  rewrite callbacks_bind. cbn [emit events outcome fst snd callbacks app].
  apply IH.
Qed.

Lemma EnqueueTensor_loop_length (context : BPSContext.t)
    (e : TensorTableEntry.t) :
  forall (tasks : list TensorTableEntry.t) (i : Z) (accumulated r : Z),
    outcome (EnqueueTensor_loop context e tasks i accumulated) = Returned r ->
    List.length
      (added_tasks (events (EnqueueTensor_loop context e tasks i accumulated)))
    = List.length tasks.
Proof.
  induction tasks as [| p tasks IH]; intros i acc r H; [reflexivity |].
  cbn [EnqueueTensor_loop] in *.
  destruct (vector_at (BPSContext.key_list context) i) as [tr1 [k | | |]] eqn:Hk;
    try discriminate H.
  assert (tr1 = []) as ->.
  { unfold vector_at in Hk. destruct (i <? 0); [discriminate Hk |].
    destruct (nth_error _ _); inversion Hk; reflexivity. }
  rewrite bind_Returned in *. cbn [app] in *.
  destruct (vector_at (TensorTableEntry.queue_list e) 0) as [tr2 [q | | |]] eqn:Hq;
    try discriminate H.
  assert (tr2 = []) as ->.
  { unfold vector_at in Hq. destruct (0 <? 0); [discriminate Hq |].
    destruct (nth_error _ _); inversion Hq; reflexivity. }
  cbn [outcome events fst snd] in *. rewrite bind_Returned in *.
  unfold emit in *. rewrite bind_Returned in *.
  cbn [outcome events fst snd app added_tasks List.length] in *.
  f_equal. eapply IH. exact H.
Qed.

Section EnqueueAlways.

Variable g : BytePSGlobal.
Variable fuel : nat.
Variable context : BPSContext.t.
Variables input output : option Tensor.
Variable ready_event : option Z.
Variable name : string.
Variables device priority version callback : Z.

(** With an empty itinerary nothing reaches a queue. *)
Lemma EnqueueTensor_empty_added :
  added_tasks
    (events (EnqueueTensor g fuel context input output ready_event name
               device priority version callback [])) = [].
Proof.
  unfold EnqueueTensor. rewrite added_tasks_bind.
  destruct (check_sizes_events input output) as [H1 _]. rewrite H1.
  destruct (outcome (check_sizes input output)); try reflexivity.
  rewrite added_tasks_bind.
  destruct (PartitionTensor_events g fuel
              (parent_entry context input output ready_event name
                 device priority version callback []) []) as [b Hb].
  rewrite Hb. cbn [added_tasks app].
  destruct (outcome (PartitionTensor _ _ _ _)) as [ps | | |]; try reflexivity.
  rewrite added_tasks_bind. cbn [BPS_CHECK_EQ events outcome fst snd added_tasks app].
  destruct (_ =? _); reflexivity.
Qed.


(** With an itinerary that has a head stage the callback is not invoked. *)
Lemma EnqueueTensor_cons_callbacks (q0 : QueueType) (rest : list QueueType) :
  callbacks
    (events (EnqueueTensor g fuel context input output ready_event name
               device priority version callback (q0 :: rest))) = [].
Proof.
  unfold EnqueueTensor. rewrite callbacks_bind.
  destruct (check_sizes_events input output) as [_ [H1 _]]. rewrite H1.
  destruct (outcome (check_sizes input output)); try reflexivity.
  rewrite callbacks_bind.
  destruct (PartitionTensor_events g fuel
              (parent_entry context input output ready_event name
                 device priority version callback (q0 :: rest)) []) as [b Hb].
  rewrite Hb. cbn [callbacks app].
  destruct (outcome (PartitionTensor _ _ _ _)) as [ps | | |]; try reflexivity.
  rewrite callbacks_bind. cbn [BPS_CHECK_EQ events outcome fst snd callbacks app].
  destruct (_ =? _); try reflexivity.
  replace (TensorTableEntry.queue_list (parent_entry _ _ _ _ _ _ _ _ _ _))
    with (q0 :: rest) by reflexivity.
  rewrite size_of_cons_neqb, callbacks_bind, EnqueueTensor_loop_callbacks.
  destruct (outcome (EnqueueTensor_loop _ _ _ _ _)) as [acc | | |];
    try reflexivity.
  rewrite callbacks_bind. unfold entry_size.
  destruct (TensorTableEntry.tensor _) as [t |];
    [| destruct (TensorTableEntry.output _) as [o |]];
    cbn [ret undefined events outcome fst snd callbacks app]; try reflexivity;
    rewrite callbacks_bind; cbn [BPS_CHECK_EQ events outcome fst snd callbacks app];
    destruct (_ =? _); reflexivity.
Qed.

(** Whatever the arguments, the [i]-th task handed to a queue is the [i]-th
    partition with the [i]-th key, and goes to the head of the itinerary. *)
Lemma EnqueueTensor_added (queue_list : list QueueType) (i : nat)
    (q : QueueType) (task : TensorTableEntry.t) :
  nth_error
    (added_tasks
       (events (EnqueueTensor g fuel context input output ready_event name
                  device priority version callback queue_list)))
    i = Some (q, task) ->
  exists ps p k,
    outcome (PartitionTensor g fuel
               (parent_entry context input output ready_event name
                  device priority version callback queue_list) [])
    = Returned ps
    /\ nth_error ps i = Some p
    /\ nth_error (BPSContext.key_list context) i = Some k
    /\ task = TensorTableEntry.set_key p k
    /\ hd_error queue_list = Some q.
Proof.
  unfold EnqueueTensor. rewrite added_tasks_bind.
  destruct (check_sizes_events input output) as [H1 _]. rewrite H1.
  assert (Hnil : forall A (x : A), nth_error (@nil A) i = Some x -> False)
    by (intros A x Hx; destruct i; discriminate Hx).
  destruct (outcome (check_sizes input output));
    try (intros H; exfalso; exact (Hnil _ _ H)).
  rewrite added_tasks_bind.
  destruct (PartitionTensor_events g fuel
              (parent_entry context input output ready_event name
                 device priority version callback queue_list) []) as [b Hb].
  rewrite Hb. cbn [added_tasks app].
  destruct (outcome (PartitionTensor _ _ _ _)) as [ps | | |];
    try (intros H; exfalso; exact (Hnil _ _ H)).
  rewrite added_tasks_bind. cbn [BPS_CHECK_EQ events outcome fst snd added_tasks app].
  destruct (_ =? _); try (intros H; exfalso; exact (Hnil _ _ H)).
  destruct (size_of _ =? 0).
  { cbn. intros H; exfalso; exact (Hnil _ _ H). }
  rewrite added_tasks_bind.
  assert (Htail :
    match outcome (EnqueueTensor_loop context
                     (parent_entry context input output ready_event name
                        device priority version callback queue_list) ps 0 0) with
    | Returned a =>
        added_tasks
          (events
             (size <- entry_size
                        (parent_entry context input output ready_event name
                           device priority version callback queue_list) ;;
              BPS_CHECK_EQ accumulated_size a size ;; ret OK))
    | _ => []
    end = []).
  { destruct (outcome (EnqueueTensor_loop _ _ _ _ _)) as [acc | | |];
      try reflexivity.
    rewrite added_tasks_bind. unfold entry_size.
    destruct (TensorTableEntry.tensor _) as [t |];
      [| destruct (TensorTableEntry.output _) as [o |]];
      cbn [ret undefined events outcome fst snd added_tasks app]; try reflexivity;
      rewrite added_tasks_bind;
      cbn [BPS_CHECK_EQ events outcome fst snd added_tasks app];
      destruct (_ =? _); reflexivity. }
  rewrite Htail, app_nil_r. intros H.
  change 0 with (Z.of_nat 0) in H at 1.
  apply EnqueueTensor_loop_added in H.
  destruct H as [p [k [Hp [Hk [Ht Hhd]]]]].
  exists ps, p, k. repeat split; assumption.
Qed.

End EnqueueAlways.

(** ** A whole enqueue, inside the range of the partitioner *)

Lemma size_of_partitions (entry : TensorTableEntry.t) (size bound : Z) :
  0 < bound -> 0 <= size ->
  size_of (partitions_of entry size bound) = ceil_div size bound.
Proof.
  intros Hb Hs. unfold size_of, partitions_of, num_partitions.
  rewrite length_map, length_seq.
  pose proof (ceil_div_nonneg size bound Hb Hs). lia.
Qed.

Lemma check_sizes_passes (input output : option Tensor) :
  outcome (check_sizes input output) = Returned tt ->
  check_sizes input output = (events (check_sizes input output), Returned tt).
Proof.
  intros H. destruct (check_sizes input output) as [tr r].
  cbn in H. subst r. reflexivity.
Qed.

Section Enqueue.

Variable g : BytePSGlobal.
Variable fuel : nat.
Variable context : BPSContext.t.
Variables input output : option Tensor.
Variable ready_event : option Z.
Variable name : string.
Variables device priority version callback : Z.
Variable size : Z.

Hypothesis sizes_agree : outcome (check_sizes input output) = Returned tt.
Hypothesis size_read :
  forall queue_list,
    entry_size (parent_entry context input output ready_event name
                  device priority version callback queue_list) = ret size.
Hypothesis bound_pos : 0 < GetPartitionBound g.
Hypothesis size_range : 0 <= size <= INT_MAX.
Hypothesis enough_fuel : (num_partitions size (GetPartitionBound g) < fuel)%nat.

(** The key count does not match: the run ends at the assertion. *)
Lemma EnqueueTensor_run_mismatch (queue_list : list QueueType) :
  size_of (BPSContext.key_list context)
    <> ceil_div size (GetPartitionBound g) ->
  EnqueueTensor g fuel context input output ready_event name
    device priority version callback queue_list
  = (events (check_sizes input output)
     ++ [EvCheck counter_ptr_not_null true;
         EvCheckEq partition_count (size_of (BPSContext.key_list context))
                   (ceil_div size (GetPartitionBound g))],
     InvariantViolation partition_count).
Proof.
  intros Hne. unfold EnqueueTensor.
  rewrite (check_sizes_passes _ _ sizes_agree), bind_Returned.
  rewrite (PartitionTensor_run g fuel
             (parent_entry context input output ready_event name
                device priority version callback queue_list)
             size 0 eq_refl (size_read _) bound_pos size_range enough_fuel).
  rewrite bind_Returned. cbn [events outcome fst snd].
  rewrite (size_of_partitions _ _ _ bound_pos (proj1 size_range)).
  unfold BPS_CHECK_EQ. apply Z.eqb_neq in Hne. rewrite Hne.
  reflexivity.
Qed.

(** The key count matches, the itinerary is empty: the callback fires. *)
Lemma EnqueueTensor_run_empty :
  size_of (BPSContext.key_list context)
    = ceil_div size (GetPartitionBound g) ->
  EnqueueTensor g fuel context input output ready_event name
    device priority version callback []
  = (events (check_sizes input output)
     ++ [EvCheck counter_ptr_not_null true;
         EvCheckEq partition_count (size_of (BPSContext.key_list context))
                   (ceil_div size (GetPartitionBound g));
         EvCallback callback OK],
     Returned OK).
Proof.
  intros Heq. unfold EnqueueTensor.
  rewrite (check_sizes_passes _ _ sizes_agree), bind_Returned.
  rewrite (PartitionTensor_run g fuel
             (parent_entry context input output ready_event name
                device priority version callback [])
             size 0 eq_refl (size_read _) bound_pos size_range enough_fuel).
  rewrite bind_Returned. cbn [events outcome fst snd].
  rewrite (size_of_partitions _ _ _ bound_pos (proj1 size_range)).
  unfold BPS_CHECK_EQ. apply Z.eqb_eq in Heq. rewrite Heq.
  reflexivity.
Qed.

(** The key count matches, the itinerary starts with [q0]: every partition
    goes to [q0] with its key, then the summed lengths are asserted. *)
Lemma EnqueueTensor_run_enqueue (q0 : QueueType) (rest : list QueueType) :
  size_of (BPSContext.key_list context)
    = ceil_div size (GetPartitionBound g) ->
  EnqueueTensor g fuel context input output ready_event name
    device priority version callback (q0 :: rest)
  = (events (check_sizes input output)
     ++ [EvCheck counter_ptr_not_null true;
         EvCheckEq partition_count (size_of (BPSContext.key_list context))
                   (ceil_div size (GetPartitionBound g))]
     ++ map add_task_event
          (keyed_tasks q0
             (partitions_of
                (parent_entry context input output ready_event name
                   device priority version callback (q0 :: rest))
                size (GetPartitionBound g))
             (BPSContext.key_list context))
     ++ [EvCheckEq accumulated_size
           (sum_len (partitions_of
                       (parent_entry context input output ready_event name
                          device priority version callback (q0 :: rest))
                       size (GetPartitionBound g)))
           size],
     Returned OK).
Proof.
  intros Heq. unfold EnqueueTensor.
  rewrite (check_sizes_passes _ _ sizes_agree), bind_Returned.
  rewrite (PartitionTensor_run g fuel
             (parent_entry context input output ready_event name
                device priority version callback (q0 :: rest))
             size 0 eq_refl (size_read _) bound_pos size_range enough_fuel).
  rewrite bind_Returned. cbn [events outcome fst snd].
  set (e := parent_entry context input output ready_event name
              device priority version callback (q0 :: rest)).
  pose proof (size_of_partitions e _ _ bound_pos (proj1 size_range)) as Hn.
  rewrite Hn. unfold BPS_CHECK_EQ at 1.
  pose proof Heq as Heqb. apply Z.eqb_eq in Heqb. rewrite Heqb.
  rewrite bind_Returned.
  replace (TensorTableEntry.queue_list e) with (q0 :: rest) by reflexivity.
  rewrite size_of_cons_neqb.
  pose proof (sum_len_partitions e size (GetPartitionBound g) bound_pos
                size_range) as Hsum.
  fold (partitions_of e size (GetPartitionBound g)) in Hsum.
  pose proof (EnqueueTensor_loop_run context e q0 rest eq_refl
                (partitions_of e size (GetPartitionBound g)) 0 0) as Hloop.
  cbn [Z.of_nat] in Hloop. rewrite Hloop; clear Hloop.
  - pose proof (size_read (q0 :: rest)) as Hsz. fold e in Hsz.
    rewrite bind_Returned. cbn [events outcome fst snd]. rewrite Hsz. unfold ret.
    rewrite bind_Returned. unfold BPS_CHECK_EQ.
    cbn [events outcome fst snd skipn Z.add].
    rewrite Hsum, Z.eqb_refl. rewrite bind_Returned.
    cbn [events outcome fst snd app]. rewrite Heqb, bind_Returned.
    reflexivity.
  - unfold size_of in Heq, Hn. lia.
  - apply (partitions_len_nonneg e size (GetPartitionBound g) bound_pos
             size_range 0). lia.
  - lia.
  - rewrite Hsum. unfold UINT_MAX, INT_MAX in *. lia.
Qed.

End Enqueue.

(** ** The init protocol *)

Lemma round_up_exact (size bound : Z) :
  init_in_range size bound ->
  round_up size bound = ret (ceil_div size bound).
Proof.
  intros [Hb [Hs [Hu Hi]]]. unfold round_up.
  destruct (Z.eqb_spec bound 0) as [H0 | H0]; [lia |].
  rewrite to_size_t_id by lia. rewrite to_uint_id by lia. reflexivity.
Qed.

Section InitLoop.

Variable g : BytePSGlobal.
Variable key_list : list Z.
Variables size bound dtype data : Z.
Hypothesis in_range : init_in_range size bound.
Hypothesis key_count : List.length key_list = num_partitions size bound.

Lemma InitTensor_loop_run (fuel k : nat) :
  (k <= num_partitions size bound)%nat ->
  (num_partitions size bound - k < fuel)%nat ->
  InitTensor_loop g fuel key_list size bound dtype data
    (Z.min (Z.of_nat k * bound) size) (Z.of_nat k)
  = (List.concat (map (init_step_events g key_list size bound dtype data)
                      (seq k (num_partitions size bound - k))),
     Returned (size, Z.of_nat (num_partitions size bound))).
Proof.
  destruct in_range as [Hb [Hs [Hu Hi]]].
  revert k. induction fuel as [| fuel IH]; intros k Hk Hfuel; [lia |].
  pose proof (ceil_div_nat_lt size bound k Hb Hs) as Hlt.
  pose proof (ceil_div_le size bound Hb Hs) as Hle.
  pose proof (ceil_div_nonneg size bound Hb Hs) as Hnn.
  assert (Hn : Z.of_nat (num_partitions size bound) <= size)
    by (unfold num_partitions; lia).
  cbn [InitTensor_loop].
  destruct (Z.ltb_spec (Z.min (Z.of_nat k * bound) size) size) as [Hin | Hout].
  - assert (Hk' : (k < num_partitions size bound)%nat) by (apply Hlt; lia).
    replace (Z.min (Z.of_nat k * bound) size) with (Z.of_nat k * bound) by lia.
    rewrite vector_at_nat.
    destruct (nth_error key_list k) as [key |] eqn:Hkey.
    2:{ apply nth_error_None in Hkey. lia. }
    unfold ret. rewrite bind_Returned. cbn [events outcome fst snd app].
    assert (Hlen : (if size - Z.of_nat k * bound >? bound then bound
                    else size - Z.of_nat k * bound)
                   = Z.min bound (size - Z.of_nat k * bound))
      by (destruct (Z.gtb_spec (size - Z.of_nat k * bound) bound); lia).
    rewrite Hlen.
    assert (Hint : - 2147483648 <= Z.min bound (size - Z.of_nat k * bound)
                   <= INT_MAX) by (unfold INT_MAX in *; lia).
    rewrite (to_int_id _ Hint).
    assert (Hacc : 0 <= Z.of_nat k * bound
                        + Z.min bound (size - Z.of_nat k * bound) <= UINT_MAX)
      by (unfold UINT_MAX in *; lia).
    rewrite (to_size_t_id _ Hacc).
    assert (Hi' : 0 <= Z.of_nat k + 1 <= UINT_MAX)
      by (unfold UINT_MAX in *; lia).
    rewrite (to_size_t_id _ Hi').
    replace (Z.of_nat k * bound + Z.min bound (size - Z.of_nat k * bound))
      with (Z.min (Z.of_nat (S k) * bound) size) by lia.
    replace (Z.of_nat k + 1) with (Z.of_nat (S k)) by lia.
    rewrite IH by lia.
    replace (num_partitions size bound - k)%nat
      with (S (num_partitions size bound - S k)) by lia.
    cbn [seq map List.concat].
    assert (Hstep :
      init_step_events g key_list size bound dtype data k
      = if IsDistributed g && IsRootDevice g then
          (if GetWorkerID g =? 0 then
             [EvZPushWait key (data + Z.of_nat k * bound)
                (Z.min bound (size - Z.of_nat k * bound))
                (GetCommandType kDefaultPushPull dtype)]
           else [])
          ++ [EvBarrier 0 kWorkerGroup]
        else []).
    { unfold init_step_events. rewrite (nth_error_nth _ _ 0 Hkey).
      reflexivity. }
    rewrite Hstep.
    destruct (IsDistributed g && IsRootDevice g);
      destruct (GetWorkerID g =? 0); reflexivity.
  - assert (Hk' : k = num_partitions size bound) by lia.
    subst k. rewrite Nat.sub_diag. cbn [seq map List.concat]. unfold ret.
    replace (Z.min (Z.of_nat (num_partitions size bound) * bound) size)
      with size by lia.
    reflexivity.
Qed.

End InitLoop.

Lemma init_steps_pushes (g : BytePSGlobal) (key_list : list Z)
    (size bound dtype data : Z) (k n : nat) :
  pushes (List.concat (map (init_step_events g key_list size bound dtype data)
                           (seq k n)))
  = if IsDistributed g && IsRootDevice g && (GetWorkerID g =? 0) then
      map (fun i => (nth i key_list 0, data + Z.of_nat i * bound,
                     Z.min bound (size - Z.of_nat i * bound),
                     GetCommandType kDefaultPushPull dtype))
          (seq k n)
    else [].
Proof.
  revert k. induction n as [| n IH]; intros k.
  - cbn. destruct (_ && _ && _); reflexivity.
  - cbn [seq map List.concat]. rewrite pushes_app, IH.
    unfold init_step_events.
    destruct (IsDistributed g && IsRootDevice g);
      destruct (GetWorkerID g =? 0); reflexivity.
Qed.

Lemma init_steps_barriers (g : BytePSGlobal) (key_list : list Z)
    (size bound dtype data : Z) (k n : nat) :
  barriers (List.concat (map (init_step_events g key_list size bound dtype data)
                             (seq k n)))
  = if IsDistributed g && IsRootDevice g then n else O.
Proof.
  revert k. induction n as [| n IH]; intros k.
  - cbn. destruct (_ && _); reflexivity.
  - cbn [seq map List.concat]. rewrite barriers_app, IH.
    unfold init_step_events.
    destruct (IsDistributed g && IsRootDevice g);
      destruct (GetWorkerID g =? 0); reflexivity.
Qed.

Section Init.

Variable g : BytePSGlobal.
Variable fuel : nat.
Variable context : BPSContext.t.
Variable name : string.
Variables dtype cpubuff : Z.

(** The allocator hands back at least one region per call. *)
Hypothesis pcie_regions : forall k s, openPcieSharedMemory k s <> [].

Lemma vector_back_returns {A : Type} (v : list A) :
  v <> [] -> exists x, vector_back v = ret x.
Proof.
  intros Hv. unfold vector_back. destruct (rev v) as [| x l] eqn:Hr.
  - apply (f_equal (@rev A)) in Hr. rewrite rev_involutive in Hr.
    contradiction.
  - exists x. reflexivity.
Qed.

(** With a key to index it, the buffer step returns; it touches neither the
    parameter server nor the keys, the length or the flag. *)
Lemma InitTensor_cpubuff_returns :
  BPSContext.key_list context <> [] ->
  exists tr ctx,
    InitTensor_cpubuff g context cpubuff = (tr, Returned ctx)
    /\ BPSContext.key_list ctx = BPSContext.key_list context
    /\ BPSContext.buff_len ctx = BPSContext.buff_len context
    /\ BPSContext.initialized ctx = BPSContext.initialized context
    /\ pushes tr = [] /\ barriers tr = O.
Proof.
  intros Hkeys. unfold InitTensor_cpubuff.
  destruct (negb (cpubuff =? 0)).
  - eexists _, _. split; [reflexivity |]. cbn. auto.
  - destruct (BPSContext.key_list context) as [| k0 keys] eqn:Hk;
      [contradiction |].
    unfold vector_at. cbn [Z.ltb Z.compare Z.to_nat nth_error].
    unfold ret. rewrite bind_Returned.
    destruct (IsCrossPcieSwitch g).
    + destruct (vector_back_returns
                  (openPcieSharedMemory k0 (BPSContext.buff_len context))
                  (pcie_regions _ _)) as [x Hx].
      unfold emit. rewrite bind_Returned, Hx. unfold ret.
      rewrite bind_Returned.
      eexists _, _. split; [reflexivity |]. cbn. auto.
    + unfold emit. rewrite bind_Returned.
      eexists _, _. split; [reflexivity |]. cbn. auto.
Qed.

Lemma InitTensor_run_no_key :
  (size_of (BPSContext.key_list context) >? 0) = false ->
  InitTensor g fuel context name dtype cpubuff
  = ([EvCheckGt key_list_not_empty (size_of (BPSContext.key_list context)) 0],
     InvariantViolation key_list_not_empty).
Proof.
  intros H. unfold InitTensor, BPS_CHECK_GT. rewrite H. reflexivity.
Qed.

Hypothesis in_range :
  init_in_range (BPSContext.buff_len context) (GetPartitionBound g).
Hypothesis has_key : (size_of (BPSContext.key_list context) >? 0) = true.

Lemma InitTensor_run_mismatch :
  size_of (BPSContext.key_list context)
    <> ceil_div (BPSContext.buff_len context) (GetPartitionBound g) ->
  InitTensor g fuel context name dtype cpubuff
  = ([EvCheckGt key_list_not_empty (size_of (BPSContext.key_list context)) 0;
      EvCheckEq key_list_size (size_of (BPSContext.key_list context))
        (ceil_div (BPSContext.buff_len context) (GetPartitionBound g))],
     InvariantViolation key_list_size).
Proof.
  intros Hne. unfold InitTensor, BPS_CHECK_GT. rewrite has_key.
  rewrite bind_Returned, (round_up_exact _ _ in_range). unfold ret.
  rewrite bind_Returned. unfold BPS_CHECK_EQ.
  apply Z.eqb_neq in Hne. rewrite Hne. reflexivity.
Qed.

Lemma InitTensor_run (tr : list Event) (ctx : BPSContext.t) :
  size_of (BPSContext.key_list context)
    = ceil_div (BPSContext.buff_len context) (GetPartitionBound g) ->
  (num_partitions (BPSContext.buff_len context) (GetPartitionBound g)
   < fuel)%nat ->
  InitTensor_cpubuff g context cpubuff = (tr, Returned ctx) ->
  InitTensor g fuel context name dtype cpubuff
  = ([EvCheckGt key_list_not_empty (size_of (BPSContext.key_list context)) 0;
      EvCheckEq key_list_size (size_of (BPSContext.key_list context))
        (ceil_div (BPSContext.buff_len context) (GetPartitionBound g))]
     ++ tr
     ++ init_loop_events g (BPSContext.key_list context)
          (BPSContext.buff_len context) (GetPartitionBound g) dtype
          (BPSContext.cpubuff ctx)
     ++ [EvCheckEq init_accumulated (BPSContext.buff_len context)
           (BPSContext.buff_len context);
         EvCheckEq init_count (size_of (BPSContext.key_list context))
           (size_of (BPSContext.key_list context))],
     Returned (set_initialized ctx true)).
Proof.
  intros Heq Hfuel Hbuf. unfold InitTensor, BPS_CHECK_GT. rewrite has_key.
  rewrite bind_Returned, (round_up_exact _ _ in_range). unfold ret.
  rewrite bind_Returned. unfold BPS_CHECK_EQ.
  pose proof Heq as Heqb. apply Z.eqb_eq in Heqb. rewrite Heqb.
  rewrite bind_Returned, Hbuf, bind_Returned.
  destruct in_range as [Hb [Hs [Hu Hi]]].
  pose proof (ceil_div_nonneg _ _ Hb Hs) as Hnn.
  assert (Hcount : List.length (BPSContext.key_list context)
                   = num_partitions (BPSContext.buff_len context)
                                    (GetPartitionBound g))
    by (unfold size_of, num_partitions in *; lia).
  pose proof (InitTensor_loop_run g (BPSContext.key_list context)
                (BPSContext.buff_len context) (GetPartitionBound g) dtype
                (BPSContext.cpubuff ctx) in_range Hcount fuel 0) as Hloop.
  replace (Z.min (Z.of_nat 0 * GetPartitionBound g)
                 (BPSContext.buff_len context)) with 0 in Hloop by lia.
  rewrite Nat.sub_0_r in Hloop. cbn [Z.of_nat] in Hloop.
  rewrite Hloop by lia. rewrite bind_Returned.
  cbn [events outcome fst snd]. unfold BPS_CHECK_EQ.
  rewrite Z.eqb_refl, bind_Returned.
  replace (Z.of_nat (num_partitions (BPSContext.buff_len context)
                       (GetPartitionBound g)))
    with (size_of (BPSContext.key_list context))
    by (unfold size_of; lia).
  rewrite Z.eqb_refl, bind_Returned.
  cbn [ret events outcome fst snd app].
  unfold init_loop_events. rewrite <- ?app_assoc. reflexivity.
Qed.

End Init.

(** * The properties of the design document *)

(** ** Itineraries *)

Lemma device_neqb (device : Z) :
  device <> CPU_DEVICE_ID -> negb (device =? CPU_DEVICE_ID) = true.
Proof.
  intros H. apply negb_true_iff, Z.eqb_neq, H.
Qed.

(** C1. On a device other than the CPU, whatever the four role flags, the
    push itinerary built by [GetPushQueueList] is the ordered list of the
    design document's push table. *)
Theorem GetPushQueueList_table :
  forall (device : Z) (is_distributed is_root_device is_cross_pcie_switch
          nccl_is_signal_root : bool) (bound worker : Z),
    device <> CPU_DEVICE_ID ->
    GetPushQueueList
      (mkGlobal is_distributed is_root_device is_cross_pcie_switch
                nccl_is_signal_root bound worker) device
    = Table.push_itinerary is_distributed is_root_device is_cross_pcie_switch
                           nccl_is_signal_root.
Proof.
  intros device d r x s bound worker Hdev.
  unfold GetPushQueueList. rewrite (device_neqb _ Hdev). cbn [IsDistributed
    IsRootDevice IsCrossPcieSwitch IsSignalRoot].
  destruct d, r, x, s; reflexivity.
Qed.

(** C2. On a device other than the CPU, whatever the four role flags, the
    pull itinerary built by [GetPullQueueList] is the ordered list of the
    design document's pull table. *)
Theorem GetPullQueueList_table :
  forall (device : Z) (is_distributed is_root_device is_cross_pcie_switch
          nccl_is_signal_root : bool) (bound worker : Z),
    device <> CPU_DEVICE_ID ->
    GetPullQueueList
      (mkGlobal is_distributed is_root_device is_cross_pcie_switch
                nccl_is_signal_root bound worker) device
    = Table.pull_itinerary is_distributed is_root_device is_cross_pcie_switch
                           nccl_is_signal_root.
Proof.
  intros device d r x s bound worker Hdev.
  unfold GetPullQueueList. rewrite (device_neqb _ Hdev). cbn [IsDistributed
    IsRootDevice IsCrossPcieSwitch IsSignalRoot].
  destruct d, r, x, s; reflexivity.
Qed.

(** The sixteen rows of each table, flags in the order distributed, root
    device, cross-PCIe-switch, signal root. *)
Example push_itinerary_rows :
  map (fun f : bool * bool * bool * bool =>
         let '(d, r, x, s) := f in Table.push_itinerary d r x s)
      [(false, false, false, false); (false, false, false, true);
       (false, false, true, false); (false, false, true, true);
       (false, true, false, false); (false, true, false, true);
       (false, true, true, false); (false, true, true, true);
       (true, false, false, false); (true, false, false, true);
       (true, false, true, false); (true, false, true, true);
       (true, true, false, false); (true, true, false, true);
       (true, true, true, false); (true, true, true, true)]
  = [[COORDINATE_REDUCE; REDUCE];
     [REDUCE];
     [COORDINATE_REDUCE; REDUCE; COPYD2H; PCIE_REDUCE];
     [REDUCE; COPYD2H; PCIE_REDUCE];
     [COORDINATE_REDUCE; REDUCE];
     [REDUCE];
     [COORDINATE_REDUCE; REDUCE; COPYD2H; PCIE_REDUCE];
     [REDUCE; COPYD2H; PCIE_REDUCE];
     [COORDINATE_REDUCE; REDUCE; COPYD2H; COORDINATE_PUSH];
     [REDUCE; COPYD2H; COORDINATE_PUSH];
     [COORDINATE_REDUCE; REDUCE; COPYD2H; PCIE_REDUCE; COORDINATE_PUSH];
     [REDUCE; COPYD2H; PCIE_REDUCE; COORDINATE_PUSH];
     [COORDINATE_REDUCE; REDUCE; COPYD2H; PUSH];
     [REDUCE; COPYD2H; PUSH];
     [COORDINATE_REDUCE; REDUCE; COPYD2H; PCIE_REDUCE; PUSH];
     [REDUCE; COPYD2H; PCIE_REDUCE; PUSH]].
Proof. reflexivity. Qed.

Example pull_itinerary_rows :
  map (fun f : bool * bool * bool * bool =>
         let '(d, r, x, s) := f in Table.pull_itinerary d r x s)
      [(false, false, false, false); (false, false, false, true);
       (false, false, true, false); (false, false, true, true);
       (false, true, false, false); (false, true, false, true);
       (false, true, true, false); (false, true, true, true);
       (true, false, false, false); (true, false, false, true);
       (true, false, true, false); (true, false, true, true);
       (true, true, false, false); (true, true, false, true);
       (true, true, true, false); (true, true, true, true)]
  = [[COORDINATE_BROADCAST; BROADCAST];
     [BROADCAST];
     [COPYH2D; COORDINATE_BROADCAST; BROADCAST];
     [COPYH2D; BROADCAST];
     [COORDINATE_BROADCAST; BROADCAST];
     [BROADCAST];
     [COPYH2D; COORDINATE_BROADCAST; BROADCAST];
     [COPYH2D; BROADCAST];
     [COPYH2D; COORDINATE_BROADCAST; BROADCAST];
     [COPYH2D; BROADCAST];
     [COPYH2D; COORDINATE_BROADCAST; BROADCAST];
     [COPYH2D; BROADCAST];
     [PULL; COPYH2D; COORDINATE_BROADCAST; BROADCAST];
     [PULL; COPYH2D; BROADCAST];
     [PULL; COPYH2D; COORDINATE_BROADCAST; BROADCAST];
     [PULL; COPYH2D; BROADCAST]].
Proof. reflexivity. Qed.

(** The four worked scenarios of the design document. *)
Example itinerary_scenarios (device : Z) :
  device <> CPU_DEVICE_ID ->
  GetPushQueueList (mkGlobal false false false true 4194304 0) device = [REDUCE]
  /\ GetPushQueueList (mkGlobal true true false true 4194304 0) device
     = [REDUCE; COPYD2H; PUSH]
  /\ GetPullQueueList (mkGlobal true true false true 4194304 0) device
     = [PULL; COPYH2D; BROADCAST]
  /\ GetPushQueueList (mkGlobal true false false true 4194304 0) device
     = [REDUCE; COPYD2H; COORDINATE_PUSH]
  /\ GetPullQueueList (mkGlobal true false false true 4194304 0) device
     = [COPYH2D; BROADCAST]
  /\ GetPushQueueList (mkGlobal false false true false 4194304 0) device
     = [COORDINATE_REDUCE; REDUCE; COPYD2H; PCIE_REDUCE]
  /\ GetPullQueueList (mkGlobal false false true false 4194304 0) device
     = [COPYH2D; COORDINATE_BROADCAST; BROADCAST].
Proof.
  intros Hdev. unfold GetPushQueueList, GetPullQueueList.
  rewrite (device_neqb _ Hdev). cbn. repeat split.
Qed.

Lemma GetPushQueueList_cpu (g : BytePSGlobal) :
  GetPushQueueList g CPU_DEVICE_ID = [].
Proof.
  unfold GetPushQueueList. rewrite Z.eqb_refl. reflexivity.
Qed.

Lemma GetPullQueueList_cpu (g : BytePSGlobal) :
  GetPullQueueList g CPU_DEVICE_ID = [].
Proof.
  unfold GetPullQueueList. rewrite Z.eqb_refl. reflexivity.
Qed.

Lemma GetPushQueueList_shape (g : BytePSGlobal) (device : Z) :
  device <> CPU_DEVICE_ID ->
  exists q0 rest,
    GetPushQueueList g device = q0 :: rest /\ In REDUCE (q0 :: rest).
Proof.
  intros Hdev. unfold GetPushQueueList. rewrite (device_neqb _ Hdev).
  destruct (IsSignalRoot g), (IsDistributed g), (IsCrossPcieSwitch g),
    (IsRootDevice g); cbn; eexists _, _; (split; [reflexivity |]);
    cbn; auto.
Qed.

Lemma GetPullQueueList_shape (g : BytePSGlobal) (device : Z) :
  device <> CPU_DEVICE_ID ->
  exists q0 rest front,
    GetPullQueueList g device = q0 :: rest
    /\ GetPullQueueList g device = front ++ [BROADCAST].
Proof.
  intros Hdev. unfold GetPullQueueList. rewrite (device_neqb _ Hdev).
  destruct (IsSignalRoot g), (IsDistributed g), (IsCrossPcieSwitch g),
    (IsRootDevice g); cbn; unfold push_back; cbn;
    eexists _, _, _; (split; [reflexivity |]);
    match goal with
    | |- ?l = _ ++ [BROADCAST] =>
        match l with
        | [?a] => exact (eq_refl : l = [] ++ [BROADCAST])
        | [?a; ?b] => exact (eq_refl : l = [a] ++ [BROADCAST])
        | [?a; ?b; ?c] => exact (eq_refl : l = [a; b] ++ [BROADCAST])
        | [?a; ?b; ?c; ?d] => exact (eq_refl : l = [a; b; c] ++ [BROADCAST])
        end
    end.
Qed.

(** C10. On a device other than the CPU, whatever the role flags, the push
    itinerary is not empty and contains [REDUCE], the pull itinerary is not
    empty and ends with [BROADCAST]; so an [EnqueueTensor] fed by either
    builder for such a device never takes the empty-itinerary short cut: it
    does not invoke the callback itself. *)
Theorem itineraries_not_empty :
  forall (g : BytePSGlobal) (device : Z),
    device <> CPU_DEVICE_ID ->
    GetPushQueueList g device <> []
    /\ In REDUCE (GetPushQueueList g device)
    /\ GetPullQueueList g device <> []
    /\ last (GetPullQueueList g device) COORDINATE_REDUCE = BROADCAST
    /\ (forall (fuel : nat) (context : BPSContext.t)
               (input output : option Tensor) (ready_event : option Z)
               (name : string) (priority version callback : Z),
          callbacks
            (events (EnqueueTensor g fuel context input output ready_event
                       name device priority version callback
                       (GetPushQueueList g device))) = []
          /\ callbacks
               (events (EnqueueTensor g fuel context input output ready_event
                          name device priority version callback
                          (GetPullQueueList g device))) = []).
Proof.
  intros g device Hdev.
  destruct (GetPushQueueList_shape g device Hdev) as [q0 [rest [Hpush Hin]]].
  destruct (GetPullQueueList_shape g device Hdev)
    as [q1 [rest1 [front [Hpull Hlast]]]].
  split; [rewrite Hpush; discriminate |].
  split; [rewrite Hpush; exact Hin |].
  split; [rewrite Hpull; discriminate |].
  split; [rewrite Hlast; apply last_last |].
  intros fuel context input output ready_event name priority version callback.
  rewrite Hpush, Hpull. split; apply EnqueueTensor_cons_callbacks.
Qed.

(** ** Partitioning and enqueue *)

Lemma checks_at_app (site : CheckSite) (tr1 tr2 : list Event) :
  checks_at site (tr1 ++ tr2) = checks_at site tr1 ++ checks_at site tr2.
Proof.
  apply filter_app.
Qed.

Lemma partitions_of_nth (entry : TensorTableEntry.t) (size bound : Z)
    (i : nat) (p : TensorTableEntry.t) :
  nth_error (partitions_of entry size bound) i = Some p ->
  p = nth_partition entry size bound i.
Proof.
  unfold partitions_of. intros H.
  assert (Hi : (i < num_partitions size bound)%nat).
  { assert (Hn : nth_error (map (nth_partition entry size bound)
                              (seq 0 (num_partitions size bound))) i <> None)
      by (rewrite H; discriminate).
    apply nth_error_Some in Hn. now rewrite length_map, length_seq in Hn. }
  rewrite nth_error_map, nth_error_seq in H.
  destruct (Nat.ltb_spec i (num_partitions size bound)); [| lia].
  cbn in H. now injection H as <-.
Qed.

(** Scenario 1 of the design document: 10 MiB under a bound of 4 MiB. *)
Example partition_scenario :
  forall ps,
    outcome (PartitionTensor (mkGlobal false false false true 4194304 0) 4
               (parent_entry example_context
                  (Some (mkTensor 65536 10485760)) None None "w"
                  0 0 0 77 [REDUCE]) []) = Returned ps ->
    map TensorTableEntry.offset ps = [0; 4194304; 8388608]
    /\ map TensorTableEntry.len ps = [4194304; 4194304; 2097152]
    /\ map TensorTableEntry.tensor_name ps
       = ["w_0"%string; "w_1"%string; "w_2"%string].
Proof.
  intros ps H. vm_compute in H. injection H as <-. repeat split.
Qed.

(** A bound of 0 never advances: the loop of [PartitionTensor] does not
    stop, whatever the fuel. *)
Remark PartitionTensor_loop_bound_zero (fuel : nat)
    (entry : TensorTableEntry.t) (size : Z) :
  0 < size ->
  forall (i : Z) (ps : list TensorTableEntry.t),
    PartitionTensor_loop fuel entry size 0 0 i ps = out_of_fuel.
Proof.
  intros Hsize. induction fuel as [| fuel IH]; intros i ps; [reflexivity |].
  cbn [PartitionTensor_loop]. destruct (Z.ltb_spec 0 size) as [_ | H]; [| lia].
  cbn [new_partition TensorTableEntry.len].
  destruct (Z.gtb_spec (size - 0) 0) as [_ | H]; [| lia].
  apply IH.
Qed.

(** X18. A parent task of positive byte size [S] (within the range of the
    [int] accumulator) under a positive bound [B] is cut by
    [PartitionTensor] into exactly [⌈S/B⌉] children; child [i] has
    [offset = i·B] and [len = min(B, S − i·B)], and the lengths sum to [S].
    [EnqueueTensor] asserts that this count equals [|context.key_list|]
    and, once the partitions are enqueued, that the summed lengths equal the
    size of the parent tensor. *)
Theorem partition_conservation :
  (forall (g : BytePSGlobal) (fuel : nat) (entry : TensorTableEntry.t)
          (S c : Z),
      TensorTableEntry.counter_ptr entry = Some c ->
      entry_size entry = ret S ->
      0 < S -> S <= INT_MAX ->
      0 < GetPartitionBound g ->
      (num_partitions S (GetPartitionBound g) < fuel)%nat ->
      exists ps,
        PartitionTensor g fuel entry []
        = ([EvCheck counter_ptr_not_null true], Returned ps)
        /\ size_of ps = ceil_div S (GetPartitionBound g)
        /\ (forall i p,
              nth_error ps i = Some p ->
              TensorTableEntry.offset p = Z.of_nat i * GetPartitionBound g
              /\ TensorTableEntry.len p
                 = Z.min (GetPartitionBound g)
                         (S - Z.of_nat i * GetPartitionBound g))
        /\ sum_len ps = S)
  /\ (forall (g : BytePSGlobal) (fuel : nat) (context : BPSContext.t)
             (input output : option Tensor) (ready_event : option Z)
             (name : string) (device priority version callback : Z)
             (queue_list : list QueueType) (S : Z),
        outcome (check_sizes input output) = Returned tt ->
        entry_size (parent_entry context input output ready_event name
                      device priority version callback queue_list) = ret S ->
        0 < S -> S <= INT_MAX ->
        0 < GetPartitionBound g ->
        (num_partitions S (GetPartitionBound g) < fuel)%nat ->
        checks_at partition_count
          (events (EnqueueTensor g fuel context input output ready_event name
                     device priority version callback queue_list))
        = [EvCheckEq partition_count (size_of (BPSContext.key_list context))
             (ceil_div S (GetPartitionBound g))]
        /\ (size_of (BPSContext.key_list context)
              <> ceil_div S (GetPartitionBound g) ->
            outcome (EnqueueTensor g fuel context input output ready_event
                       name device priority version callback queue_list)
            = InvariantViolation partition_count)
        /\ (size_of (BPSContext.key_list context)
              = ceil_div S (GetPartitionBound g) ->
            queue_list <> [] ->
            checks_at accumulated_size
              (events (EnqueueTensor g fuel context input output ready_event
                         name device priority version callback queue_list))
            = [EvCheckEq accumulated_size
                 (sum_len
                    (partitions_of
                       (parent_entry context input output ready_event name
                          device priority version callback queue_list)
                       S (GetPartitionBound g)))
                 S]
            /\ outcome (EnqueueTensor g fuel context input output ready_event
                          name device priority version callback queue_list)
               = Returned OK)).
Proof.
  split.
  - intros g fuel entry S c Hc Hsize Hpos Hmax Hb Hfuel.
    assert (Hs : 0 <= S <= INT_MAX) by lia.
    exists (partitions_of entry S (GetPartitionBound g)).
    split; [exact (PartitionTensor_run g fuel entry S c Hc Hsize Hb Hs Hfuel) |].
    split; [apply size_of_partitions; lia |].
    split; [| exact (sum_len_partitions entry S _ Hb Hs)].
    intros i p Hp. apply partitions_of_nth in Hp. subst p.
    split; [apply nth_partition_offset | apply nth_partition_len].
  - intros g fuel context input output ready_event name device priority
           version callback queue_list S Hsizes Hsize Hpos Hmax Hb Hfuel.
    assert (Hs : 0 <= S <= INT_MAX) by lia.
    assert (Hread : forall ql,
              entry_size (parent_entry context input output ready_event name
                            device priority version callback ql) = ret S)
      by (intros ql; exact Hsize).
    destruct (check_sizes_events input output) as [_ [_ [Hc1 Hc2]]].
    destruct (Z.eq_dec (size_of (BPSContext.key_list context))
                       (ceil_div S (GetPartitionBound g))) as [Heq | Hne].
    + destruct queue_list as [| q0 rest].
      * rewrite (EnqueueTensor_run_empty g fuel context input output
                   ready_event name device priority version callback S
                   Hsizes Hread Hb Hs Hfuel Heq).
        cbn [events outcome fst snd]. rewrite checks_at_app, Hc1.
        repeat split; try reflexivity; try contradiction.
      * rewrite (EnqueueTensor_run_enqueue g fuel context input output
                   ready_event name device priority version callback S
                   Hsizes Hread Hb Hs Hfuel q0 rest Heq).
        cbn [events outcome fst snd].
        rewrite !checks_at_app, Hc1, Hc2, !checks_at_add_task_events.
        repeat split; try reflexivity; try contradiction.
    + rewrite (EnqueueTensor_run_mismatch g fuel context input output
                 ready_event name device priority version callback S
                 Hsizes Hread Hb Hs Hfuel queue_list Hne).
      cbn [events outcome fst snd]. rewrite checks_at_app, Hc1.
      repeat split; try reflexivity; try contradiction.
Qed.

(** C7. When both tensors are given and their byte sizes differ,
    [EnqueueTensor] ends at its first assertion: nothing has been
    partitioned, no task reaches a queue and the callback is not invoked. *)
Theorem EnqueueTensor_size_mismatch :
  forall (g : BytePSGlobal) (fuel : nat) (context : BPSContext.t)
         (input output : Tensor) (ready_event : option Z) (name : string)
         (device priority version callback : Z)
         (queue_list : list QueueType),
    Tensor_size input <> Tensor_size output ->
    EnqueueTensor g fuel context (Some input) (Some output) ready_event name
      device priority version callback queue_list
    = ([EvCheckEq input_output_size (Tensor_size input) (Tensor_size output)],
       InvariantViolation input_output_size)
    /\ added_tasks
         (events (EnqueueTensor g fuel context (Some input) (Some output)
                    ready_event name device priority version callback
                    queue_list)) = []
    /\ callbacks
         (events (EnqueueTensor g fuel context (Some input) (Some output)
                    ready_event name device priority version callback
                    queue_list)) = [].
Proof.
  intros g fuel context input output ready_event name device priority
         version callback queue_list Hne.
  assert (Hrun :
    EnqueueTensor g fuel context (Some input) (Some output) ready_event name
      device priority version callback queue_list
    = ([EvCheckEq input_output_size (Tensor_size input) (Tensor_size output)],
       InvariantViolation input_output_size)).
  { unfold EnqueueTensor, check_sizes, BPS_CHECK_EQ.
    apply Z.eqb_neq in Hne. rewrite Hne. reflexivity. }
  rewrite Hrun. repeat split.
Qed.

(** X19. For the CPU device both builders return the empty itinerary, and
    an [EnqueueTensor] given that itinerary hands no task to any queue; when
    the call passes the assertions that precede the test of the itinerary
    (matching input and output sizes, as many keys as partitions) and the
    tensor has at most [INT_MAX] bytes under a positive bound, it invokes
    the callback with [OK] itself, as its last action, and returns [OK]. *)
Theorem cpu_short_circuit :
  forall (g : BytePSGlobal),
    GetPushQueueList g CPU_DEVICE_ID = []
    /\ GetPullQueueList g CPU_DEVICE_ID = []
    /\ (forall (fuel : nat) (context : BPSContext.t)
               (input output : option Tensor) (ready_event : option Z)
               (name : string) (priority version callback : Z)
               (queue_list : list QueueType),
          queue_list = GetPushQueueList g CPU_DEVICE_ID
          \/ queue_list = GetPullQueueList g CPU_DEVICE_ID ->
          added_tasks
            (events (EnqueueTensor g fuel context input output ready_event
                       name CPU_DEVICE_ID priority version callback
                       queue_list)) = [])
    /\ (forall (fuel : nat) (context : BPSContext.t)
               (input output : option Tensor) (ready_event : option Z)
               (name : string) (priority version callback : Z)
               (queue_list : list QueueType) (S : Z),
          queue_list = GetPushQueueList g CPU_DEVICE_ID
          \/ queue_list = GetPullQueueList g CPU_DEVICE_ID ->
          outcome (check_sizes input output) = Returned tt ->
          entry_size (parent_entry context input output ready_event name
                        CPU_DEVICE_ID priority version callback queue_list)
          = ret S ->
          0 <= S <= INT_MAX ->
          0 < GetPartitionBound g ->
          (num_partitions S (GetPartitionBound g) < fuel)%nat ->
          size_of (BPSContext.key_list context)
          = ceil_div S (GetPartitionBound g) ->
          outcome (EnqueueTensor g fuel context input output ready_event
                     name CPU_DEVICE_ID priority version callback queue_list)
          = Returned OK
          /\ callbacks
               (events (EnqueueTensor g fuel context input output ready_event
                          name CPU_DEVICE_ID priority version callback
                          queue_list))
             = [(callback, OK)]
          /\ exists tr,
               events (EnqueueTensor g fuel context input output ready_event
                         name CPU_DEVICE_ID priority version callback
                         queue_list)
               = tr ++ [EvCallback callback OK]).
Proof.
  intros g.
  split; [apply GetPushQueueList_cpu |].
  split; [apply GetPullQueueList_cpu |].
  split.
  - intros fuel context input output ready_event name priority version
           callback queue_list Hql.
    assert (queue_list = []) as ->
      by (destruct Hql as [-> | ->];
          [apply GetPushQueueList_cpu | apply GetPullQueueList_cpu]).
    apply EnqueueTensor_empty_added.
  - intros fuel context input output ready_event name priority version
           callback queue_list S Hql Hsizes Hsize Hs Hb Hfuel Heq.
    assert (queue_list = []) as ->
      by (destruct Hql as [-> | ->];
          [apply GetPushQueueList_cpu | apply GetPullQueueList_cpu]).
    assert (Hread : forall ql,
              entry_size (parent_entry context input output ready_event name
                            CPU_DEVICE_ID priority version callback ql)
              = ret S)
      by (intros ql; exact Hsize).
    rewrite (EnqueueTensor_run_empty g fuel context input output ready_event
               name CPU_DEVICE_ID priority version callback S
               Hsizes Hread Hb Hs Hfuel Heq).
    cbn [events outcome fst snd].
    destruct (check_sizes_events input output) as [_ [Hcb _]].
    split; [reflexivity |].
    split; [rewrite callbacks_app, Hcb; reflexivity |].
    eexists (_ ++ [_; _]). rewrite <- app_assoc. reflexivity.
Qed.


(** C6. [PartitionTensor] leaves the key of every child unassigned.  In an
    [EnqueueTensor] with a non-empty itinerary every task handed to a queue
    goes to the head stage and is, at position [i], partition [i] carrying
    [key = context.key_list[i]], the key being set before the task is
    handed over; a call that passes its assertions hands over all
    [|key_list|] partitions. *)
Theorem key_assignment :
  (forall (g : BytePSGlobal) (fuel : nat) (entry : TensorTableEntry.t)
          (ps : list TensorTableEntry.t),
      outcome (PartitionTensor g fuel entry []) = Returned ps ->
      Forall (fun p => TensorTableEntry.key p = None) ps)
  /\ (forall (g : BytePSGlobal) (fuel : nat) (context : BPSContext.t)
             (input output : option Tensor) (ready_event : option Z)
             (name : string) (device priority version callback : Z)
             (q0 : QueueType) (rest : list QueueType)
             (i : nat) (q : QueueType) (task : TensorTableEntry.t),
        nth_error
          (added_tasks
             (events (EnqueueTensor g fuel context input output ready_event
                        name device priority version callback (q0 :: rest))))
          i = Some (q, task) ->
        q = q0
        /\ exists ps p k,
             outcome (PartitionTensor g fuel
                        (parent_entry context input output ready_event name
                           device priority version callback (q0 :: rest)) [])
             = Returned ps
             /\ nth_error ps i = Some p
             /\ TensorTableEntry.key p = None
             /\ nth_error (BPSContext.key_list context) i = Some k
             /\ task = TensorTableEntry.set_key p k
             /\ TensorTableEntry.key task = Some k)
  /\ (forall (g : BytePSGlobal) (fuel : nat) (context : BPSContext.t)
             (input output : option Tensor) (ready_event : option Z)
             (name : string) (device priority version callback : Z)
             (q0 : QueueType) (rest : list QueueType) (S : Z),
        outcome (check_sizes input output) = Returned tt ->
        entry_size (parent_entry context input output ready_event name
                      device priority version callback (q0 :: rest))
        = ret S ->
        0 <= S <= INT_MAX ->
        0 < GetPartitionBound g ->
        (num_partitions S (GetPartitionBound g) < fuel)%nat ->
        size_of (BPSContext.key_list context)
        = ceil_div S (GetPartitionBound g) ->
        added_tasks
          (events (EnqueueTensor g fuel context input output ready_event
                     name device priority version callback (q0 :: rest)))
        = keyed_tasks q0
            (partitions_of
               (parent_entry context input output ready_event name
                  device priority version callback (q0 :: rest))
               S (GetPartitionBound g))
            (BPSContext.key_list context)
        /\ List.length
             (added_tasks
                (events (EnqueueTensor g fuel context input output
                           ready_event name device priority version callback
                           (q0 :: rest))))
           = List.length (BPSContext.key_list context)).
Proof.
  split; [exact PartitionTensor_keys |].
  split.
  - intros g fuel context input output ready_event name device priority
           version callback q0 rest i q task H.
    apply EnqueueTensor_added in H.
    destruct H as [ps [p [k [Hps [Hp [Hk [Ht Hhd]]]]]]].
    cbn in Hhd. injection Hhd as <-. split; [reflexivity |].
    exists ps, p, k.
    pose proof (PartitionTensor_keys _ _ _ _ Hps) as Hkeys.
    rewrite Forall_forall in Hkeys.
    repeat split; try assumption.
    + apply Hkeys. eapply nth_error_In. exact Hp.
    + subst task. reflexivity.
  - intros g fuel context input output ready_event name device priority
           version callback q0 rest S Hsizes Hsize Hs Hb Hfuel Heq.
    assert (Hread : forall ql,
              entry_size (parent_entry context input output ready_event name
                            device priority version callback ql) = ret S)
      by (intros ql; exact Hsize).
    rewrite (EnqueueTensor_run_enqueue g fuel context input output
               ready_event name device priority version callback S
               Hsizes Hread Hb Hs Hfuel q0 rest Heq).
    cbn [events outcome fst snd].
    destruct (check_sizes_events input output) as [Ha _].
    rewrite !added_tasks_app, Ha, added_tasks_add_task_events.
    cbn [added_tasks app]. rewrite app_nil_r.
    split; [reflexivity |].
    unfold keyed_tasks. rewrite length_map, length_combine.
    pose proof (size_of_partitions
                  (parent_entry context input output ready_event name
                     device priority version callback (q0 :: rest))
                  S (GetPartitionBound g) Hb (proj1 Hs)) as Hn.
    unfold size_of in Heq, Hn. lia.
Qed.

(** ** Init protocol *)

(** The buffer step builds the same record whatever the flag, up to the
    flag itself. *)
Lemma InitTensor_cpubuff_flag {B : Type} (g : BytePSGlobal)
    (context : BPSContext.t) (cpubuff : Z) (b : bool)
    (k : BPSContext.t -> M B) :
  (forall c, k (set_initialized c b) = k c) ->
  bind (InitTensor_cpubuff g (set_initialized context b) cpubuff) k
  = bind (InitTensor_cpubuff g context cpubuff) k.
Proof.
  intros Hk. unfold InitTensor_cpubuff.
  cbn [set_initialized BPSContext.key_list BPSContext.buff_len
       BPSContext.pcie_cpubuff BPSContext.initialized].
  destruct (negb (cpubuff =? 0)).
  - unfold ret. rewrite !bind_Returned.
    rewrite <- (Hk (BPSContext.mk (BPSContext.initialized context) _ _ _ _ _)).
    reflexivity.
  - destruct (vector_at (BPSContext.key_list context) 0)
      as [tr0 [k0 | site | |]]; try reflexivity.
    rewrite !bind_Returned.
    destruct (IsCrossPcieSwitch g).
    + unfold emit. rewrite !bind_Returned.
      destruct (vector_back _) as [tr1 [x | site | |]]; try reflexivity.
      rewrite !bind_Returned. unfold ret. cbn [events outcome fst snd].
      rewrite !bind_Returned.
      rewrite <- (Hk (BPSContext.mk (BPSContext.initialized context) _ _ _ _ _)).
      reflexivity.
    + unfold emit, ret. rewrite !bind_Returned. cbn [events outcome fst snd].
      rewrite !bind_Returned.
      rewrite <- (Hk (BPSContext.mk (BPSContext.initialized context) _ _ _ _ _)).
      reflexivity.
Qed.

Lemma InitTensor_flag (g : BytePSGlobal) (fuel : nat)
    (context : BPSContext.t) (name : string) (dtype cpubuff : Z) (b : bool) :
  InitTensor g fuel (set_initialized context b) name dtype cpubuff
  = InitTensor g fuel context name dtype cpubuff.
Proof.
  unfold InitTensor.
  cbn [set_initialized BPSContext.key_list BPSContext.buff_len].
  apply bind_ext. intros _. apply bind_ext. intros parts.
  apply bind_ext. intros _.
  apply InitTensor_cpubuff_flag. intros c. reflexivity.
Qed.

Lemma InitTensor_accounting (g : BytePSGlobal) (fuel : nat)
    (context : BPSContext.t) (name : string) (dtype cpubuff : Z) :
  (forall k s, openPcieSharedMemory k s <> []) ->
  init_in_range (BPSContext.buff_len context) (GetPartitionBound g) ->
  0 < size_of (BPSContext.key_list context) ->
  size_of (BPSContext.key_list context)
  = ceil_div (BPSContext.buff_len context) (GetPartitionBound g) ->
  (num_partitions (BPSContext.buff_len context) (GetPartitionBound g)
   < fuel)%nat ->
  exists tr ctx,
    InitTensor_cpubuff g context cpubuff = (tr, Returned ctx)
    /\ BPSContext.key_list ctx = BPSContext.key_list context
    /\ BPSContext.buff_len ctx = BPSContext.buff_len context
    /\ InitTensor g fuel context name dtype cpubuff
       = ([EvCheckGt key_list_not_empty
             (size_of (BPSContext.key_list context)) 0;
           EvCheckEq key_list_size (size_of (BPSContext.key_list context))
             (ceil_div (BPSContext.buff_len context) (GetPartitionBound g))]
          ++ tr
          ++ init_loop_events g (BPSContext.key_list context)
               (BPSContext.buff_len context) (GetPartitionBound g) dtype
               (BPSContext.cpubuff ctx)
          ++ [EvCheckEq init_accumulated (BPSContext.buff_len context)
                (BPSContext.buff_len context);
              EvCheckEq init_count (size_of (BPSContext.key_list context))
                (size_of (BPSContext.key_list context))],
          Returned (set_initialized ctx true))
    /\ pushes (events (InitTensor g fuel context name dtype cpubuff))
       = (if IsDistributed g && IsRootDevice g && (GetWorkerID g =? 0) then
            map (fun i =>
                   (nth i (BPSContext.key_list context) 0,
                    BPSContext.cpubuff ctx
                    + Z.of_nat i * GetPartitionBound g,
                    Z.min (GetPartitionBound g)
                          (BPSContext.buff_len context
                           - Z.of_nat i * GetPartitionBound g),
                    GetCommandType kDefaultPushPull dtype))
                (seq 0 (num_partitions (BPSContext.buff_len context)
                                       (GetPartitionBound g)))
          else [])
    /\ barriers (events (InitTensor g fuel context name dtype cpubuff))
       = (if IsDistributed g && IsRootDevice g
          then num_partitions (BPSContext.buff_len context)
                              (GetPartitionBound g)
          else O).
Proof.
  intros Hpcie Hrange Hpos Heq Hfuel.
  assert (Hkeys : BPSContext.key_list context <> []).
  { intros Hnil. rewrite Hnil in Hpos. cbn in Hpos. lia. }
  assert (Hgt : (size_of (BPSContext.key_list context) >? 0) = true)
    by (apply Z.gtb_lt; lia).
  destruct (InitTensor_cpubuff_returns g context cpubuff Hpcie Hkeys)
    as [tr [ctx [Hbuf [Hk [Hl [_ [Hp Hbar]]]]]]].
  exists tr, ctx.
  pose proof (InitTensor_run g fuel context name dtype cpubuff Hrange Hgt
                tr ctx Heq Hfuel Hbuf) as Hrun.
  split; [exact Hbuf |]. split; [exact Hk |]. split; [exact Hl |].
  split; [exact Hrun |].
  rewrite Hrun. cbn [events fst]. unfold init_loop_events.
  rewrite !pushes_app, !barriers_app, Hp, Hbar.
  rewrite init_steps_pushes, init_steps_barriers.
  cbn [pushes barriers app Nat.add]. rewrite app_nil_r, Nat.add_0_r.
  split; reflexivity.
Qed.

(** X21. Where its arithmetic is exact ([init_in_range]), [InitTensor]
    first asserts [|key_list| > 0], then
    [|key_list| = ⌈buff_len / partition_bound⌉]; a call failing either ends
    there.  Otherwise it binds the host buffer and walks the partitions in
    order: on a distributed root-device node it issues, on worker 0 only, one
    blocking push per partition, keyed by [key_list[i]], with the
    [DefaultPushPull] command of the dtype, and on every worker enters the
    worker-group barrier once after each partition; then it sets
    [initialized].  With [buff_len = 9] and a bound of 4 there are 3
    partitions, 3 pushes on worker 0 and 3 barriers. *)
Theorem InitTensor_protocol :
  (forall (g : BytePSGlobal) (fuel : nat) (context : BPSContext.t)
          (name : string) (dtype cpubuff : Z),
      (forall k s, openPcieSharedMemory k s <> []) ->
      init_in_range (BPSContext.buff_len context) (GetPartitionBound g) ->
      (size_of (BPSContext.key_list context) <= 0 ->
       InitTensor g fuel context name dtype cpubuff
       = ([EvCheckGt key_list_not_empty
             (size_of (BPSContext.key_list context)) 0],
          InvariantViolation key_list_not_empty))
      /\ (0 < size_of (BPSContext.key_list context) ->
          size_of (BPSContext.key_list context)
            <> ceil_div (BPSContext.buff_len context) (GetPartitionBound g) ->
          InitTensor g fuel context name dtype cpubuff
          = ([EvCheckGt key_list_not_empty
                (size_of (BPSContext.key_list context)) 0;
              EvCheckEq key_list_size (size_of (BPSContext.key_list context))
                (ceil_div (BPSContext.buff_len context)
                          (GetPartitionBound g))],
             InvariantViolation key_list_size))
      /\ (0 < size_of (BPSContext.key_list context) ->
          size_of (BPSContext.key_list context)
            = ceil_div (BPSContext.buff_len context) (GetPartitionBound g) ->
          (num_partitions (BPSContext.buff_len context) (GetPartitionBound g)
           < fuel)%nat ->
          exists tr ctx,
            InitTensor_cpubuff g context cpubuff = (tr, Returned ctx)
            /\ InitTensor g fuel context name dtype cpubuff
               = ([EvCheckGt key_list_not_empty
                     (size_of (BPSContext.key_list context)) 0;
                   EvCheckEq key_list_size
                     (size_of (BPSContext.key_list context))
                     (ceil_div (BPSContext.buff_len context)
                               (GetPartitionBound g))]
                  ++ tr
                  ++ init_loop_events g (BPSContext.key_list context)
                       (BPSContext.buff_len context) (GetPartitionBound g)
                       dtype (BPSContext.cpubuff ctx)
                  ++ [EvCheckEq init_accumulated
                        (BPSContext.buff_len context)
                        (BPSContext.buff_len context);
                      EvCheckEq init_count
                        (size_of (BPSContext.key_list context))
                        (size_of (BPSContext.key_list context))],
                  Returned (set_initialized ctx true))
            /\ BPSContext.initialized (set_initialized ctx true) = true
            /\ pushes (events (InitTensor g fuel context name dtype cpubuff))
               = (if IsDistributed g && IsRootDevice g
                     && (GetWorkerID g =? 0) then
                    map (fun i =>
                           (nth i (BPSContext.key_list context) 0,
                            BPSContext.cpubuff ctx
                            + Z.of_nat i * GetPartitionBound g,
                            Z.min (GetPartitionBound g)
                                  (BPSContext.buff_len context
                                   - Z.of_nat i * GetPartitionBound g),
                            GetCommandType kDefaultPushPull dtype))
                        (seq 0 (num_partitions (BPSContext.buff_len context)
                                               (GetPartitionBound g)))
                  else [])
            /\ barriers (events (InitTensor g fuel context name dtype cpubuff))
               = (if IsDistributed g && IsRootDevice g
                  then num_partitions (BPSContext.buff_len context)
                                      (GetPartitionBound g)
                  else O)))
  /\ (forall (g : BytePSGlobal) (fuel : nat) (context : BPSContext.t)
             (name : string) (dtype cpubuff : Z),
        (forall k s, openPcieSharedMemory k s <> []) ->
        BPSContext.buff_len context = 9 ->
        GetPartitionBound g = 4 ->
        (3 < fuel)%nat ->
        (List.length (BPSContext.key_list context) <> 3%nat ->
         exists site,
           outcome (InitTensor g fuel context name dtype cpubuff)
           = InvariantViolation site)
        /\ (List.length (BPSContext.key_list context) = 3%nat ->
            IsDistributed g = true ->
            IsRootDevice g = true ->
            (exists ctx,
               outcome (InitTensor g fuel context name dtype cpubuff)
               = Returned ctx
               /\ BPSContext.initialized ctx = true)
            /\ List.length
                 (pushes (events (InitTensor g fuel context name dtype
                                    cpubuff)))
               = (if GetWorkerID g =? 0 then 3%nat else 0%nat)
            /\ barriers (events (InitTensor g fuel context name dtype cpubuff))
               = 3%nat)).
Proof.
  split.
  - intros g fuel context name dtype cpubuff Hpcie Hrange.
    split.
    { intros Hle. apply InitTensor_run_no_key.
      destruct (Z.gtb_spec (size_of (BPSContext.key_list context)) 0);
        [lia | reflexivity]. }
    split.
    { intros Hpos Hne.
      apply (InitTensor_run_mismatch g fuel context name dtype cpubuff Hrange);
        [apply Z.gtb_lt; lia | exact Hne]. }
    intros Hpos Heq Hfuel.
    destruct (InitTensor_accounting g fuel context name dtype cpubuff
                Hpcie Hrange Hpos Heq Hfuel)
      as [tr [ctx [Hbuf [_ [_ [Hrun [Hp Hb]]]]]]].
    exists tr, ctx. repeat split; assumption.
  - intros g fuel context name dtype cpubuff Hpcie Hlen Hbound Hfuel.
    assert (Hrange : init_in_range (BPSContext.buff_len context)
                                   (GetPartitionBound g)).
    { rewrite Hlen, Hbound. unfold init_in_range, UINT_MAX, INT_MAX. lia. }
    assert (Hceil : ceil_div (BPSContext.buff_len context)
                             (GetPartitionBound g) = 3)
      by (rewrite Hlen, Hbound; reflexivity).
    assert (Hparts : num_partitions (BPSContext.buff_len context)
                                    (GetPartitionBound g) = 3%nat)
      by (unfold num_partitions; rewrite Hceil; reflexivity).
    split.
    + intros Hne.
      destruct (Z_le_gt_dec (size_of (BPSContext.key_list context)) 0)
        as [Hle | Hgt].
      * exists key_list_not_empty. rewrite InitTensor_run_no_key; [reflexivity |].
        destruct (Z.gtb_spec (size_of (BPSContext.key_list context)) 0);
          [lia | reflexivity].
      * exists key_list_size.
        rewrite (InitTensor_run_mismatch g fuel context name dtype cpubuff
                   Hrange); [reflexivity | apply Z.gtb_lt; lia |].
        rewrite Hceil. unfold size_of. lia.
    + intros Hkeys Hdist Hroot.
      assert (Hpos : 0 < size_of (BPSContext.key_list context))
        by (unfold size_of; lia).
      assert (Heq : size_of (BPSContext.key_list context)
                    = ceil_div (BPSContext.buff_len context)
                               (GetPartitionBound g))
        by (rewrite Hceil; unfold size_of; lia).
      assert (Hfuel' : (num_partitions (BPSContext.buff_len context)
                                       (GetPartitionBound g) < fuel)%nat)
        by lia.
      destruct (InitTensor_accounting g fuel context name dtype cpubuff
                  Hpcie Hrange Hpos Heq Hfuel')
        as [tr [ctx [Hbuf [_ [_ [Hrun [Hp Hb]]]]]]].
      split.
      { exists (set_initialized ctx true). rewrite Hrun. split; reflexivity. }
      rewrite Hp, Hb, Hdist, Hroot, Hparts. cbn [andb].
      destruct (GetWorkerID g =? 0); split; reflexivity.
Qed.

(** C4, as the code has it.  [InitTensor] never reads [initialized]: on an
    already-initialized context it runs exactly as on the same context with
    the flag cleared.  A second call that passes the key-count assertions
    returns a context with the same keys and length and the flag set, and on
    a distributed root-device node it enters one barrier per partition and,
    on worker 0, pushes every partition to the parameter server again; it
    issues no push only off such a node or off worker 0. *)
Theorem InitTensor_ignores_initialized :
  (forall (g : BytePSGlobal) (fuel : nat) (context : BPSContext.t)
          (name : string) (dtype cpubuff : Z) (b : bool),
      InitTensor g fuel (set_initialized context b) name dtype cpubuff
      = InitTensor g fuel context name dtype cpubuff)
  /\ (forall (g : BytePSGlobal) (fuel : nat) (context : BPSContext.t)
             (name : string) (dtype cpubuff : Z),
        (forall k s, openPcieSharedMemory k s <> []) ->
        BPSContext.initialized context = true ->
        init_in_range (BPSContext.buff_len context) (GetPartitionBound g) ->
        0 < size_of (BPSContext.key_list context) ->
        size_of (BPSContext.key_list context)
        = ceil_div (BPSContext.buff_len context) (GetPartitionBound g) ->
        (num_partitions (BPSContext.buff_len context) (GetPartitionBound g)
         < fuel)%nat ->
        exists ctx,
          outcome (InitTensor g fuel context name dtype cpubuff)
          = Returned ctx
          /\ BPSContext.initialized ctx = true
          /\ BPSContext.key_list ctx = BPSContext.key_list context
          /\ BPSContext.buff_len ctx = BPSContext.buff_len context
          /\ List.length
               (pushes (events (InitTensor g fuel context name dtype cpubuff)))
             = (if IsDistributed g && IsRootDevice g && (GetWorkerID g =? 0)
                then List.length (BPSContext.key_list context) else O)
          /\ barriers (events (InitTensor g fuel context name dtype cpubuff))
             = (if IsDistributed g && IsRootDevice g
                then List.length (BPSContext.key_list context) else O)).
Proof.
  split; [exact InitTensor_flag |].
  intros g fuel context name dtype cpubuff Hpcie Hinit Hrange Hpos Heq Hfuel.
  destruct (InitTensor_accounting g fuel context name dtype cpubuff
              Hpcie Hrange Hpos Heq Hfuel)
    as [tr [ctx [Hbuf [Hk [Hl [Hrun [Hp Hb]]]]]]].
  assert (Hn : num_partitions (BPSContext.buff_len context)
                              (GetPartitionBound g)
               = List.length (BPSContext.key_list context)).
  { destruct Hrange as [Hb0 [Hs0 _]].
    pose proof (ceil_div_nonneg _ _ Hb0 Hs0).
    unfold num_partitions, size_of in *. lia. }
  exists (set_initialized ctx true).
  split; [rewrite Hrun; reflexivity |].
  split; [reflexivity |]. split; [exact Hk |]. split; [exact Hl |].
  rewrite Hp, Hb, Hn. split; [| reflexivity].
  destruct (IsDistributed g && IsRootDevice g && (GetWorkerID g =? 0));
    [| reflexivity].
  rewrite length_map, length_seq. reflexivity.
Qed.

(** * Further properties of the code *)

(** ** Start-up and itineraries *)

Ltac solve_in := cbn; intuition (discriminate || congruence).

(** X1. [byteps_init] starts no loop twice and always starts
    [SyncNcclLoop].  It starts exactly one of [RootNcclLoop] and
    [NonRootNcclLoop], never both [PushLoop] and [CoordinatePushLoop],
    never both host-to-device copy loops; [PushLoop] comes with [PullLoop],
    [NonRootCopyHost2DeviceLoop] with [NonRootCopyListenLoop], and the two
    coordinate NCCL loops with [NonRootNcclLoop]. *)
Theorem byteps_init_loops :
  forall (g : BytePSGlobal),
    NoDup (byteps_init g)
    /\ In SyncNcclLoop (byteps_init g)
    /\ (In RootNcclLoop (byteps_init g)
        <-> ~ In NonRootNcclLoop (byteps_init g))
    /\ ~ (In PushLoop (byteps_init g)
          /\ In CoordinatePushLoop (byteps_init g))
    /\ ~ (In RootCopyHost2DeviceLoop (byteps_init g)
          /\ In NonRootCopyHost2DeviceLoop (byteps_init g))
    /\ (In PushLoop (byteps_init g) <-> In PullLoop (byteps_init g))
    /\ (In NonRootCopyHost2DeviceLoop (byteps_init g)
        <-> In NonRootCopyListenLoop (byteps_init g))
    /\ (In CoordinateReduceLoop (byteps_init g)
        <-> In NonRootNcclLoop (byteps_init g))
    /\ (In CoordinateBroadcastLoop (byteps_init g)
        <-> In NonRootNcclLoop (byteps_init g))
    /\ (In CopyDevice2HostLoop (byteps_init g)
        <-> In RootCopyHost2DeviceLoop (byteps_init g)
            \/ In NonRootCopyHost2DeviceLoop (byteps_init g)).
Proof.
  clear CPU_DEVICE_ID GetCommandType openSharedMemory openPcieSharedMemory.
  intros [d r x s bound worker]. unfold byteps_init.
  cbn [IsDistributed IsRootDevice IsCrossPcieSwitch IsSignalRoot].
  destruct d, r, x, s; cbn;
    (split; [repeat constructor; solve_in | solve_in]).
Qed.

(** X2. On a device other than the CPU, a stage is on an itinerary exactly
    when [byteps_init] starts the loop of the same name: coordinate reduce,
    device-to-host copy, PCIe reduce, push, coordinate push on the push
    side; pull, host-to-device copy (root or non-root loop) and coordinate
    broadcast on the pull side. *)
Theorem itinerary_stages_have_loops :
  forall (g : BytePSGlobal) (device : Z),
    device <> CPU_DEVICE_ID ->
    (In COORDINATE_REDUCE (GetPushQueueList g device)
     <-> In CoordinateReduceLoop (byteps_init g))
    /\ (In COPYD2H (GetPushQueueList g device)
        <-> In CopyDevice2HostLoop (byteps_init g))
    /\ (In PCIE_REDUCE (GetPushQueueList g device)
        <-> In PcieReduceLoop (byteps_init g))
    /\ (In PUSH (GetPushQueueList g device)
        <-> In PushLoop (byteps_init g))
    /\ (In COORDINATE_PUSH (GetPushQueueList g device)
        <-> In CoordinatePushLoop (byteps_init g))
    /\ (In PULL (GetPullQueueList g device)
        <-> In PullLoop (byteps_init g))
    /\ (In COPYH2D (GetPullQueueList g device)
        <-> In RootCopyHost2DeviceLoop (byteps_init g)
            \/ In NonRootCopyHost2DeviceLoop (byteps_init g))
    /\ (In COORDINATE_BROADCAST (GetPullQueueList g device)
        <-> In CoordinateBroadcastLoop (byteps_init g)).
Proof.
  clear GetCommandType openSharedMemory openPcieSharedMemory.
  intros [d r x s bound worker] device Hdev.
  unfold GetPushQueueList, GetPullQueueList, byteps_init.
  rewrite (device_neqb _ Hdev).
  cbn [IsDistributed IsRootDevice IsCrossPcieSwitch IsSignalRoot].
  destruct d, r, x, s; solve_in.
Qed.

(** X3. Whatever the device and the role flags, no stage occurs twice in
    the push itinerary followed by the pull itinerary: neither repeats a
    stage and the two share none. *)
Theorem itineraries_visit_once :
  forall (g : BytePSGlobal) (device : Z),
    NoDup (GetPushQueueList g device ++ GetPullQueueList g device).
Proof.
  clear GetCommandType openSharedMemory openPcieSharedMemory.
  intros [d r x s bound worker] device.
  unfold GetPushQueueList, GetPullQueueList.
  destruct (negb (device =? CPU_DEVICE_ID)); [| constructor].
  cbn [IsDistributed IsRootDevice IsCrossPcieSwitch IsSignalRoot].
  destruct d, r, x, s; cbn; repeat constructor; solve_in.
Qed.

(** X4. On a device other than the CPU the push itinerary starts at
    [REDUCE] on a signal root and at [COORDINATE_REDUCE] otherwise; the
    pull itinerary starts at [PULL] on a distributed root device, else at
    [COPYH2D] when distributed or cross-PCIe-switch, else at the broadcast
    stage of the NCCL role.  Every task an [EnqueueTensor] fed by a builder
    hands over goes to that stage, whatever the other arguments. *)
Theorem entry_stage :
  forall (g : BytePSGlobal) (device : Z),
    device <> CPU_DEVICE_ID ->
    hd_error (GetPushQueueList g device)
    = Some (if IsSignalRoot g then REDUCE else COORDINATE_REDUCE)
    /\ hd_error (GetPullQueueList g device)
       = Some (if IsDistributed g && IsRootDevice g then PULL
               else if IsDistributed g || IsCrossPcieSwitch g then COPYH2D
               else if IsSignalRoot g then BROADCAST
               else COORDINATE_BROADCAST)
    /\ (forall (fuel : nat) (context : BPSContext.t)
               (input output : option Tensor) (ready_event : option Z)
               (name : string) (priority version callback : Z)
               (i : nat) (q : QueueType) (task : TensorTableEntry.t),
          nth_error
            (added_tasks
               (events (EnqueueTensor g fuel context input output ready_event
                          name device priority version callback
                          (GetPushQueueList g device))))
            i = Some (q, task) ->
          q = (if IsSignalRoot g then REDUCE else COORDINATE_REDUCE))
    /\ (forall (fuel : nat) (context : BPSContext.t)
               (input output : option Tensor) (ready_event : option Z)
               (name : string) (priority version callback : Z)
               (i : nat) (q : QueueType) (task : TensorTableEntry.t),
          nth_error
            (added_tasks
               (events (EnqueueTensor g fuel context input output ready_event
                          name device priority version callback
                          (GetPullQueueList g device))))
            i = Some (q, task) ->
          q = (if IsDistributed g && IsRootDevice g then PULL
               else if IsDistributed g || IsCrossPcieSwitch g then COPYH2D
               else if IsSignalRoot g then BROADCAST
               else COORDINATE_BROADCAST)).
Proof.
  intros g device Hdev.
  assert (Hpush : hd_error (GetPushQueueList g device)
                  = Some (if IsSignalRoot g then REDUCE
                          else COORDINATE_REDUCE)).
  { unfold GetPushQueueList. rewrite (device_neqb _ Hdev).
    destruct (IsSignalRoot g), (IsDistributed g), (IsCrossPcieSwitch g),
      (IsRootDevice g); reflexivity. }
  assert (Hpull : hd_error (GetPullQueueList g device)
                  = Some (if IsDistributed g && IsRootDevice g then PULL
                          else if IsDistributed g || IsCrossPcieSwitch g
                               then COPYH2D
                          else if IsSignalRoot g then BROADCAST
                          else COORDINATE_BROADCAST)).
  { unfold GetPullQueueList. rewrite (device_neqb _ Hdev).
    destruct (IsSignalRoot g), (IsDistributed g), (IsCrossPcieSwitch g),
      (IsRootDevice g); reflexivity. }
  split; [exact Hpush |]. split; [exact Hpull |].
  split.
  - intros fuel context input output ready_event name priority version
           callback i q task H.
    apply EnqueueTensor_added in H.
    destruct H as [ps [p [k [_ [_ [_ [_ Hhd]]]]]]].
    rewrite Hpush in Hhd. now injection Hhd as <-.
  - intros fuel context input output ready_event name priority version
           callback i q task H.
    apply EnqueueTensor_added in H.
    destruct H as [ps [p [k [_ [_ [_ [_ Hhd]]]]]]].
    rewrite Hpull in Hhd. now injection Hhd as <-.
Qed.

(** ** Partitioning *)

Lemma new_partition_inherits (entry : TensorTableEntry.t)
    (size bound accumulated i : Z) :
  inherits entry (new_partition entry size bound accumulated i).
Proof.
  unfold inherits. cbn. repeat split.
Qed.

Lemma PartitionTensor_loop_inherits (fuel : nat) (entry : TensorTableEntry.t)
    (size bound : Z) :
  forall (accumulated i : Z) (ps ps' : list TensorTableEntry.t),
    Forall (inherits entry) ps ->
    outcome (PartitionTensor_loop fuel entry size bound accumulated i ps)
    = Returned ps' ->
    Forall (inherits entry) ps'.
Proof.
  induction fuel as [| fuel IH]; intros accumulated i ps ps' Hps Hrun.
  - discriminate Hrun.
  - cbn [PartitionTensor_loop] in Hrun.
    destruct (accumulated <? size).
    + apply IH in Hrun; [exact Hrun |].
      unfold push_back. apply Forall_app. split; [exact Hps |].
      constructor; [apply new_partition_inherits | constructor].
    + cbn in Hrun. injection Hrun as <-. exact Hps.
Qed.

Lemma PartitionTensor_inherits (g : BytePSGlobal) (fuel : nat)
    (entry : TensorTableEntry.t) (ps : list TensorTableEntry.t) :
  outcome (PartitionTensor g fuel entry []) = Returned ps ->
  Forall (inherits entry) ps.
Proof.
  unfold PartitionTensor. rewrite outcome_bind.
  destruct (TensorTableEntry.counter_ptr entry) as [c |];
    cbn [BPS_CHECK outcome snd]; [| discriminate].
  rewrite outcome_bind.
  destruct (outcome (entry_size entry)) as [size | | |]; try discriminate.
  apply PartitionTensor_loop_inherits. constructor.
Qed.

(** X5. Every child [PartitionTensor] returns shares with its parent all
    fields but the name, the key, the offset and the length; so every task
    an [EnqueueTensor] hands to a queue carries the call's context,
    tensors, ready event, device, priority, version and callback, the whole
    itinerary, a counter at zero and [total_partnum = |key_list|],
    whatever the arguments. *)
Theorem children_inherit :
  (forall (g : BytePSGlobal) (fuel : nat) (entry : TensorTableEntry.t)
          (ps : list TensorTableEntry.t),
      outcome (PartitionTensor g fuel entry []) = Returned ps ->
      Forall (inherits entry) ps)
  /\ (forall (g : BytePSGlobal) (fuel : nat) (context : BPSContext.t)
             (input output : option Tensor) (ready_event : option Z)
             (name : string) (device priority version callback : Z)
             (queue_list : list QueueType)
             (i : nat) (q : QueueType) (task : TensorTableEntry.t),
        nth_error
          (added_tasks
             (events (EnqueueTensor g fuel context input output ready_event
                        name device priority version callback queue_list)))
          i = Some (q, task) ->
        TensorTableEntry.context task = context
        /\ TensorTableEntry.tensor task = input
        /\ TensorTableEntry.output task = output
        /\ TensorTableEntry.ready_event task = ready_event
        /\ TensorTableEntry.device task = device
        /\ TensorTableEntry.priority task = priority
        /\ TensorTableEntry.version task = version
        /\ TensorTableEntry.callback task = callback
        /\ TensorTableEntry.queue_list task = queue_list
        /\ TensorTableEntry.counter_ptr task = Some 0
        /\ TensorTableEntry.total_partnum task
           = size_of (BPSContext.key_list context)).
Proof.
  split; [exact PartitionTensor_inherits |].
  intros g fuel context input output ready_event name device priority
         version callback queue_list i q task H.
  apply EnqueueTensor_added in H.
  destruct H as [ps [p [k [Hps [Hp [_ [Ht _]]]]]]].
  apply PartitionTensor_inherits in Hps. rewrite Forall_forall in Hps.
  specialize (Hps p (nth_error_In _ _ Hp)).
  destruct Hps as [H1 [H2 [H3 [H4 [H5 [H6 [H7 [H8 [_ [_ [H11 [H12 H13]]]]]]]]]]]].
  subst task. cbn [TensorTableEntry.set_key TensorTableEntry.context
    TensorTableEntry.tensor TensorTableEntry.output
    TensorTableEntry.ready_event TensorTableEntry.device
    TensorTableEntry.priority TensorTableEntry.version
    TensorTableEntry.callback TensorTableEntry.queue_list
    TensorTableEntry.counter_ptr TensorTableEntry.total_partnum].
  repeat split; assumption.
Qed.

Lemma to_string_inj (a b : Z) : to_string a = to_string b -> a = b.
Proof.
  unfold to_string. intros H.
  assert (Hnil : forall z, Z.to_int z <> Decimal.Pos Decimal.Nil
                           /\ Z.to_int z <> Decimal.Neg Decimal.Nil).
  { intros z. split; intros Hz; pose proof (f_equal Z.of_int Hz) as Hz';
      rewrite DecimalZ.of_to in Hz'; cbn in Hz'; subst z; discriminate Hz. }
  apply (f_equal NilZero.int_of_string) in H.
  rewrite !NilZero.isi in H by apply Hnil.
  injection H as H. now apply DecimalZ.to_int_inj.
Qed.

Lemma append_inj (prefix a b : string) :
  String.append prefix a = String.append prefix b -> a = b.
Proof.
  induction prefix as [| c prefix IH]; cbn; intros H; [exact H |].
  injection H as H. now apply IH.
Qed.

Lemma NoDup_map_seq {A : Type} (f : nat -> A) (k n : nat) :
  (forall i j, f i = f j -> i = j) -> NoDup (map f (seq k n)).
Proof.
  intros Hinj. revert k. induction n as [| n IH]; intros k; cbn.
  - constructor.
  - constructor; [| apply IH].
    intros Hin. apply in_map_iff in Hin. destruct Hin as [j [Hj Hin]].
    apply Hinj in Hj. subst j. apply in_seq in Hin. lia.
Qed.

(** X6. In the range of the partitioner, child [i] is named after its
    parent, [<name>_<i>] with [i] in decimal, and no two children of one
    parent share a name. *)
Theorem partition_names :
  forall (g : BytePSGlobal) (fuel : nat) (entry : TensorTableEntry.t)
         (S c : Z),
    TensorTableEntry.counter_ptr entry = Some c ->
    entry_size entry = ret S ->
    0 <= S <= INT_MAX ->
    0 < GetPartitionBound g ->
    (num_partitions S (GetPartitionBound g) < fuel)%nat ->
    exists ps,
      outcome (PartitionTensor g fuel entry []) = Returned ps
      /\ (forall i p,
            nth_error ps i = Some p ->
            TensorTableEntry.tensor_name p
            = String.append (TensorTableEntry.tensor_name entry)
                (String.append "_" (to_string (Z.of_nat i))))
      /\ NoDup (map TensorTableEntry.tensor_name ps).
Proof.
  intros g fuel entry S c Hc Hsize Hs Hb Hfuel.
  exists (partitions_of entry S (GetPartitionBound g)).
  split; [rewrite (PartitionTensor_run g fuel entry S c Hc Hsize Hb Hs Hfuel);
          reflexivity |].
  split.
  - intros i p Hp. apply partitions_of_nth in Hp. subst p. reflexivity.
  - unfold partitions_of. rewrite map_map. apply NoDup_map_seq.
    intros i j H. cbn in H. apply append_inj in H. injection H as H.
    apply to_string_inj in H. lia.
Qed.

Lemma nth_partitions_contiguous (entry : TensorTableEntry.t) (size bound : Z) :
  0 < bound -> 0 <= size ->
  forall (n k : nat),
    (k + n <= num_partitions size bound)%nat ->
    contiguous (Z.of_nat k * bound)
               (map (nth_partition entry size bound) (seq k n)).
Proof.
  intros Hb Hs. induction n as [| n IH]; intros k Hk; [exact I |].
  cbn [seq map contiguous].
  pose proof (ceil_div_nat_lt size bound k Hb Hs) as Hlt.
  assert (Hin : Z.of_nat k * bound < size) by (apply Hlt; lia).
  assert (Hlen : TensorTableEntry.len (nth_partition entry size bound k)
                 = Z.min bound (size - Z.of_nat k * bound)).
  { cbn. destruct (Z.gtb_spec (size - Z.of_nat k * bound) bound); lia. }
  split; [reflexivity |]. split; [rewrite Hlen; lia |].
  destruct n as [| n]; [exact I |].
  pose proof (ceil_div_nat_lt size bound (S k) Hb Hs) as Hlt'.
  assert (Hin' : Z.of_nat (S k) * bound < size) by (apply Hlt'; lia).
  rewrite Hlen.
  replace (Z.of_nat k * bound + Z.min bound (size - Z.of_nat k * bound))
    with (Z.of_nat (S k) * bound) by lia.
  apply IH. lia.
Qed.

(** X7. In the range of the partitioner the children tile the buffer:
    the first window starts at 0, each next one starts where the previous
    one ends, none is empty, none is longer than the bound and none runs
    past the byte size of the parent. *)
Theorem partitions_tile :
  forall (g : BytePSGlobal) (fuel : nat) (entry : TensorTableEntry.t)
         (S c : Z),
    TensorTableEntry.counter_ptr entry = Some c ->
    entry_size entry = ret S ->
    0 <= S <= INT_MAX ->
    0 < GetPartitionBound g ->
    (num_partitions S (GetPartitionBound g) < fuel)%nat ->
    exists ps,
      outcome (PartitionTensor g fuel entry []) = Returned ps
      /\ contiguous 0 ps
      /\ Forall (fun p => TensorTableEntry.len p <= GetPartitionBound g
                          /\ TensorTableEntry.offset p
                             + TensorTableEntry.len p <= S) ps.
Proof.
  intros g fuel entry S c Hc Hsize Hs Hb Hfuel.
  exists (partitions_of entry S (GetPartitionBound g)).
  split; [rewrite (PartitionTensor_run g fuel entry S c Hc Hsize Hb Hs Hfuel);
          reflexivity |].
  split.
  - apply (nth_partitions_contiguous entry S _ Hb (proj1 Hs)
             (num_partitions S (GetPartitionBound g)) 0). lia.
  - apply Forall_forall. intros p Hp. apply In_nth_error in Hp.
    destruct Hp as [i Hp]. apply partitions_of_nth in Hp. subst p.
    cbn [nth_partition new_partition TensorTableEntry.len
         TensorTableEntry.offset].
    destruct (Z.gtb_spec (S - Z.of_nat i * GetPartitionBound g)
                         (GetPartitionBound g)); lia.
Qed.

(** ** Edge cases of the enqueue *)

Lemma num_partitions_zero (bound : Z) : 0 < bound -> num_partitions 0 bound = O.
Proof.
  intros Hb. unfold num_partitions, ceil_div.
  rewrite Z.div_small by lia. reflexivity.
Qed.

(** X8. A zero-byte tensor is cut into no partition.  With a non-empty
    itinerary and an empty key list [EnqueueTensor] returns [OK] although
    it hands nothing to any queue and does not invoke the callback, so the
    callback of such a call never fires; with a non-empty key list the call
    ends at the partition-count assertion. *)
Theorem zero_byte_tensor :
  forall (g : BytePSGlobal) (fuel : nat) (context : BPSContext.t)
         (input output : option Tensor) (ready_event : option Z)
         (name : string) (device priority version callback : Z)
         (q0 : QueueType) (rest : list QueueType),
    outcome (check_sizes input output) = Returned tt ->
    entry_size (parent_entry context input output ready_event name
                  device priority version callback (q0 :: rest)) = ret 0 ->
    0 < GetPartitionBound g ->
    (0 < fuel)%nat ->
    (BPSContext.key_list context = [] ->
     outcome (EnqueueTensor g fuel context input output ready_event name
                device priority version callback (q0 :: rest))
     = Returned OK
     /\ added_tasks
          (events (EnqueueTensor g fuel context input output ready_event
                     name device priority version callback (q0 :: rest)))
        = []
     /\ callbacks
          (events (EnqueueTensor g fuel context input output ready_event
                     name device priority version callback (q0 :: rest)))
        = [])
    /\ (BPSContext.key_list context <> [] ->
        outcome (EnqueueTensor g fuel context input output ready_event name
                   device priority version callback (q0 :: rest))
        = InvariantViolation partition_count
        /\ added_tasks
             (events (EnqueueTensor g fuel context input output ready_event
                        name device priority version callback (q0 :: rest)))
           = []).
Proof.
  intros g fuel context input output ready_event name device priority
         version callback q0 rest Hsizes Hsize Hb Hfuel.
  assert (Hread : forall ql,
            entry_size (parent_entry context input output ready_event name
                          device priority version callback ql) = ret 0)
    by (intros ql; exact Hsize).
  assert (Hs : 0 <= 0 <= INT_MAX) by (unfold INT_MAX; lia).
  assert (Hn : (num_partitions 0 (GetPartitionBound g) < fuel)%nat)
    by (rewrite num_partitions_zero by exact Hb; exact Hfuel).
  assert (Hceil : ceil_div 0 (GetPartitionBound g) = 0)
    by (unfold ceil_div; apply Z.div_small; lia).
  destruct (check_sizes_events input output) as [Ha _].
  split.
  - intros Hkeys.
    assert (Heq : size_of (BPSContext.key_list context)
                  = ceil_div 0 (GetPartitionBound g))
      by (rewrite Hkeys, Hceil; reflexivity).
    split; [| split; [| apply EnqueueTensor_cons_callbacks]].
    + rewrite (EnqueueTensor_run_enqueue g fuel context input output
                 ready_event name device priority version callback 0
                 Hsizes Hread Hb Hs Hn q0 rest Heq). reflexivity.
    + rewrite (EnqueueTensor_run_enqueue g fuel context input output
                 ready_event name device priority version callback 0
                 Hsizes Hread Hb Hs Hn q0 rest Heq).
      cbn [events fst]. rewrite !added_tasks_app, Ha.
      rewrite added_tasks_add_task_events. unfold partitions_of.
      rewrite num_partitions_zero by exact Hb. reflexivity.
  - intros Hkeys.
    assert (Hne : size_of (BPSContext.key_list context)
                  <> ceil_div 0 (GetPartitionBound g)).
    { rewrite Hceil. destruct (BPSContext.key_list context);
        [contradiction | unfold size_of; cbn [List.length]; lia]. }
    rewrite (EnqueueTensor_run_mismatch g fuel context input output
               ready_event name device priority version callback 0
               Hsizes Hread Hb Hs Hn (q0 :: rest) Hne).
    cbn [events outcome fst snd]. rewrite added_tasks_app, Ha.
    split; reflexivity.
Qed.

(** X9. With a partition bound of 0 nothing works: on a tensor of
    positive size the loop of [PartitionTensor] never advances, so
    [EnqueueTensor] does not return whatever the fuel, having enqueued
    nothing; [InitTensor] on a context with keys divides by zero right
    after its first assertion. *)
Theorem zero_partition_bound :
  (forall (g : BytePSGlobal) (fuel : nat) (context : BPSContext.t)
          (input output : option Tensor) (ready_event : option Z)
          (name : string) (device priority version callback : Z)
          (queue_list : list QueueType) (S : Z),
      GetPartitionBound g = 0 ->
      outcome (check_sizes input output) = Returned tt ->
      entry_size (parent_entry context input output ready_event name
                    device priority version callback queue_list) = ret S ->
      0 < S ->
      EnqueueTensor g fuel context input output ready_event name
        device priority version callback queue_list
      = (events (check_sizes input output)
         ++ [EvCheck counter_ptr_not_null true],
         OutOfFuel))
  /\ (forall (g : BytePSGlobal) (fuel : nat) (context : BPSContext.t)
             (name : string) (dtype cpubuff : Z),
        GetPartitionBound g = 0 ->
        BPSContext.key_list context <> [] ->
        InitTensor g fuel context name dtype cpubuff
        = ([EvCheckGt key_list_not_empty
              (size_of (BPSContext.key_list context)) 0],
           UndefinedBehavior)).
Proof.
  split.
  - intros g fuel context input output ready_event name device priority
           version callback queue_list S Hb Hsizes Hsize Hpos.
    unfold EnqueueTensor.
    rewrite (check_sizes_passes _ _ Hsizes), bind_Returned.
    unfold PartitionTensor.
    replace (TensorTableEntry.counter_ptr (parent_entry _ _ _ _ _ _ _ _ _ _))
      with (Some 0) by reflexivity.
    unfold BPS_CHECK. rewrite bind_Returned, Hsize. unfold ret.
    rewrite bind_Returned, Hb.
    rewrite (PartitionTensor_loop_bound_zero fuel _ S Hpos 0 []).
    reflexivity.
  - intros g fuel context name dtype cpubuff Hb Hkeys.
    unfold InitTensor, BPS_CHECK_GT, round_up. rewrite Hb.
    destruct (BPSContext.key_list context) as [| k keys];
      [contradiction |].
    assert (Hgt : (size_of (k :: keys) >? 0) = true)
      by (apply Z.gtb_lt; unfold size_of; cbn [List.length]; lia).
    rewrite Hgt. reflexivity.
Qed.

Lemma PartitionTensor_loop_outcome (fuel : nat) (entry : TensorTableEntry.t)
    (size bound : Z) :
  forall (accumulated i : Z) (ps : list TensorTableEntry.t) (site : CheckSite),
    outcome (PartitionTensor_loop fuel entry size bound accumulated i ps)
    <> InvariantViolation site.
Proof.
  induction fuel as [| fuel IH]; intros accumulated i ps site.
  - discriminate.
  - cbn [PartitionTensor_loop]. destruct (accumulated <? size).
    + apply IH.
    + discriminate.
Qed.

Lemma vector_at_outcome {A : Type} (v : list A) (i : Z) (site : CheckSite) :
  outcome (vector_at v i) <> InvariantViolation site.
Proof.
  unfold vector_at. destruct (i <? 0); [discriminate |].
  destruct (nth_error v (Z.to_nat i)); discriminate.
Qed.

Lemma EnqueueTensor_loop_outcome (context : BPSContext.t)
    (e : TensorTableEntry.t) :
  forall (tasks : list TensorTableEntry.t) (i accumulated : Z)
         (site : CheckSite),
    outcome (EnqueueTensor_loop context e tasks i accumulated)
    <> InvariantViolation site.
Proof.
  induction tasks as [| p tasks IH]; intros i acc site; [discriminate |].
  cbn [EnqueueTensor_loop]. rewrite outcome_bind.
  destruct (outcome (vector_at (BPSContext.key_list context) i))
    as [k | s | |] eqn:Hk; try discriminate.
  2:{ exfalso. exact (vector_at_outcome _ _ _ Hk). }
  rewrite outcome_bind.
  destruct (outcome (vector_at (TensorTableEntry.queue_list e) 0))
    as [q | s | |] eqn:Hq; try discriminate.
  2:{ exfalso. exact (vector_at_outcome _ _ _ Hq). }
  rewrite outcome_bind. cbn [emit outcome snd]. apply IH.
Qed.





(** X11. An [EnqueueTensor] can only fail one of its own three assertions
    (input/output size, partition count, summed length), never the
    counter-pointer check of [PartitionTensor].  When it fails at the size or
    the count assertion the queues are untouched and the callback has not
    been invoked: only the summed-length assertion comes after the
    partitions are handed over. *)
Theorem EnqueueTensor_failure :
  forall (g : BytePSGlobal) (fuel : nat) (context : BPSContext.t)
         (input output : option Tensor) (ready_event : option Z)
         (name : string) (device priority version callback : Z)
         (queue_list : list QueueType) (site : CheckSite),
    outcome (EnqueueTensor g fuel context input output ready_event name
               device priority version callback queue_list)
    = InvariantViolation site ->
    (site = input_output_size \/ site = partition_count
     \/ site = accumulated_size)
    /\ (site <> accumulated_size ->
        added_tasks
          (events (EnqueueTensor g fuel context input output ready_event
                     name device priority version callback queue_list)) = []
        /\ callbacks
             (events (EnqueueTensor g fuel context input output ready_event
                        name device priority version callback queue_list))
           = []).
Proof.
  intros g fuel context input output ready_event name device priority
         version callback queue_list site H.
  unfold EnqueueTensor in *.
  rewrite outcome_bind in H. rewrite added_tasks_bind, callbacks_bind.
  destruct (check_sizes_events input output) as [Ha [Hc _]].
  rewrite Ha, Hc. cbn [app].
  destruct (outcome (check_sizes input output)) as [[] | s0 | |] eqn:Hcs;
    try discriminate H.
  2:{ injection H as <-.
      assert (s0 = input_output_size) as ->.
      { unfold check_sizes in Hcs.
        destruct input as [i |], output as [o |]; try discriminate Hcs.
        cbn in Hcs. destruct (_ =? _); [discriminate Hcs |].
        now injection Hcs as <-. }
      split; [left; reflexivity | intros _; split; reflexivity]. }
  rewrite outcome_bind in H. rewrite added_tasks_bind, callbacks_bind.
  destruct (PartitionTensor_events g fuel
              (parent_entry context input output ready_event name
                 device priority version callback queue_list) [])
    as [b Hb].
  rewrite Hb. cbn [added_tasks callbacks app].
  destruct (outcome (PartitionTensor _ _ _ _)) as [ps | s1 | |] eqn:Hpt;
    try discriminate H.
  2:{ exfalso. unfold PartitionTensor in Hpt. rewrite outcome_bind in Hpt.
      cbn [parent_entry TensorTableEntry.counter_ptr BPS_CHECK outcome snd]
        in Hpt.
      rewrite outcome_bind in Hpt.
      destruct (entry_size _) as [tr [size | s2 | |]] eqn:Hsz;
        cbn [outcome snd] in Hpt; try discriminate Hpt.
      - exact (PartitionTensor_loop_outcome _ _ _ _ _ _ _ _ Hpt).
      - unfold entry_size in Hsz.
        destruct (TensorTableEntry.tensor _);
          [| destruct (TensorTableEntry.output _)]; discriminate Hsz. }
  rewrite outcome_bind in H. rewrite added_tasks_bind, callbacks_bind.
  cbn [BPS_CHECK_EQ events outcome fst snd added_tasks callbacks app] in *.
  destruct (_ =? size_of ps).
  2:{ injection H as <-.
      split; [right; left; reflexivity | intros _; split; reflexivity]. }
  destruct (size_of _ =? 0); [discriminate H |].
  rewrite outcome_bind in H.
  destruct (outcome (EnqueueTensor_loop _ _ _ _ _)) as [acc | s3 | |] eqn:Hl;
    try discriminate H.
  2:{ exfalso. exact (EnqueueTensor_loop_outcome _ _ _ _ _ _ Hl). }
  rewrite outcome_bind in H.
  destruct (outcome (entry_size _)) as [size | s4 | |] eqn:Hsz;
    try discriminate H.
  2:{ exfalso. unfold entry_size in Hsz.
      destruct (TensorTableEntry.tensor _);
        [| destruct (TensorTableEntry.output _)]; discriminate Hsz. }
  rewrite outcome_bind in H. unfold BPS_CHECK_EQ in H.
  cbn [outcome snd] in H.
  destruct (acc =? size); [discriminate H |].
  injection H as <-.
  split; [right; right; reflexivity | intros Hne; contradiction].
Qed.

(** ** The init protocol, whatever its arguments *)

Lemma pushes_bind {A B : Type} (m : M A) (k : A -> M B) :
  pushes (events (bind m k))
  = pushes (events m)
    ++ match outcome m with
       | Returned a => pushes (events (k a))
       | _ => []
       end.
Proof.
  rewrite events_bind, pushes_app. destruct (outcome m); reflexivity.
Qed.

Lemma barriers_bind {A B : Type} (m : M A) (k : A -> M B) :
  barriers (events (bind m k))
  = (barriers (events m)
     + match outcome m with
       | Returned a => barriers (events (k a))
       | _ => O
       end)%nat.
Proof.
  rewrite events_bind, barriers_app. destruct (outcome m); reflexivity.
Qed.

Lemma opens_app (tr1 tr2 : list Event) :
  opens (tr1 ++ tr2) = opens tr1 ++ opens tr2.
Proof.
  induction tr1 as [| e tr1 IH]; [reflexivity |].
  destruct e; cbn; rewrite IH; reflexivity.
Qed.

Lemma opens_bind {A B : Type} (m : M A) (k : A -> M B) :
  opens (events (bind m k))
  = opens (events m)
    ++ match outcome m with
       | Returned a => opens (events (k a))
       | _ => []
       end.
Proof.
  rewrite events_bind, opens_app. destruct (outcome m); reflexivity.
Qed.

Lemma vector_at_events {A : Type} (v : list A) (i : Z) :
  events (vector_at v i) = [].
Proof.
  unfold vector_at. destruct (i <? 0); [reflexivity |].
  destruct (nth_error v (Z.to_nat i)); reflexivity.
Qed.

(** The loop of [InitTensor] only pushes and enters barriers, and only in
    the roles the source names. *)
Lemma InitTensor_loop_quiet (g : BytePSGlobal) (key_list : list Z)
    (size bound dtype data : Z) :
  forall (fuel : nat) (accumulated i : Z),
    callbacks (events (InitTensor_loop g fuel key_list size bound dtype data
                         accumulated i)) = []
    /\ added_tasks (events (InitTensor_loop g fuel key_list size bound dtype
                              data accumulated i)) = []
    /\ opens (events (InitTensor_loop g fuel key_list size bound dtype data
                        accumulated i)) = []
    /\ (IsDistributed g && IsRootDevice g && (GetWorkerID g =? 0) = false ->
        pushes (events (InitTensor_loop g fuel key_list size bound dtype data
                          accumulated i)) = [])
    /\ (IsDistributed g && IsRootDevice g = false ->
        barriers (events (InitTensor_loop g fuel key_list size bound dtype
                            data accumulated i)) = O).
Proof.
  induction fuel as [| fuel IH]; intros accumulated i.
  - cbn. auto.
  - cbn [InitTensor_loop]. destruct (accumulated <? size); [| cbn; auto].
    rewrite callbacks_bind, added_tasks_bind, opens_bind, pushes_bind,
      barriers_bind, vector_at_events.
    cbn [callbacks added_tasks opens pushes barriers app Nat.add].
    destruct (outcome (vector_at key_list i)) as [k | | |]; auto.
    rewrite callbacks_bind, added_tasks_bind, opens_bind, pushes_bind,
      barriers_bind.
    match goal with
    | |- context [InitTensor_loop g fuel key_list size bound dtype data
                    ?a ?b] =>
        destruct (IH a b) as [Hc [Ha [Ho [Hp Hb]]]]
    end.
    destruct (IsDistributed g && IsRootDevice g);
      destruct (GetWorkerID g =? 0);
      cbn [andb bind emit ret events outcome fst snd callbacks added_tasks
           opens pushes barriers app Nat.add];
      rewrite ?Hc, ?Ha, ?Ho;
      (repeat split; try reflexivity; intros Hf; try discriminate Hf;
       rewrite ?(Hp Hf), ?(Hb Hf); reflexivity).
Qed.

Lemma InitTensor_cpubuff_quiet (g : BytePSGlobal) (context : BPSContext.t)
    (cpubuff : Z) :
  callbacks (events (InitTensor_cpubuff g context cpubuff)) = []
  /\ added_tasks (events (InitTensor_cpubuff g context cpubuff)) = []
  /\ pushes (events (InitTensor_cpubuff g context cpubuff)) = []
  /\ barriers (events (InitTensor_cpubuff g context cpubuff)) = O.
Proof.
  unfold InitTensor_cpubuff. destruct (negb (cpubuff =? 0)); [cbn; auto |].
  unfold vector_at. cbn [Z.ltb Z.compare Z.to_nat].
  destruct (nth_error (BPSContext.key_list context) 0) as [k0 |];
    [| cbn; auto].
  unfold ret. rewrite bind_Returned. cbn [events fst app].
  destruct (IsCrossPcieSwitch g); [| cbn; auto].
  unfold emit. rewrite bind_Returned. unfold vector_back.
  destruct (rev _); cbn; auto.
Qed.

(** Where the events of an [InitTensor] come from: its buffer step and its
    loop, besides the assertions. *)
Lemma InitTensor_sources (g : BytePSGlobal) (fuel : nat)
    (context : BPSContext.t) (name : string) (dtype cpubuff : Z) :
  callbacks (events (InitTensor g fuel context name dtype cpubuff)) = []
  /\ added_tasks (events (InitTensor g fuel context name dtype cpubuff)) = []
  /\ (IsDistributed g && IsRootDevice g && (GetWorkerID g =? 0) = false ->
      pushes (events (InitTensor g fuel context name dtype cpubuff)) = [])
  /\ (IsDistributed g && IsRootDevice g = false ->
      barriers (events (InitTensor g fuel context name dtype cpubuff)) = O).
Proof.
  unfold InitTensor.
  rewrite callbacks_bind, added_tasks_bind, pushes_bind, barriers_bind.
  cbn [BPS_CHECK_GT events outcome fst snd callbacks added_tasks pushes
       barriers app Nat.add].
  destruct (_ >? 0); [| auto].
  rewrite callbacks_bind, added_tasks_bind, pushes_bind, barriers_bind.
  assert (Hr : events (round_up (BPSContext.buff_len context)
                         (GetPartitionBound g)) = [])
    by (unfold round_up; destruct (_ =? 0); reflexivity).
  rewrite Hr. cbn [callbacks added_tasks pushes barriers app Nat.add].
  destruct (outcome (round_up _ _)) as [parts | | |]; auto.
  rewrite callbacks_bind, added_tasks_bind, pushes_bind, barriers_bind.
  cbn [BPS_CHECK_EQ events outcome fst snd callbacks added_tasks pushes
       barriers app Nat.add].
  destruct (_ =? parts); [| auto].
  rewrite callbacks_bind, added_tasks_bind, pushes_bind, barriers_bind.
  destruct (InitTensor_cpubuff_quiet g context cpubuff)
    as [Hc [Ha [Hp Hb]]].
  rewrite Hc, Ha, Hp, Hb. cbn [app Nat.add].
  destruct (outcome (InitTensor_cpubuff g context cpubuff))
    as [ctx | | |]; auto.
  rewrite callbacks_bind, added_tasks_bind, pushes_bind, barriers_bind.
  destruct (InitTensor_loop_quiet g (BPSContext.key_list context)
              (BPSContext.buff_len context) (GetPartitionBound g) dtype
              (BPSContext.cpubuff ctx) fuel 0 0)
    as [Hlc [Hla [_ [Hlp Hlb]]]].
  rewrite Hlc, Hla. cbn [app].
  assert (Htail : forall r : Z * Z,
    callbacks (events (BPS_CHECK_EQ init_accumulated (fst r)
                         (BPSContext.buff_len context) ;;
                       BPS_CHECK_EQ init_count (snd r)
                         (size_of (BPSContext.key_list context)) ;;
                       ret (set_initialized ctx true))) = []
    /\ added_tasks (events (BPS_CHECK_EQ init_accumulated (fst r)
                              (BPSContext.buff_len context) ;;
                            BPS_CHECK_EQ init_count (snd r)
                              (size_of (BPSContext.key_list context)) ;;
                            ret (set_initialized ctx true))) = []
    /\ pushes (events (BPS_CHECK_EQ init_accumulated (fst r)
                         (BPSContext.buff_len context) ;;
                       BPS_CHECK_EQ init_count (snd r)
                         (size_of (BPSContext.key_list context)) ;;
                       ret (set_initialized ctx true))) = []
    /\ barriers (events (BPS_CHECK_EQ init_accumulated (fst r)
                           (BPSContext.buff_len context) ;;
                         BPS_CHECK_EQ init_count (snd r)
                           (size_of (BPSContext.key_list context)) ;;
                         ret (set_initialized ctx true))) = O).
  { intros r. unfold BPS_CHECK_EQ.
    destruct (fst r =? _); destruct (snd r =? _); cbn; auto. }
  destruct (outcome (InitTensor_loop _ _ _ _ _ _ _ _ _)) as [r | | |].
  - destruct (Htail r) as [Htc [Hta [Htp Htb]]].
    rewrite Htc, Hta, Htp, Htb, app_nil_r, Nat.add_0_r. auto.
  - rewrite app_nil_r, Nat.add_0_r. auto.
  - rewrite app_nil_r, Nat.add_0_r. auto.
  - rewrite app_nil_r, Nat.add_0_r. auto.
Qed.

(** X12. Whatever its arguments, [InitTensor] pushes to the parameter
    server only on worker 0 of a distributed root device and enters a
    barrier only on a distributed root device; it hands no task to any
    queue and invokes no callback. *)
Theorem InitTensor_who_pushes :
  forall (g : BytePSGlobal) (fuel : nat) (context : BPSContext.t)
         (name : string) (dtype cpubuff : Z),
    (pushes (events (InitTensor g fuel context name dtype cpubuff)) <> [] ->
     IsDistributed g = true /\ IsRootDevice g = true /\ GetWorkerID g = 0)
    /\ (barriers (events (InitTensor g fuel context name dtype cpubuff))
          <> O ->
        IsDistributed g = true /\ IsRootDevice g = true)
    /\ added_tasks (events (InitTensor g fuel context name dtype cpubuff))
       = []
    /\ callbacks (events (InitTensor g fuel context name dtype cpubuff))
       = [].
Proof.
  intros g fuel context name dtype cpubuff.
  destruct (InitTensor_sources g fuel context name dtype cpubuff)
    as [Hc [Ha [Hp Hb]]].
  split; [| split; [| split; assumption]].
  - intros Hne.
    destruct (IsDistributed g), (IsRootDevice g);
      try (exfalso; apply Hne, Hp; reflexivity).
    destruct (Z.eqb_spec (GetWorkerID g) 0) as [Hw | Hw]; [auto |].
    exfalso. apply Hne, Hp. reflexivity.
  - intros Hne.
    destruct (IsDistributed g), (IsRootDevice g);
      try (exfalso; apply Hne, Hb; reflexivity).
    auto.
Qed.

(** X17. [EnqueueTensorInit] invokes the callback exactly when
    [InitTensor] returns: once, with [OK], after every event of the init,
    and then returns [OK] with the initialized context; when the init
    fails it ends the same way with the same events and without the
    callback. *)
Theorem EnqueueTensorInit_callback :
  forall (g : BytePSGlobal) (fuel : nat) (context : BPSContext.t)
         (name : string) (dtype cpubuff callback : Z),
    events (EnqueueTensorInit g fuel context name dtype cpubuff callback)
    = events (InitTensor g fuel context name dtype cpubuff)
      ++ match outcome (InitTensor g fuel context name dtype cpubuff) with
         | Returned _ => [EvCallback callback OK]
         | _ => []
         end
    /\ callbacks
         (events (EnqueueTensorInit g fuel context name dtype cpubuff
                    callback))
       = match outcome (InitTensor g fuel context name dtype cpubuff) with
         | Returned _ => [(callback, OK)]
         | _ => []
         end
    /\ outcome (EnqueueTensorInit g fuel context name dtype cpubuff callback)
       = match outcome (InitTensor g fuel context name dtype cpubuff) with
         | Returned ctx => Returned (ctx, OK)
         | InvariantViolation site => InvariantViolation site
         | UndefinedBehavior => UndefinedBehavior
         | OutOfFuel => OutOfFuel
         end.
Proof.
  intros g fuel context name dtype cpubuff callback.
  destruct (InitTensor_sources g fuel context name dtype cpubuff)
    as [Hc _].
  unfold EnqueueTensorInit.
  rewrite callbacks_bind, events_bind, outcome_bind, Hc.
  destruct (outcome (InitTensor g fuel context name dtype cpubuff));
    repeat split; reflexivity.
Qed.

Lemma InitTensor_returned (g : BytePSGlobal) (fuel : nat)
    (context : BPSContext.t) (name : string) (dtype cpubuff : Z)
    (ctx' : BPSContext.t) :
  outcome (InitTensor g fuel context name dtype cpubuff) = Returned ctx' ->
  exists tr c parts,
    InitTensor_cpubuff g context cpubuff = (tr, Returned c)
    /\ ctx' = set_initialized c true
    /\ (size_of (BPSContext.key_list context) >? 0) = true
    /\ outcome (round_up (BPSContext.buff_len context) (GetPartitionBound g))
       = Returned parts
    /\ size_of (BPSContext.key_list context) = parts
    /\ opens (events (InitTensor g fuel context name dtype cpubuff))
       = opens tr.
Proof.
  unfold InitTensor. rewrite outcome_bind, opens_bind.
  cbn [BPS_CHECK_GT events outcome fst snd opens app].
  destruct (_ >? 0) eqn:Hgt; [| discriminate].
  rewrite outcome_bind, opens_bind.
  assert (Hr : events (round_up (BPSContext.buff_len context)
                         (GetPartitionBound g)) = [])
    by (unfold round_up; destruct (_ =? 0); reflexivity).
  rewrite Hr. cbn [opens app].
  destruct (outcome (round_up _ _)) as [parts | | |] eqn:Hparts;
    try discriminate.
  rewrite outcome_bind, opens_bind.
  cbn [BPS_CHECK_EQ events outcome fst snd opens app].
  destruct (Z.eqb_spec (size_of (BPSContext.key_list context)) parts)
    as [Heq | Hne]; [| discriminate].
  destruct (InitTensor_cpubuff g context cpubuff) as [tr [c | | |]] eqn:Hbuf;
    rewrite outcome_bind, opens_bind; cbn [events outcome fst snd];
    try discriminate.
  rewrite outcome_bind, opens_bind.
  destruct (InitTensor_loop_quiet g (BPSContext.key_list context)
              (BPSContext.buff_len context) (GetPartitionBound g) dtype
              (BPSContext.cpubuff c) fuel 0 0) as [_ [_ [Ho _]]].
  rewrite Ho. cbn [app].
  destruct (outcome (InitTensor_loop _ _ _ _ _ _ _ _ _)) as [r | | |];
    try discriminate.
  unfold BPS_CHECK_EQ.
  destruct (fst r =? _); [| discriminate].
  destruct (snd r =? _); [| discriminate].
  cbn. intros H. injection H as <-.
  exists tr, c, parts. rewrite app_nil_r. repeat split; auto.
Qed.

Lemma InitTensor_cpubuff_cases (g : BytePSGlobal) (context : BPSContext.t)
    (cpubuff : Z) (tr : list Event) (c : BPSContext.t) :
  InitTensor_cpubuff g context cpubuff = (tr, Returned c) ->
  BPSContext.key_list c = BPSContext.key_list context
  /\ BPSContext.buff_len c = BPSContext.buff_len context
  /\ BPSContext.reuse_buff c = negb (cpubuff =? 0)
  /\ (cpubuff <> 0 ->
      tr = [] /\ BPSContext.cpubuff c = cpubuff
      /\ BPSContext.pcie_cpubuff c = BPSContext.pcie_cpubuff context)
  /\ (cpubuff = 0 ->
      exists k0 rest,
        BPSContext.key_list context = k0 :: rest
        /\ opens tr
           = [(IsCrossPcieSwitch g, k0, BPSContext.buff_len context)]
        /\ (IsCrossPcieSwitch g = false ->
            BPSContext.cpubuff c
            = openSharedMemory k0 (BPSContext.buff_len context)
            /\ BPSContext.pcie_cpubuff c = BPSContext.pcie_cpubuff context)
        /\ (IsCrossPcieSwitch g = true ->
            BPSContext.pcie_cpubuff c
            = openPcieSharedMemory k0 (BPSContext.buff_len context)
            /\ exists front,
                 BPSContext.pcie_cpubuff c
                 = front ++ [BPSContext.cpubuff c])).
Proof.
  unfold InitTensor_cpubuff.
  destruct (Z.eqb_spec cpubuff 0) as [H0 | H0]; cbn [negb].
  - destruct (BPSContext.key_list context) as [| k0 rest] eqn:Hkeys;
      [discriminate |].
    unfold vector_at. cbn [Z.ltb Z.compare Z.to_nat nth_error].
    unfold ret. rewrite bind_Returned.
    destruct (IsCrossPcieSwitch g).
    + unfold emit. rewrite bind_Returned. unfold vector_back.
      destruct (rev (openPcieSharedMemory k0 (BPSContext.buff_len context)))
        as [| x l] eqn:Hrev; [discriminate |].
      unfold ret. rewrite bind_Returned. cbn. intros H. injection H as <- <-.
      cbn. repeat split; try reflexivity; try contradiction.
      intros _. exists k0, rest.
      repeat split; try reflexivity; try discriminate.
      exists (rev l). apply (f_equal (@rev Z)) in Hrev.
      rewrite rev_involutive in Hrev. exact Hrev.
    + unfold emit. rewrite bind_Returned. cbn. intros H.
      injection H as <- <-.
      cbn. repeat split; try reflexivity; try contradiction.
      intros _. exists k0, rest.
      repeat split; try reflexivity; try discriminate.
  - intros H. injection H as <- <-. cbn.
    repeat split; try reflexivity; try contradiction.
Qed.

(** X13. An [InitTensor] that returns hands back a context with
    [initialized] set, the same [key_list] and [buff_len], and
    [reuse_buff] telling whether the caller supplied the buffer; the key
    list it accepted is not empty and, where the arithmetic is exact, has
    exactly [⌈buff_len / partition_bound⌉] keys. *)
Theorem InitTensor_result :
  forall (g : BytePSGlobal) (fuel : nat) (context : BPSContext.t)
         (name : string) (dtype cpubuff : Z) (ctx' : BPSContext.t),
    outcome (InitTensor g fuel context name dtype cpubuff) = Returned ctx' ->
    BPSContext.initialized ctx' = true
    /\ BPSContext.key_list ctx' = BPSContext.key_list context
    /\ BPSContext.buff_len ctx' = BPSContext.buff_len context
    /\ BPSContext.reuse_buff ctx' = negb (cpubuff =? 0)
    /\ BPSContext.key_list context <> []
    /\ (init_in_range (BPSContext.buff_len context) (GetPartitionBound g) ->
        size_of (BPSContext.key_list ctx')
        = ceil_div (BPSContext.buff_len ctx') (GetPartitionBound g)).
Proof.
  intros g fuel context name dtype cpubuff ctx' H.
  apply InitTensor_returned in H.
  destruct H as [tr [c [parts [Hbuf [-> [Hgt [Hparts [Heq _]]]]]]]].
  destruct (InitTensor_cpubuff_cases g context cpubuff tr c Hbuf)
    as [Hk [Hl [Hr _]]].
  cbn [set_initialized BPSContext.initialized BPSContext.key_list
       BPSContext.buff_len BPSContext.reuse_buff].
  repeat split; try assumption.
  - intros Hnil. rewrite Hnil in Hgt. discriminate Hgt.
  - intros Hrange. rewrite Hk, Hl.
    rewrite (round_up_exact _ _ Hrange) in Hparts. cbn in Hparts.
    injection Hparts as <-. exact Heq.
Qed.

(** X14. The host buffer of [InitTensor].  With a buffer from the caller
    no shared memory is ever opened, and a call that returns has bound that
    buffer and left the per-switch buffers alone.  Without one, a call that
    returns has opened exactly one region, indexed by the first key and of
    [buff_len] bytes: the plain region, which becomes [cpubuff], off
    cross-PCIe-switch nodes; the per-switch regions, of which the last
    becomes [cpubuff], on them. *)
Theorem InitTensor_buffer :
  forall (g : BytePSGlobal) (fuel : nat) (context : BPSContext.t)
         (name : string) (dtype cpubuff : Z),
    (cpubuff <> 0 ->
     opens (events (InitTensor g fuel context name dtype cpubuff)) = [])
    /\ (forall ctx',
          outcome (InitTensor g fuel context name dtype cpubuff)
          = Returned ctx' ->
          (cpubuff <> 0 ->
           BPSContext.cpubuff ctx' = cpubuff
           /\ BPSContext.pcie_cpubuff ctx'
              = BPSContext.pcie_cpubuff context)
          /\ (cpubuff = 0 ->
              exists k0 rest,
                BPSContext.key_list context = k0 :: rest
                /\ opens (events (InitTensor g fuel context name dtype
                                    cpubuff))
                   = [(IsCrossPcieSwitch g, k0,
                       BPSContext.buff_len context)]
                /\ (IsCrossPcieSwitch g = false ->
                    BPSContext.cpubuff ctx'
                    = openSharedMemory k0 (BPSContext.buff_len context)
                    /\ BPSContext.pcie_cpubuff ctx'
                       = BPSContext.pcie_cpubuff context)
                /\ (IsCrossPcieSwitch g = true ->
                    BPSContext.pcie_cpubuff ctx'
                    = openPcieSharedMemory k0 (BPSContext.buff_len context)
                    /\ exists front,
                         BPSContext.pcie_cpubuff ctx'
                         = front ++ [BPSContext.cpubuff ctx']))).
Proof.
  intros g fuel context name dtype cpubuff. split.
  - intros Hne. unfold InitTensor. rewrite opens_bind.
    cbn [BPS_CHECK_GT events outcome fst snd opens app].
    destruct (_ >? 0); [| reflexivity].
    rewrite opens_bind.
    assert (Hr : events (round_up (BPSContext.buff_len context)
                           (GetPartitionBound g)) = [])
      by (unfold round_up; destruct (_ =? 0); reflexivity).
    rewrite Hr. cbn [opens app].
    destruct (outcome (round_up _ _)) as [parts | | |]; try reflexivity.
    rewrite opens_bind. cbn [BPS_CHECK_EQ events outcome fst snd opens app].
    destruct (_ =? parts); [| reflexivity].
    rewrite opens_bind. unfold InitTensor_cpubuff at 1 2.
    apply Z.eqb_neq in Hne. rewrite Hne. cbn [negb ret events outcome fst snd
      opens app].
    rewrite opens_bind.
    destruct (InitTensor_loop_quiet g (BPSContext.key_list context)
                (BPSContext.buff_len context) (GetPartitionBound g) dtype
                cpubuff fuel 0 0) as [_ [_ [Ho _]]].
    cbn [BPSContext.cpubuff]. rewrite Ho. cbn [app].
    destruct (outcome (InitTensor_loop _ _ _ _ _ _ _ _ _)) as [r | | |];
      try reflexivity.
    unfold BPS_CHECK_EQ. destruct (fst r =? _); destruct (snd r =? _);
      reflexivity.
  - intros ctx' H. apply InitTensor_returned in H.
    destruct H as [tr [c [parts [Hbuf [-> [_ [_ [_ Hopens]]]]]]]].
    destruct (InitTensor_cpubuff_cases g context cpubuff tr c Hbuf)
      as [_ [_ [_ [Hgiven Hopened]]]].
    cbn [set_initialized BPSContext.cpubuff BPSContext.pcie_cpubuff].
    split.
    + intros Hne. destruct (Hgiven Hne) as [_ [Hc Hp]]. split; assumption.
    + intros H0. destruct (Hopened H0) as [k0 [rest [Hk [Ho [Hplain Hpcie]]]]].
      exists k0, rest. rewrite Hopens. repeat split; try assumption.
      * apply Hplain; assumption.
      * apply Hplain; assumption.
      * apply Hpcie; assumption.
      * apply Hpcie; assumption.
Qed.

(** ** What the init seeds and what the enqueue later carries *)

Lemma sum_min_seq (size bound : Z) :
  0 < bound -> 0 <= size ->
  forall (n k : nat),
    (k + n <= num_partitions size bound)%nat ->
    sum_Z (map (fun i => Z.min bound (size - Z.of_nat i * bound)) (seq k n))
    = Z.min (Z.of_nat (k + n) * bound) size - Z.min (Z.of_nat k * bound) size.
Proof.
  intros Hb Hs. induction n as [| n IH]; intros k Hk.
  - rewrite Nat.add_0_r. cbn. lia.
  - cbn [seq map sum_Z fold_right].
    fold (sum_Z (map (fun i => Z.min bound (size - Z.of_nat i * bound))
                     (seq (S k) n))).
    rewrite IH by lia.
    pose proof (ceil_div_nat_lt size bound k Hb Hs) as Hlt.
    assert (Z.of_nat k * bound < size) by (apply Hlt; lia).
    replace (S k + n)%nat with (k + S n)%nat by lia. lia.
Qed.

Lemma map_nth_seq (keys : list Z) :
  map (fun i => nth i keys 0) (seq 0 (List.length keys)) = keys.
Proof.
  induction keys as [| k keys IH]; [reflexivity |].
  cbn [List.length seq map nth]. f_equal.
  rewrite <- seq_shift, map_map. exact IH.
Qed.

Lemma keyed_task_windows (q0 : QueueType) (e : TensorTableEntry.t)
    (size bound : Z) (keys : list Z) :
  forall (n k : nat),
    (k + n <= List.length keys)%nat ->
    map task_window
        (keyed_tasks q0 (map (nth_partition e size bound) (seq k n))
                     (skipn k keys))
    = map (fun i => (Some (nth i keys 0), Z.of_nat i * bound,
                     Z.min bound (size - Z.of_nat i * bound)))
          (seq k n).
Proof.
  induction n as [| n IH]; intros k Hk; [reflexivity |].
  assert (Hkey : nth_error keys k = Some (nth k keys 0))
    by (apply nth_error_nth'; lia).
  rewrite (skipn_nth_error _ _ _ Hkey).
  cbn [seq map]. unfold keyed_tasks in *.
  cbn [combine map fst snd]. rewrite IH by lia.
  f_equal. unfold task_window.
  cbn [snd TensorTableEntry.set_key TensorTableEntry.key
       TensorTableEntry.offset TensorTableEntry.len].
  rewrite nth_partition_len. reflexivity.
Qed.

(** X15. Where the arithmetic of [InitTensor] is exact, worker 0 of a
    distributed root device seeds every key of [key_list] once and in
    order; every pushed window is non-empty and lies inside the host
    buffer, and the pushed lengths add up to [buff_len]. *)
Theorem init_pushes_cover :
  forall (g : BytePSGlobal) (fuel : nat) (context : BPSContext.t)
         (name : string) (dtype cpubuff : Z),
    (forall k s, openPcieSharedMemory k s <> []) ->
    init_in_range (BPSContext.buff_len context) (GetPartitionBound g) ->
    0 < size_of (BPSContext.key_list context) ->
    size_of (BPSContext.key_list context)
    = ceil_div (BPSContext.buff_len context) (GetPartitionBound g) ->
    (num_partitions (BPSContext.buff_len context) (GetPartitionBound g)
     < fuel)%nat ->
    IsDistributed g = true ->
    IsRootDevice g = true ->
    GetWorkerID g = 0 ->
    exists ctx',
      outcome (InitTensor g fuel context name dtype cpubuff) = Returned ctx'
      /\ map push_key
             (pushes (events (InitTensor g fuel context name dtype cpubuff)))
         = BPSContext.key_list context
      /\ sum_Z (map push_len
                  (pushes (events (InitTensor g fuel context name dtype
                                     cpubuff))))
         = BPSContext.buff_len context
      /\ Forall (push_inside (BPSContext.cpubuff ctx')
                             (BPSContext.buff_len context))
                (pushes (events (InitTensor g fuel context name dtype
                                   cpubuff))).
Proof.
  intros g fuel context name dtype cpubuff Hpcie Hrange Hpos Heq Hfuel
         Hdist Hroot Hworker.
  destruct (InitTensor_accounting g fuel context name dtype cpubuff
              Hpcie Hrange Hpos Heq Hfuel)
    as [tr [ctx [_ [_ [_ [Hrun [Hp _]]]]]]].
  rewrite Hdist, Hroot, Hworker in Hp. cbn [andb Z.eqb] in Hp.
  destruct Hrange as [Hb [Hs [Hu Hi]]].
  pose proof (ceil_div_nonneg _ _ Hb Hs) as Hnn.
  assert (Hn : num_partitions (BPSContext.buff_len context)
                              (GetPartitionBound g)
               = List.length (BPSContext.key_list context))
    by (unfold num_partitions, size_of in *; lia).
  exists (set_initialized ctx true).
  split; [rewrite Hrun; reflexivity |].
  rewrite Hp. cbn [set_initialized BPSContext.cpubuff].
  split; [| split].
  - rewrite map_map. cbn [push_key]. rewrite Hn. apply map_nth_seq.
  - rewrite map_map. cbn [push_len].
    rewrite (sum_min_seq _ _ Hb Hs) by lia.
    pose proof (ceil_div_nat_lt (BPSContext.buff_len context)
                  (GetPartitionBound g)
                  (num_partitions (BPSContext.buff_len context)
                                  (GetPartitionBound g)) Hb Hs) as Hlt.
    cbn [Nat.add].
    assert (~ Z.of_nat (num_partitions (BPSContext.buff_len context)
                                       (GetPartitionBound g))
              * GetPartitionBound g < BPSContext.buff_len context)
      by (intros H; apply Hlt in H; lia).
    lia.
  - apply Forall_forall. intros p Hin. apply in_map_iff in Hin.
    destruct Hin as [i [<- Hin]]. apply in_seq in Hin.
    pose proof (ceil_div_nat_lt (BPSContext.buff_len context)
                  (GetPartitionBound g) i Hb Hs) as Hlt.
    assert (Z.of_nat i * GetPartitionBound g < BPSContext.buff_len context)
      by (apply Hlt; lia).
    cbn [push_inside]. nia.
Qed.

(** X16. Init and enqueue agree.  Where the arithmetic is exact, once
    [InitTensor] has returned a context, an [EnqueueTensor] on that context
    of a tensor of [buff_len] bytes passes its assertions, returns [OK]
    and hands one task per key to the head stage; on worker 0 of a
    distributed root device the i-th task carries the key and the byte
    window, relative to the host buffer, that the i-th init push seeded. *)
Theorem init_then_enqueue :
  forall (g : BytePSGlobal) (fuel : nat) (context ctx' : BPSContext.t)
         (name : string) (dtype cpubuff : Z)
         (input : Tensor) (ready_event : option Z) (tensor_name : string)
         (device priority version callback : Z)
         (q0 : QueueType) (rest : list QueueType),
    (forall k s, openPcieSharedMemory k s <> []) ->
    init_in_range (BPSContext.buff_len context) (GetPartitionBound g) ->
    BPSContext.buff_len context <= INT_MAX ->
    (num_partitions (BPSContext.buff_len context) (GetPartitionBound g)
     < fuel)%nat ->
    outcome (InitTensor g fuel context name dtype cpubuff) = Returned ctx' ->
    Tensor_size input = BPSContext.buff_len context ->
    outcome (EnqueueTensor g fuel ctx' (Some input) None ready_event
               tensor_name device priority version callback (q0 :: rest))
    = Returned OK
    /\ List.length
         (added_tasks
            (events (EnqueueTensor g fuel ctx' (Some input) None ready_event
                       tensor_name device priority version callback
                       (q0 :: rest))))
       = List.length (BPSContext.key_list context)
    /\ (IsDistributed g = true -> IsRootDevice g = true ->
        GetWorkerID g = 0 ->
        map (push_window (BPSContext.cpubuff ctx'))
            (pushes (events (InitTensor g fuel context name dtype cpubuff)))
        = map task_window
              (added_tasks
                 (events (EnqueueTensor g fuel ctx' (Some input) None
                            ready_event tensor_name device priority version
                            callback (q0 :: rest))))).
Proof.
  intros g fuel context ctx' name dtype cpubuff input ready_event tensor_name
         device priority version callback q0 rest
         Hpcie Hrange Hmax Hfuel Hinit Hin.
  pose proof Hinit as Hret. apply InitTensor_returned in Hret.
  destruct Hret as [tr [c [parts [Hbuf [Hctx [Hgt [Hparts [Heq _]]]]]]]].
  rewrite (round_up_exact _ _ Hrange) in Hparts. cbn in Hparts.
  injection Hparts as <-.
  assert (Hpos : 0 < size_of (BPSContext.key_list context))
    by (apply Z.gtb_lt; exact Hgt).
  destruct (InitTensor_cpubuff_cases g context cpubuff tr c Hbuf)
    as [Hk [Hl _]].
  assert (Hkeys : BPSContext.key_list ctx' = BPSContext.key_list context)
    by (subst ctx'; exact Hk).
  destruct (InitTensor_accounting g fuel context name dtype cpubuff
              Hpcie Hrange Hpos Heq Hfuel)
    as [tr2 [ctx2 [Hbuf2 [_ [_ [_ [Hp _]]]]]]].
  rewrite Hbuf in Hbuf2. injection Hbuf2 as <- <-.
  pose proof Hrange as [Hb [Hs [Hu Hi]]].
  pose proof (ceil_div_nonneg _ _ Hb Hs) as Hnn.
  assert (Hsr : 0 <= BPSContext.buff_len context <= INT_MAX) by lia.
  assert (Hread : forall ql,
            entry_size (parent_entry ctx' (Some input) None ready_event
                          tensor_name device priority version callback ql)
            = ret (BPSContext.buff_len context))
    by (intros ql; cbn; rewrite Hin; reflexivity).
  assert (Heq' : size_of (BPSContext.key_list ctx')
                 = ceil_div (BPSContext.buff_len context)
                            (GetPartitionBound g))
    by (rewrite Hkeys; exact Heq).
  assert (Hn : num_partitions (BPSContext.buff_len context)
                              (GetPartitionBound g)
               = List.length (BPSContext.key_list context))
    by (unfold num_partitions, size_of in *; lia).
  rewrite (EnqueueTensor_run_enqueue g fuel ctx' (Some input) None
             ready_event tensor_name device priority version callback
             (BPSContext.buff_len context) eq_refl Hread Hb Hsr Hfuel
             q0 rest Heq').
  cbn [events outcome fst snd check_sizes ret app added_tasks].
  rewrite !added_tasks_app, added_tasks_add_task_events.
  cbn [added_tasks app]. rewrite app_nil_r, Hkeys.
  split; [reflexivity |]. split.
  - unfold keyed_tasks, partitions_of.
    rewrite length_map, length_combine, length_map, length_seq. lia.
  - intros Hdist Hroot Hworker.
    rewrite Hp, Hdist, Hroot, Hworker. cbn [andb Z.eqb].
    unfold partitions_of.
    pose proof (keyed_task_windows q0
                  (parent_entry ctx' (Some input) None ready_event
                     tensor_name device priority version callback
                     (q0 :: rest))
                  (BPSContext.buff_len context) (GetPartitionBound g)
                  (BPSContext.key_list context)
                  (num_partitions (BPSContext.buff_len context)
                                  (GetPartitionBound g)) 0) as Hw.
    cbn [skipn] in Hw. rewrite Hw by lia.
    rewrite map_map. apply map_ext. intros i.
    subst ctx'. cbn [push_window set_initialized BPSContext.cpubuff].
    f_equal. f_equal. lia.
Qed.

(** * Beyond the range of the counters *)

(** ** The [int] accumulator of [PartitionTensor] *)

(** [auto accumulated = 0] makes the accumulator of [PartitionTensor] an
    [int]; the loops of [EnqueueTensor] and [InitTensor] over the same
    bytes count in [unsigned int] and [size_t]. *)
Lemma to_int_le (z : Z) : to_int z <= INT_MAX.
Proof.
  unfold to_int, INT_MAX.
  pose proof (Z.mod_pos_bound (z + 2147483648) 4294967296 ltac:(lia)).
  lia.
Qed.

Lemma PartitionTensor_loop_beyond_int (entry : TensorTableEntry.t)
    (size bound : Z) :
  INT_MAX < size ->
  forall (fuel : nat) (accumulated i : Z)
         (partitions : list TensorTableEntry.t),
    accumulated <= INT_MAX ->
    PartitionTensor_loop fuel entry size bound accumulated i partitions
    = out_of_fuel.
Proof.
  intros Hsize fuel.
  induction fuel as [| fuel IH]; intros accumulated i partitions Hacc;
    cbn [PartitionTensor_loop]; [reflexivity |].
  destruct (Z.ltb_spec accumulated size) as [_ | Hge]; [| lia].
  apply IH. apply to_int_le.
Qed.

Lemma PartitionTensor_run_beyond_int (g : BytePSGlobal) (fuel : nat)
    (entry : TensorTableEntry.t) (partitions : list TensorTableEntry.t)
    (S c : Z) :
  TensorTableEntry.counter_ptr entry = Some c ->
  entry_size entry = ret S ->
  INT_MAX < S ->
  PartitionTensor g fuel entry partitions
  = ([EvCheck counter_ptr_not_null true], OutOfFuel).
Proof.
  intros Hc Hs Hbig. unfold PartitionTensor. rewrite Hc, Hs.
  cbn [BPS_CHECK ret bind fst snd app].
  rewrite (PartitionTensor_loop_beyond_int entry S (GetPartitionBound g)
             Hbig fuel 0 0 partitions) by (unfold INT_MAX; lia).
  reflexivity.
Qed.

Lemma EnqueueTensor_run_beyond_int (g : BytePSGlobal) (fuel : nat)
    (context : BPSContext.t) (input output : option Tensor)
    (ready_event : option Z) (name : string)
    (device priority version callback : Z) (queue_list : list QueueType)
    (S : Z) :
  outcome (check_sizes input output) = Returned tt ->
  entry_size (parent_entry context input output ready_event name
                device priority version callback queue_list) = ret S ->
  INT_MAX < S ->
  EnqueueTensor g fuel context input output ready_event name
    device priority version callback queue_list
  = (events (check_sizes input output)
     ++ [EvCheck counter_ptr_not_null true], OutOfFuel).
Proof.
  intros Hcs Hs Hbig. unfold EnqueueTensor.
  rewrite (PartitionTensor_run_beyond_int g fuel
             (parent_entry context input output ready_event name
                device priority version callback queue_list)
             [] S 0 eq_refl Hs Hbig).
  destruct (check_sizes input output) as [tr o]. cbn [outcome snd] in Hcs.
  subst o. reflexivity.
Qed.

(** C3. Above [INT_MAX] bytes the partitioner yields no partition list at
    all: its [int] accumulator never reaches the size, so whatever the
    bound and however long it runs, [PartitionTensor] does not return, and
    an [EnqueueTensor] on such a tensor stops inside it, before the
    partition-count assertion; yet [⌈S/B⌉] is an ordinary number (2 for
    [S = 2^31], [B = 2^30]), and the loops of [EnqueueTensor] and
    [InitTensor] count the same bytes in unsigned types. *)
Theorem PartitionTensor_int_accumulator :
  forall (g : BytePSGlobal) (fuel : nat) (entry : TensorTableEntry.t)
         (S c : Z),
    TensorTableEntry.counter_ptr entry = Some c ->
    entry_size entry = ret S ->
    INT_MAX < S ->
    PartitionTensor g fuel entry []
    = ([EvCheck counter_ptr_not_null true], OutOfFuel)
    /\ (forall ps,
          outcome (PartitionTensor g fuel entry []) <> Returned ps)
    /\ (forall (context : BPSContext.t) (input output : option Tensor)
               (ready_event : option Z) (name : string)
               (device priority version callback : Z)
               (queue_list : list QueueType),
          outcome (check_sizes input output) = Returned tt ->
          entry_size (parent_entry context input output ready_event name
                        device priority version callback queue_list)
          = ret S ->
          checks_at partition_count
            (events (EnqueueTensor g fuel context input output ready_event
                       name device priority version callback queue_list))
          = []
          /\ checks_at accumulated_size
               (events (EnqueueTensor g fuel context input output
                          ready_event name device priority version callback
                          queue_list))
             = []
          /\ outcome (EnqueueTensor g fuel context input output ready_event
                        name device priority version callback queue_list)
             = OutOfFuel)
    /\ ceil_div 2147483648 1073741824 = 2.
Proof.
  intros g fuel entry S c Hc Hs Hbig.
  pose proof (PartitionTensor_run_beyond_int g fuel entry [] S c Hc Hs Hbig)
    as Hrun.
  split; [exact Hrun |]. split; [| split; [| reflexivity]].
  - intros ps. rewrite Hrun. discriminate.
  - intros context input output ready_event name device priority version
           callback queue_list Hcs Hsz.
    rewrite (EnqueueTensor_run_beyond_int g fuel context input output
               ready_event name device priority version callback queue_list
               S Hcs Hsz Hbig).
    cbn [events outcome fst snd].
    unfold check_sizes in *.
    destruct input as [i |], output as [o |]; cbn in Hcs |- *;
      repeat split; reflexivity.
Qed.

(** C5. A CPU-device call on a tensor of more than [INT_MAX] bytes does
    not short-circuit: both builders return the empty itinerary, the call
    passes the size check, and then stays in [PartitionTensor] however long
    it runs; the callback is never invoked and the call never returns,
    also when [key_list] holds exactly [⌈S/B⌉] keys. *)
Theorem cpu_enqueue_beyond_int :
  forall (g : BytePSGlobal) (fuel : nat) (context : BPSContext.t)
         (input output : option Tensor) (ready_event : option Z)
         (name : string) (priority version callback : Z)
         (queue_list : list QueueType) (S : Z),
    queue_list = GetPushQueueList g CPU_DEVICE_ID
    \/ queue_list = GetPullQueueList g CPU_DEVICE_ID ->
    outcome (check_sizes input output) = Returned tt ->
    entry_size (parent_entry context input output ready_event name
                  CPU_DEVICE_ID priority version callback queue_list)
    = ret S ->
    INT_MAX < S ->
    queue_list = []
    /\ outcome (EnqueueTensor g fuel context input output ready_event
                  name CPU_DEVICE_ID priority version callback queue_list)
       = OutOfFuel
    /\ callbacks
         (events (EnqueueTensor g fuel context input output ready_event
                    name CPU_DEVICE_ID priority version callback queue_list))
       = []
    /\ added_tasks
         (events (EnqueueTensor g fuel context input output ready_event
                    name CPU_DEVICE_ID priority version callback queue_list))
       = [].
Proof.
  intros g fuel context input output ready_event name priority version
         callback queue_list S Hql Hcs Hsz Hbig.
  split.
  - unfold GetPushQueueList, GetPullQueueList in Hql.
    rewrite Z.eqb_refl in Hql. cbn in Hql. destruct Hql; assumption.
  - rewrite (EnqueueTensor_run_beyond_int g fuel context input output
               ready_event name CPU_DEVICE_ID priority version callback
               queue_list S Hcs Hsz Hbig).
    cbn [events outcome fst snd].
    unfold check_sizes in *.
    destruct input as [i |], output as [o |]; cbn in Hcs |- *;
      repeat split; reflexivity.
Qed.

(** C9. With an empty itinerary and a tensor of more than [INT_MAX] bytes
    the short cut is never reached, whatever the device and whatever
    [key_list] holds: the call passes the size check, enters
    [PartitionTensor] and stays there; the partition-count assertion is
    never evaluated, the callback never invoked, nothing returned. *)
Theorem empty_itinerary_beyond_int :
  forall (g : BytePSGlobal) (fuel : nat) (context : BPSContext.t)
         (input output : option Tensor) (ready_event : option Z)
         (name : string) (device priority version callback : Z) (S : Z),
    outcome (check_sizes input output) = Returned tt ->
    entry_size (parent_entry context input output ready_event name
                  device priority version callback []) = ret S ->
    INT_MAX < S ->
    EnqueueTensor g fuel context input output ready_event name
      device priority version callback []
    = (events (check_sizes input output)
       ++ [EvCheck counter_ptr_not_null true], OutOfFuel)
    /\ checks_at partition_count
         (events (EnqueueTensor g fuel context input output ready_event name
                    device priority version callback [])) = []
    /\ callbacks
         (events (EnqueueTensor g fuel context input output ready_event name
                    device priority version callback [])) = []
    /\ (forall s,
          outcome (EnqueueTensor g fuel context input output ready_event
                     name device priority version callback [])
          <> Returned s).
Proof.
  intros g fuel context input output ready_event name device priority
         version callback S Hcs Hsz Hbig.
  rewrite (EnqueueTensor_run_beyond_int g fuel context input output
             ready_event name device priority version callback [] S
             Hcs Hsz Hbig).
  split; [reflexivity |].
  cbn [events outcome fst snd].
  unfold check_sizes in *.
  destruct input as [i |], output as [o |]; cbn in Hcs |- *;
    repeat split; (reflexivity || discriminate).
Qed.

(** ** The cast in the key-count assertion of [InitTensor] *)

(** In [(unsigned int) (size+bound-1)/bound  // round up] the cast binds to
    the sum, not to the quotient. *)
Lemma round_up_cast :
  round_up 4294967297 4 = ret 1 /\ ceil_div 4294967297 4 = 1073741825.
Proof. split; reflexivity. Qed.

(** With [buff_len = bound = 2^31] one key passes the assertions, and
    [int len] receives [2^31]: worker 0 pushes a partition of negative
    length, and the accumulated-size assertion fails. *)
Remark InitTensor_negative_len :
  forall (g : BytePSGlobal) (fuel : nat) (context : BPSContext.t)
         (name : string) (dtype cpubuff k : Z),
    BPSContext.buff_len context = 2147483648 ->
    GetPartitionBound g = 2147483648 ->
    BPSContext.key_list context = [k] ->
    cpubuff <> 0 ->
    IsDistributed g = true -> IsRootDevice g = true -> GetWorkerID g = 0 ->
    (2 <= fuel)%nat ->
    InitTensor g fuel context name dtype cpubuff
    = ([EvCheckGt key_list_not_empty 1 0;
        EvCheckEq key_list_size 1 1;
        EvZPushWait k (cpubuff + 0) (-2147483648)
          (GetCommandType kDefaultPushPull dtype);
        EvBarrier 0 kWorkerGroup;
        EvCheckEq init_accumulated 18446744071562067968 2147483648],
       InvariantViolation init_accumulated).
Proof.
  intros g fuel context name dtype cpubuff k Hlen Hbound Hkeys Hbuf
         Hd Hr Hw Hfuel.
  destruct fuel as [| [| fuel]]; [lia | lia |].
  unfold InitTensor, InitTensor_cpubuff.
  rewrite Hlen, Hbound, Hkeys.
  destruct (Z.eqb_spec cpubuff 0) as [| _]; [contradiction |].
  cbn [negb InitTensor_loop]. rewrite Hd, Hr, Hw.
  reflexivity.
Qed.

(** C8. The count [InitTensor] asserts is not [⌈buff_len / bound⌉] once
    [buff_len + bound - 1] leaves the range of [unsigned int]: with
    [buff_len = 2^32 + 1] and a bound of 4 it asserts [|key_list| = 1]
    where the rounded-up quotient is 1073741825.  A context with one key
    passes both assertions and the loop then reads [key_list[1]], outside
    the vector: the call neither fails an assertion nor sets
    [initialized]; a context with the 1073741825 keys is rejected at the
    key-count assertion. *)
Theorem InitTensor_round_up_cast :
  forall (g : BytePSGlobal) (fuel : nat) (context : BPSContext.t)
         (name : string) (dtype cpubuff k : Z),
    BPSContext.buff_len context = 4294967297 ->
    GetPartitionBound g = 4 ->
    BPSContext.key_list context = [k] ->
    (2 <= fuel)%nat ->
    ceil_div (BPSContext.buff_len context) (GetPartitionBound g)
    = 1073741825
    /\ checks_at key_list_size
         (events (InitTensor g fuel context name dtype cpubuff))
       = [EvCheckEq key_list_size 1 1]
    /\ outcome (InitTensor g fuel context name dtype cpubuff)
       = UndefinedBehavior
    /\ (cpubuff <> 0 ->
        InitTensor g fuel context name dtype cpubuff
        = ([EvCheckGt key_list_not_empty 1 0;
            EvCheckEq key_list_size 1 1]
           ++ (if IsDistributed g && IsRootDevice g then
                 (if GetWorkerID g =? 0 then
                    [EvZPushWait k (cpubuff + 0) 4
                       (GetCommandType kDefaultPushPull dtype)]
                  else [])
                 ++ [EvBarrier 0 kWorkerGroup]
               else []),
           UndefinedBehavior))
    /\ (forall (context' : BPSContext.t) (fuel' : nat),
          BPSContext.buff_len context' = 4294967297 ->
          size_of (BPSContext.key_list context') = 1073741825 ->
          InitTensor g fuel' context' name dtype cpubuff
          = ([EvCheckGt key_list_not_empty 1073741825 0;
              EvCheckEq key_list_size 1073741825 1],
             InvariantViolation key_list_size)).
Proof.
  intros g fuel context name dtype cpubuff k Hlen Hbound Hkeys Hfuel.
  destruct fuel as [| [| fuel]]; [lia | lia |].
  rewrite Hlen, Hbound. split; [reflexivity |].
  assert (Hrun : cpubuff <> 0 ->
            InitTensor g (S (S fuel)) context name dtype cpubuff
            = ([EvCheckGt key_list_not_empty 1 0;
                EvCheckEq key_list_size 1 1]
               ++ (if IsDistributed g && IsRootDevice g then
                     (if GetWorkerID g =? 0 then
                        [EvZPushWait k (cpubuff + 0) 4
                           (GetCommandType kDefaultPushPull dtype)]
                      else [])
                     ++ [EvBarrier 0 kWorkerGroup]
                   else []),
               UndefinedBehavior)).
  { intros Hbuf. unfold InitTensor, InitTensor_cpubuff.
    rewrite Hlen, Hbound, Hkeys.
    destruct (Z.eqb_spec cpubuff 0) as [| _]; [contradiction |].
    cbn [negb InitTensor_loop].
    destruct (IsDistributed g), (IsRootDevice g), (GetWorkerID g =? 0);
      reflexivity. }
  split; [| split; [| split; [exact Hrun |]]].
  - destruct (Z.eq_dec cpubuff 0) as [-> | Hbuf].
    + unfold InitTensor, InitTensor_cpubuff.
      rewrite Hlen, Hbound, Hkeys. cbn [Z.eqb negb].
      unfold vector_back. cbn.
      destruct (IsCrossPcieSwitch g);
        [destruct (rev (openPcieSharedMemory k 4294967297)) as [| p0 ps] |];
        destruct (IsDistributed g), (IsRootDevice g), (GetWorkerID g =? 0);
        reflexivity.
    + rewrite (Hrun Hbuf).
      destruct (IsDistributed g), (IsRootDevice g), (GetWorkerID g =? 0);
        reflexivity.
  - destruct (Z.eq_dec cpubuff 0) as [-> | Hbuf].
    + unfold InitTensor, InitTensor_cpubuff.
      rewrite Hlen, Hbound, Hkeys. cbn [Z.eqb negb].
      unfold vector_back. cbn.
      destruct (IsCrossPcieSwitch g);
        [destruct (rev (openPcieSharedMemory k 4294967297)) as [| p0 ps] |];
        destruct (IsDistributed g), (IsRootDevice g), (GetWorkerID g =? 0);
        reflexivity.
    + rewrite (Hrun Hbuf). reflexivity.
  - intros context' fuel' Hlen' Hkeys'. unfold InitTensor.
    rewrite Hlen', Hbound, Hkeys'. reflexivity.
Qed.

End Operations.

(** * The statements at concrete inputs *)

Lemma GetPushQueueList_table_witness :
  GetPushQueueList example_cpu example_global 0
  = Table.push_itinerary true true false true.
Proof.
  apply (GetPushQueueList_table example_cpu 0 true true false true 4 0).
  unfold example_cpu. lia.
Defined.

Lemma GetPullQueueList_table_witness :
  GetPullQueueList example_cpu example_global 0
  = Table.pull_itinerary true true false true.
Proof.
  apply (GetPullQueueList_table example_cpu 0 true true false true 4 0).
  unfold example_cpu. lia.
Defined.

Lemma partition_conservation_witness :
  (exists ps,
     PartitionTensor example_global 4 example_entry []
     = ([EvCheck counter_ptr_not_null true], Returned ps)
     /\ size_of ps = ceil_div 9 4
     /\ sum_len ps = 9)
  /\ checks_at partition_count
       (events (EnqueueTensor example_global 4 example_context
                  (Some example_tensor) None None "w" 0 0 0 77 [REDUCE]))
     = [EvCheckEq partition_count 3 (ceil_div 9 4)]
  /\ outcome (EnqueueTensor example_global 4 example_context
                (Some example_tensor) None None "w" 0 0 0 77 [REDUCE])
     = Returned OK.
Proof.
  split.
  - destruct (proj1 partition_conservation example_global 4%nat example_entry
                9 0) as [ps [Hrun [Hn [_ Hsum]]]].
    + reflexivity.
    + reflexivity.
    + lia.
    + unfold INT_MAX. lia.
    + simpl. lia.
    + vm_compute. lia.
    + exists ps. repeat split; assumption.
  - destruct (proj2 partition_conservation example_global 4%nat
                example_context (Some example_tensor) None None "w"%string
                0 0 0 77 [REDUCE] 9) as [Hcount [_ Hsum]].
    + reflexivity.
    + reflexivity.
    + lia.
    + unfold INT_MAX. lia.
    + simpl. lia.
    + vm_compute. lia.
    + split; [exact Hcount |].
      apply Hsum; [reflexivity | discriminate].
Defined.

Lemma EnqueueTensor_size_mismatch_witness :
  EnqueueTensor example_global 4 example_context
    (Some example_tensor) (Some example_other_tensor) None "w" 0 0 0 77
    [REDUCE]
  = ([EvCheckEq input_output_size 9 8], InvariantViolation input_output_size).
Proof.
  apply (EnqueueTensor_size_mismatch example_global 4%nat example_context
           example_tensor example_other_tensor None "w"%string 0 0 0 77
           [REDUCE]).
  simpl. lia.
Defined.

Lemma cpu_short_circuit_witness :
  outcome (EnqueueTensor example_global 4 example_context
             (Some example_tensor) None None "w" example_cpu 0 0 77 [])
  = Returned OK
  /\ callbacks
       (events (EnqueueTensor example_global 4 example_context
                  (Some example_tensor) None None "w" example_cpu 0 0 77 []))
     = [(77, OK)].
Proof.
  destruct (proj2 (proj2 (proj2 (cpu_short_circuit example_cpu example_global)))
              4%nat example_context (Some example_tensor) None None
              "w"%string 0 0 77 [] 9) as [Hout [Hcb _]].
  - left. reflexivity.
  - reflexivity.
  - reflexivity.
  - unfold INT_MAX. lia.
  - simpl. lia.
  - vm_compute. lia.
  - reflexivity.
  - split; assumption.
Defined.


Lemma key_assignment_witness :
  (exists ps p,
     outcome (PartitionTensor example_global 4 example_entry []) = Returned ps
     /\ nth_error ps 1 = Some p
     /\ TensorTableEntry.key p = None
     /\ TensorTableEntry.key (TensorTableEntry.set_key p 11) = Some 11)
  /\ List.length
       (added_tasks
          (events (EnqueueTensor example_global 4 example_context
                     (Some example_tensor) None None "w" 0 0 0 77 [REDUCE])))
     = 3%nat.
Proof.
  split.
  - destruct (proj1 (proj2 key_assignment) example_global 4%nat
                example_context (Some example_tensor) None None "w"%string
                0 0 0 77 REDUCE [] 1%nat REDUCE
                (TensorTableEntry.set_key
                   (nth_partition example_entry 9 4 1) 11))
      as [_ [ps [p [k [Hps [Hp [Hnone [Hk [Htask Hkey]]]]]]]]].
    + vm_compute. reflexivity.
    + exists ps, p. injection Hk as <-.
      repeat split; assumption || reflexivity.
  - destruct (proj2 (proj2 key_assignment) example_global 4%nat
                example_context (Some example_tensor) None None "w"%string
                0 0 0 77 REDUCE [] 9) as [_ Hlen].
    + reflexivity.
    + reflexivity.
    + unfold INT_MAX. lia.
    + simpl. lia.
    + vm_compute. lia.
    + reflexivity.
    + exact Hlen.
Defined.

Lemma itineraries_not_empty_witness :
  GetPushQueueList example_cpu example_global 0 <> []
  /\ In REDUCE (GetPushQueueList example_cpu example_global 0)
  /\ GetPullQueueList example_cpu example_global 0 <> []
  /\ last (GetPullQueueList example_cpu example_global 0) COORDINATE_REDUCE
     = BROADCAST.
Proof.
  destruct (itineraries_not_empty example_cpu example_global 0)
    as [H1 [H2 [H3 [H4 _]]]].
  - unfold example_cpu. lia.
  - repeat split; assumption.
Defined.

Lemma InitTensor_protocol_witness :
  ((exists ctx,
      outcome (InitTensor example_cmd example_shm example_pcie_shm
                 example_global 4 example_context "w" 7 0) = Returned ctx
      /\ BPSContext.initialized ctx = true)
   /\ List.length
        (pushes (events (InitTensor example_cmd example_shm example_pcie_shm
                           example_global 4 example_context "w" 7 0)))
      = 3%nat
   /\ barriers (events (InitTensor example_cmd example_shm example_pcie_shm
                          example_global 4 example_context "w" 7 0))
      = 3%nat)
  /\ InitTensor example_cmd example_shm example_pcie_shm example_global 4
       (BPSContext.mk false [10; 11] 0 [] 9 false) "w" 7 0
     = ([EvCheckGt key_list_not_empty 2 0; EvCheckEq key_list_size 2 3],
        InvariantViolation key_list_size).
Proof.
  pose proof (InitTensor_protocol example_cmd example_shm example_pcie_shm)
    as [Hgeneral Hscenario].
  split.
  - destruct (Hscenario example_global 4%nat example_context "w"%string 7 0)
      as [_ Hok].
    + intros k s. discriminate.
    + reflexivity.
    + reflexivity.
    + lia.
    + apply Hok; reflexivity.
  - destruct (Hgeneral example_global 4%nat
                (BPSContext.mk false [10; 11] 0 [] 9 false) "w"%string 7 0)
      as [_ [Hne _]].
    + intros k s. discriminate.
    + unfold init_in_range, UINT_MAX, INT_MAX. simpl. lia.
    + apply Hne.
      * vm_compute. reflexivity.
      * vm_compute. discriminate.
Defined.

Lemma InitTensor_ignores_initialized_witness :
  exists ctx,
    outcome (InitTensor example_cmd example_shm example_pcie_shm
               example_global 4 example_initialized "w" 7 0) = Returned ctx
    /\ BPSContext.initialized ctx = true
    /\ List.length
         (pushes (events (InitTensor example_cmd example_shm example_pcie_shm
                            example_global 4 example_initialized "w" 7 0)))
       = 3%nat.
Proof.
  destruct (proj2 (InitTensor_ignores_initialized example_cmd example_shm
                     example_pcie_shm)
              example_global 4%nat example_initialized "w"%string 7 0)
    as [ctx [Hout [Hinit [_ [_ [Hpush _]]]]]].
  - intros k s. discriminate.
  - reflexivity.
  - unfold init_in_range, UINT_MAX, INT_MAX. simpl. lia.
  - vm_compute. reflexivity.
  - reflexivity.
  - vm_compute. lia.
  - exists ctx. repeat split; assumption.
Defined.

(** C4 as worded does not hold: a first [InitTensor] sets [initialized];
    the same call repeated on the resulting context pushes the three
    partitions to the parameter server again and enters three barriers. *)
Lemma second_InitTensor_pushes_again :
  outcome (InitTensor example_cmd example_shm example_pcie_shm
             example_global 4 example_context "w" 7 0)
  = Returned example_initialized
  /\ BPSContext.initialized example_initialized = true
  /\ pushes (events (InitTensor example_cmd example_shm example_pcie_shm
                       example_global 4 example_initialized "w" 7 0))
     = [(10, 4106, 4, 7); (11, 4110, 4, 7); (12, 4114, 1, 7)]
  /\ barriers (events (InitTensor example_cmd example_shm example_pcie_shm
                         example_global 4 example_initialized "w" 7 0))
     = 3%nat
  /\ ~ (pushes (events (InitTensor example_cmd example_shm example_pcie_shm
                          example_global 4 example_initialized "w" 7 0))
        = []).
Proof.
  repeat split; try reflexivity. vm_compute. discriminate.
Qed.

(** * The further properties at concrete inputs *)

Lemma itinerary_stages_have_loops_witness :
  In PUSH (GetPushQueueList example_cpu example_global 0)
  <-> In PushLoop (byteps_init example_global).
Proof.
  destruct (itinerary_stages_have_loops example_cpu example_global 0)
    as [_ [_ [_ [H _]]]].
  - unfold example_cpu. lia.
  - exact H.
Defined.

Lemma entry_stage_witness :
  hd_error (GetPushQueueList example_cpu example_global 0) = Some REDUCE
  /\ hd_error (GetPullQueueList example_cpu example_global 0) = Some PULL.
Proof.
  destruct (entry_stage example_cpu example_global 0) as [H1 [H2 _]].
  - unfold example_cpu. lia.
  - split; [exact H1 | exact H2].
Defined.

Lemma children_inherit_witness :
  TensorTableEntry.callback
    (TensorTableEntry.set_key (nth_partition example_entry 9 4 1) 11) = 77
  /\ TensorTableEntry.queue_list
       (TensorTableEntry.set_key (nth_partition example_entry 9 4 1) 11)
     = [REDUCE]
  /\ TensorTableEntry.total_partnum
       (TensorTableEntry.set_key (nth_partition example_entry 9 4 1) 11)
     = 3.
Proof.
  destruct (proj2 children_inherit example_global 4%nat example_context
              (Some example_tensor) None None "w"%string 0 0 0 77 [REDUCE]
              1%nat REDUCE
              (TensorTableEntry.set_key (nth_partition example_entry 9 4 1)
                 11))
    as [_ [_ [_ [_ [_ [_ [_ [Hcb [Hql [_ Hn]]]]]]]]]].
  - vm_compute. reflexivity.
  - repeat split; assumption.
Defined.

Lemma partition_names_witness :
  exists ps,
    outcome (PartitionTensor example_global 4 example_entry []) = Returned ps
    /\ NoDup (map TensorTableEntry.tensor_name ps).
Proof.
  destruct (partition_names example_global 4%nat example_entry 9 0)
    as [ps [Hrun [_ Hnd]]].
  - reflexivity.
  - reflexivity.
  - unfold INT_MAX. lia.
  - simpl. lia.
  - vm_compute. lia.
  - exists ps. split; assumption.
Defined.

Lemma partitions_tile_witness :
  exists ps,
    outcome (PartitionTensor example_global 4 example_entry []) = Returned ps
    /\ contiguous 0 ps.
Proof.
  destruct (partitions_tile example_global 4%nat example_entry 9 0)
    as [ps [Hrun [Hc _]]].
  - reflexivity.
  - reflexivity.
  - unfold INT_MAX. lia.
  - simpl. lia.
  - vm_compute. lia.
  - exists ps. split; assumption.
Defined.

Lemma zero_byte_tensor_witness :
  outcome (EnqueueTensor example_global 1
             (BPSContext.mk true [] 4096 [] 0 true)
             (Some (mkTensor 65536 0)) None None "w" 0 0 0 77 [REDUCE])
  = Returned OK
  /\ added_tasks
       (events (EnqueueTensor example_global 1
                  (BPSContext.mk true [] 4096 [] 0 true)
                  (Some (mkTensor 65536 0)) None None "w" 0 0 0 77 [REDUCE]))
     = []
  /\ callbacks
       (events (EnqueueTensor example_global 1
                  (BPSContext.mk true [] 4096 [] 0 true)
                  (Some (mkTensor 65536 0)) None None "w" 0 0 0 77 [REDUCE]))
     = [].
Proof.
  destruct (zero_byte_tensor example_global 1%nat
              (BPSContext.mk true [] 4096 [] 0 true)
              (Some (mkTensor 65536 0)) None None "w"%string 0 0 0 77
              REDUCE []) as [H _].
  - reflexivity.
  - reflexivity.
  - simpl. lia.
  - lia.
  - apply H. reflexivity.
Defined.

Lemma zero_partition_bound_witness :
  EnqueueTensor (mkGlobal true true false true 0 0) 1000 example_context
    (Some example_tensor) None None "w" 0 0 0 77 [REDUCE]
  = ([EvCheck counter_ptr_not_null true], OutOfFuel)
  /\ InitTensor example_cmd example_shm example_pcie_shm
       (mkGlobal true true false true 0 0) 1000 example_context "w" 7 0
     = ([EvCheckGt key_list_not_empty 3 0], UndefinedBehavior).
Proof.
  pose proof (zero_partition_bound example_cmd example_shm example_pcie_shm)
    as [Henqueue Hinit].
  split.
  - apply (Henqueue (mkGlobal true true false true 0 0) 1000%nat
             example_context (Some example_tensor) None None "w"%string
             0 0 0 77 [REDUCE] 9).
    + reflexivity.
    + reflexivity.
    + reflexivity.
    + lia.
  - apply (Hinit (mkGlobal true true false true 0 0) 1000%nat
             example_context "w"%string 7 0).
    + reflexivity.
    + discriminate.
Defined.

Lemma EnqueueTensor_failure_witness :
  added_tasks
    (events (EnqueueTensor example_global 4 example_context
               (Some example_tensor) (Some example_other_tensor) None "w"
               0 0 0 77 [REDUCE])) = []
  /\ callbacks
       (events (EnqueueTensor example_global 4 example_context
                  (Some example_tensor) (Some example_other_tensor) None "w"
                  0 0 0 77 [REDUCE])) = [].
Proof.
  destruct (EnqueueTensor_failure example_global 4%nat example_context
              (Some example_tensor) (Some example_other_tensor) None
              "w"%string 0 0 0 77 [REDUCE] input_output_size) as [_ H].
  - reflexivity.
  - apply H. discriminate.
Defined.

Lemma InitTensor_who_pushes_witness :
  IsDistributed example_global = true
  /\ IsRootDevice example_global = true
  /\ GetWorkerID example_global = 0.
Proof.
  destruct (InitTensor_who_pushes example_cmd example_shm example_pcie_shm
              example_global 4%nat example_context "w"%string 7 0)
    as [H _].
  apply H. vm_compute. discriminate.
Defined.

Lemma InitTensor_result_witness :
  BPSContext.initialized example_initialized = true
  /\ BPSContext.key_list example_initialized
     = BPSContext.key_list example_context
  /\ BPSContext.buff_len example_initialized
     = BPSContext.buff_len example_context.
Proof.
  destruct (InitTensor_result example_cmd example_shm example_pcie_shm
              example_global 4%nat example_context "w"%string 7 0
              example_initialized) as [H1 [H2 [H3 _]]].
  - reflexivity.
  - repeat split; assumption.
Defined.

Lemma InitTensor_buffer_witness :
  opens (events (InitTensor example_cmd example_shm example_pcie_shm
                   example_global 4 example_context "w" 7 8192)) = []
  /\ exists k0 rest,
       BPSContext.key_list example_context = k0 :: rest
       /\ opens (events (InitTensor example_cmd example_shm example_pcie_shm
                           example_global 4 example_context "w" 7 0))
          = [(false, k0, 9)].
Proof.
  split.
  - destruct (InitTensor_buffer example_cmd example_shm example_pcie_shm
                example_global 4%nat example_context "w"%string 7 8192)
      as [H _].
    apply H. lia.
  - destruct (InitTensor_buffer example_cmd example_shm example_pcie_shm
                example_global 4%nat example_context "w"%string 7 0)
      as [_ H].
    destruct (H example_initialized) as [_ Hopen].
    + reflexivity.
    + destruct Hopen as [k0 [rest [Hk [Ho _]]]]; [reflexivity |].
      exists k0, rest. split; assumption.
Defined.

Lemma init_pushes_cover_witness :
  exists ctx',
    outcome (InitTensor example_cmd example_shm example_pcie_shm
               example_global 4 example_context "w" 7 0) = Returned ctx'
    /\ map push_key
           (pushes (events (InitTensor example_cmd example_shm
                              example_pcie_shm example_global 4
                              example_context "w" 7 0)))
       = [10; 11; 12]
    /\ sum_Z (map push_len
                (pushes (events (InitTensor example_cmd example_shm
                                   example_pcie_shm example_global 4
                                   example_context "w" 7 0))))
       = 9.
Proof.
  destruct (init_pushes_cover example_cmd example_shm example_pcie_shm
              example_global 4%nat example_context "w"%string 7 0)
    as [ctx' [Hout [Hkeys [Hsum _]]]].
  - intros k s. discriminate.
  - unfold init_in_range, UINT_MAX, INT_MAX. simpl. lia.
  - vm_compute. reflexivity.
  - reflexivity.
  - vm_compute. lia.
  - reflexivity.
  - reflexivity.
  - reflexivity.
  - exists ctx'. repeat split; assumption.
Defined.

Lemma init_then_enqueue_witness :
  outcome (EnqueueTensor example_global 4 example_initialized
             (Some example_tensor) None None "w" 0 0 0 77 [REDUCE])
  = Returned OK
  /\ map (push_window (BPSContext.cpubuff example_initialized))
         (pushes (events (InitTensor example_cmd example_shm example_pcie_shm
                            example_global 4 example_context "w" 7 0)))
     = map task_window
           (added_tasks
              (events (EnqueueTensor example_global 4 example_initialized
                         (Some example_tensor) None None "w" 0 0 0 77
                         [REDUCE]))).
Proof.
  destruct (init_then_enqueue example_cmd example_shm example_pcie_shm
              example_global 4%nat example_context example_initialized
              "w"%string 7 0 example_tensor None "w"%string 0 0 0 77
              REDUCE []) as [Hout [_ Hsame]].
  - intros k s. discriminate.
  - unfold init_in_range, UINT_MAX, INT_MAX. simpl. lia.
  - unfold INT_MAX. simpl. lia.
  - vm_compute. lia.
  - reflexivity.
  - reflexivity.
  - split; [exact Hout |]. apply Hsame; reflexivity.
Defined.


(** * Beyond the range of the counters, at concrete inputs *)

(** A tensor of [2^31] bytes under a bound of [2^30], with the two keys
    [⌈2^31 / 2^30⌉] asks for. *)
Lemma PartitionTensor_int_accumulator_witness :
  PartitionTensor (mkGlobal true true false true 1073741824 0) 1000
    (parent_entry (BPSContext.mk true [10; 11] 4096 [] 2147483648 false)
       (Some (mkTensor 65536 2147483648)) None None "w" 0 0 0 77 [REDUCE])
    []
  = ([EvCheck counter_ptr_not_null true], OutOfFuel)
  /\ outcome
       (EnqueueTensor (mkGlobal true true false true 1073741824 0) 1000
          (BPSContext.mk true [10; 11] 4096 [] 2147483648 false)
          (Some (mkTensor 65536 2147483648)) None None "w" 0 0 0 77
          [REDUCE])
     = OutOfFuel.
Proof.
  destruct (PartitionTensor_int_accumulator
              (mkGlobal true true false true 1073741824 0) 1000%nat
              (parent_entry
                 (BPSContext.mk true [10; 11] 4096 [] 2147483648 false)
                 (Some (mkTensor 65536 2147483648)) None None "w"%string
                 0 0 0 77 [REDUCE])
              2147483648 0) as [Hrun [_ [Henq _]]].
  - reflexivity.
  - reflexivity.
  - unfold INT_MAX. lia.
  - split; [exact Hrun |].
    destruct (Henq (BPSContext.mk true [10; 11] 4096 [] 2147483648 false)
                (Some (mkTensor 65536 2147483648)) None None "w"%string
                0 0 0 77 [REDUCE]) as [_ [_ Hout]].
    + reflexivity.
    + reflexivity.
    + exact Hout.
Defined.

Lemma cpu_enqueue_beyond_int_witness :
  outcome
    (EnqueueTensor (mkGlobal true true false true 1073741824 0) 1000
       (BPSContext.mk true [10; 11] 4096 [] 2147483648 false)
       (Some (mkTensor 65536 2147483648)) None None "w" example_cpu 0 0 77
       (GetPushQueueList example_cpu
          (mkGlobal true true false true 1073741824 0) example_cpu))
  = OutOfFuel
  /\ callbacks
       (events
          (EnqueueTensor (mkGlobal true true false true 1073741824 0) 1000
             (BPSContext.mk true [10; 11] 4096 [] 2147483648 false)
             (Some (mkTensor 65536 2147483648)) None None "w" example_cpu
             0 0 77
             (GetPushQueueList example_cpu
                (mkGlobal true true false true 1073741824 0) example_cpu)))
     = [].
Proof.
  destruct (cpu_enqueue_beyond_int example_cpu
              (mkGlobal true true false true 1073741824 0) 1000%nat
              (BPSContext.mk true [10; 11] 4096 [] 2147483648 false)
              (Some (mkTensor 65536 2147483648)) None None "w"%string
              0 0 77
              (GetPushQueueList example_cpu
                 (mkGlobal true true false true 1073741824 0) example_cpu)
              2147483648) as [_ [Hout [Hcb _]]].
  - left. reflexivity.
  - reflexivity.
  - reflexivity.
  - unfold INT_MAX. lia.
  - split; assumption.
Defined.

Lemma empty_itinerary_beyond_int_witness :
  EnqueueTensor (mkGlobal true true false true 1073741824 0) 1000
    (BPSContext.mk true [10; 11] 4096 [] 2147483648 false)
    (Some (mkTensor 65536 2147483648)) None None "w" 0 0 0 77 []
  = ([EvCheck counter_ptr_not_null true], OutOfFuel).
Proof.
  destruct (empty_itinerary_beyond_int
              (mkGlobal true true false true 1073741824 0) 1000%nat
              (BPSContext.mk true [10; 11] 4096 [] 2147483648 false)
              (Some (mkTensor 65536 2147483648)) None None "w"%string
              0 0 0 77 2147483648) as [Hrun _].
  - reflexivity.
  - reflexivity.
  - unfold INT_MAX. lia.
  - exact Hrun.
Defined.

(** A buffer of [2^32 + 1] bytes under a bound of 4, with one key. *)
Lemma InitTensor_round_up_cast_witness :
  InitTensor example_cmd example_shm example_pcie_shm example_global 4
    (BPSContext.mk false [10] 0 [] 4294967297 false) "w" 7 8192
  = ([EvCheckGt key_list_not_empty 1 0;
      EvCheckEq key_list_size 1 1;
      EvZPushWait 10 8192 4 7;
      EvBarrier 0 kWorkerGroup],
     UndefinedBehavior)
  /\ ceil_div 4294967297 4 = 1073741825.
Proof.
  destruct (InitTensor_round_up_cast example_cmd example_shm example_pcie_shm
              example_global 4%nat
              (BPSContext.mk false [10] 0 [] 4294967297 false) "w"%string
              7 8192 10) as [Hceil [_ [_ [Hrun _]]]].
  - reflexivity.
  - reflexivity.
  - reflexivity.
  - lia.
  - split; [| exact Hceil].
    rewrite Hrun by discriminate. reflexivity.
Defined.
